(** * HIT_radar: the IWR1843 point-cloud framing and decoding pipeline

    A shallow embedding of the [TI1843Radar] class as it appears in
    [iwr1843.py], [radar.py], [radar1.py] and [radar2.py]: the sync-word
    search, the fixed header and TLV header decoding, the point loop with
    its degenerate-point filter, and the capture worker together with the
    [start_capture] / [stop_capture] session operations; then what stands
    around them: [connect] and [disconnect], the sending of the
    configuration file, the search for the radar's ports, and the
    simulated temperature of [RadarController]. *)

From Stdlib Require Import List ZArith Lia Bool Arith.
From Stdlib.Strings Require Import Byte.
From Stdlib Require Orders Mergesort String Ascii Floats.
Import ListNotations.

Set Implicit Arguments.

(** ** Bytes objects *)

(** A Python [bytes] object is a finite sequence of octets. *)
Definition bytes := list byte.

Definition byte_val (b : byte) : Z := Z.of_N (Byte.to_N b).

(** [MAGIC_WORD = b'\x02\x01\x04\x03\x06\x05\x08\x07'] *)
Definition MAGIC_WORD : bytes := [x02; x01; x04; x03; x06; x05; x08; x07].

(** [buffer[a:b]] for non-negative [a] and [b]: Python clips both ends to
    the length of the buffer and never raises. *)
Definition slice (buf : bytes) (a b : nat) : bytes := firstn (b - a) (skipn a buf).

(** [buf.startswith(pat)] *)
Fixpoint starts_with (pat buf : bytes) : bool :=
  match pat, buf with
  | [], _ => true
  | _ :: _, [] => false
  | p :: pat', b :: buf' => Byte.eqb p b && starts_with pat' buf'
  end.

(** The offset of the first occurrence of [pat] in [buf], if there is one. *)
Fixpoint find_first (pat buf : bytes) : option nat :=
  if starts_with pat buf then Some 0
  else match buf with
       | [] => None
       | _ :: buf' => option_map S (find_first pat buf')
       end.

(** [pat in buf] *)
Fixpoint contains (pat buf : bytes) : bool :=
  starts_with pat buf ||
  match buf with
  | [] => false
  | _ :: buf' => contains pat buf'
  end.

(** ** Exceptions and results *)

(** The exceptions the modelled code can meet. All of them derive from
    Python's [Exception], so every [except Exception] clause catches them. *)
Inductive exn : Type :=
| ValueError        (* bytes.index: subsection not found *)
| StructError       (* struct.error: unpack requires a buffer of n bytes *)
| SerialException   (* pyserial: the port failed *)
| CallbackError.    (* the consumer callback raised *)

Inductive result (A : Type) : Type :=
| Ret (a : A)
| Raise (e : exn).
Arguments Ret {A} a.
Arguments Raise {A} e.

Definition rbind {A B} (m : result A) (k : A -> result B) : result B :=
  match m with
  | Ret a => k a
  | Raise e => Raise e
  end.

(** [try: m  except Exception as e: h e] *)
Definition try_except {A} (m : result A) (h : exn -> result A) : result A :=
  match m with
  | Ret a => Ret a
  | Raise e => h e
  end.

Declare Scope result_scope.
Delimit Scope result_scope with result.
Notation "x <- m ;; k" := (rbind m (fun x => k))
  (at level 61, m at next level, right associativity) : result_scope.
Notation "' pat <- m ;; k" := (rbind m (fun x => match x with pat => k end))
  (at level 61, pat pattern, m at next level, right associativity) : result_scope.

(** [buffer.index(MAGIC_WORD)] raises [ValueError] when the word is absent. *)
Definition index (buf pat : bytes) : result nat :=
  match find_first pat buf with
  | Some i => Ret i
  | None => Raise ValueError
  end.

(** ** struct.unpack *)

(** The unsigned 32-bit little-endian word stored at offset [i] of [bs]. *)
Definition word_at (bs : bytes) (i : nat) : Z :=
  Z.lor (byte_val (nth i bs x00))
    (Z.lor (Z.shiftl (byte_val (nth (i + 1) bs x00)) 8)
       (Z.lor (Z.shiftl (byte_val (nth (i + 2) bs x00)) 16)
          (Z.shiftl (byte_val (nth (i + 3) bs x00)) 24))).

Record FrameHeader : Type := {
  version : Z;
  length_ : Z;
  platform : Z;
  frame_num : Z;
  cpu_cycles : Z;
  num_obj : Z;
  num_tlvs : Z
}.

(** [struct.unpack('<7I', bs)]: exactly 28 bytes or [struct.error]. *)
Definition unpack_7I (bs : bytes) : result FrameHeader :=
  if length bs =? 28 then
    Ret {| version := word_at bs 0; length_ := word_at bs 4;
           platform := word_at bs 8; frame_num := word_at bs 12;
           cpu_cycles := word_at bs 16; num_obj := word_at bs 20;
           num_tlvs := word_at bs 24 |}
  else Raise StructError.

(** [struct.unpack('<2I', bs)]: exactly 8 bytes or [struct.error]. *)
Definition unpack_2I (bs : bytes) : result (Z * Z) :=
  if length bs =? 8 then Ret (word_at bs 0, word_at bs 4)
  else Raise StructError.

(** An IEEE 754 binary32 number, kept as its 32-bit pattern. The Python
    float that [unpack] builds from it is the double with the same value;
    the conversion is exact, so the pattern determines it. *)
Definition f32 := Z.
Bind Scope Z_scope with f32.

Definition f32_sign (w : f32) : bool := Z.testbit w 31.
Definition f32_exponent (w : f32) : Z := Z.land (Z.shiftr w 23) 255.
Definition f32_fraction (w : f32) : Z := Z.land w 8388607.

(** [x == 0]: IEEE equality with zero holds for both signed zeros, and for
    nothing else (subnormals, infinities and NaNs all differ from zero). *)
Definition f32_eq_zero (w : f32) : bool :=
  (f32_exponent w =? 0)%Z && (f32_fraction w =? 0)%Z.

(** [struct.unpack('4f', bs)]: exactly 16 bytes or [struct.error]. The
    format has no byte-order prefix, so the host's order is used; the hosts
    this program targets (Windows COM ports) are little-endian. *)
Definition unpack_4f (bs : bytes) : result (f32 * f32 * f32 * f32) :=
  if length bs =? 16 then
    Ret (word_at bs 0, word_at bs 4, word_at bs 8, word_at bs 12)
  else Raise StructError.

(** ** Points and arrays *)

(** One appended row [[x, y, z, vel]]. *)
Record point : Type := { px : f32; py : f32; pz : f32; pvel : f32 }.

(** [(x, y, z) != (0, 0, 0)]: tuple inequality, element by element. *)
Definition triple_ne_zero (x y z : f32) : bool :=
  negb (f32_eq_zero x && f32_eq_zero y && f32_eq_zero z).

(** What the callers observe of a numpy array: its shape and its rows. *)
Record ndarray : Type := { shape : list nat; rows : list point }.

(** [np.empty((0, 4))] *)
Definition np_empty_0_4 : ndarray := {| shape := [0; 4]; rows := [] |}.

(** [np.array(points)] for a list of 4-element rows: an empty list gives a
    one-dimensional array of shape (0,), [n] rows give shape (n, 4). *)
Definition np_array (points : list point) : ndarray :=
  {| shape := match points with [] => [0] | _ => [length points; 4] end;
     rows := points |}.

(** [len(arr)] *)
Definition len (a : ndarray) : nat := length (rows a).

(** [range(start, stop, step)] for a positive step. *)
Definition py_range (start stop step : nat) : list nat :=
  map (fun k => start + k * step) (seq 0 ((stop - start + step - 1) / step)).

(** ** The capture worker's effects *)

(** The worker mutates the radar object, calls out to the serial port and
    to the consumer, and any of these calls may raise. A computation takes
    the current world to an outcome and the world at that moment: when an
    exception is raised the assignments made before it stay in place. *)
Definition M (W A : Type) : Type := W -> result A * W.

Definition ret {W A} (a : A) : M W A := fun w => (Ret a, w).

Definition raise {W A} (e : exn) : M W A := fun w => (Raise e, w).

Definition bind {W A B} (m : M W A) (k : A -> M W B) : M W B :=
  fun w =>
    match m w with
    | (Ret a, w') => k a w'
    | (Raise e, w') => (Raise e, w')
    end.

Definition gets {W A} (f : W -> A) : M W A := fun w => (Ret (f w), w).

Definition modify {W} (f : W -> W) : M W unit := fun w => (Ret tt, f w).

(** A pure computation that may raise, run inside the worker. *)
Definition lift {W A} (r : result A) : M W A := fun w => (r, w).

Declare Scope worker_scope.
Delimit Scope worker_scope with worker.
Notation "x <- m ;; k" := (bind m (fun x => k))
  (at level 61, m at next level, right associativity) : worker_scope.
Notation "m ;; k" := (bind m (fun _ => k))
  (at level 61, right associativity) : worker_scope.

(** [serial.Serial]: all the class looks at is whether the port is open. *)
Record serial_port : Type := { is_open : bool }.

(** [p is not None and p.is_open] *)
Definition port_open (p : option serial_port) : bool :=
  match p with
  | Some s => is_open s
  | None => false
  end.

(** What the data port does during one turn of the loop: it holds the
    bytes [bs] that have arrived since the last read ([in_waiting] is their
    number and [read] returns them), or it fails. *)
Inductive serial_event : Type :=
| Waiting (bs : bytes)
| PortFailure.

(** [port.in_waiting] *)
Definition in_waiting {W} (ev : serial_event) : M W nat :=
  match ev with
  | Waiting bs => ret (length bs)
  | PortFailure => raise SerialException
  end.

(** [port.read(n)] *)
Definition read {W} (ev : serial_event) (n : nat) : M W bytes :=
  match ev with
  | Waiting bs => ret (firstn n bs)
  | PortFailure => raise SerialException
  end.

(** [time.sleep(0.01)] *)
Definition sleep {W} : M W unit := ret tt.

(** Where a capture worker stands after one turn of its [while] loop. *)
Inductive worker_status : Type :=
| Looping      (* back at the loop test *)
| Finished.    (* the thread's function has returned *)

Local Open Scope result_scope.

(** ** The four copies of [TI1843Radar] *)

(** [radar.py], class [TI1843Radar] (lines 17-138); [_parse_pointcloud]
    is at lines 70-101. *)
Module Radar.

(** The [for offset in range(0, num_points*16, 16)] loop; [points] is the
    list built so far, [break] returns it as it stands. *)
Fixpoint read_points (buffer : bytes) (data_start : nat)
    (offsets : list nat) (points : list point) : result (list point) :=
  match offsets with
  | [] => Ret points
  | offset :: offsets' =>
      let point_data :=
        slice buffer (data_start + offset) (data_start + offset + 16) in
      if length point_data <? 16 then Ret points
      else
        '(x, y, z, vel) <- unpack_4f point_data ;;
        read_points buffer data_start offsets'
          (if triple_ne_zero x y z
           then points ++ [{| px := x; py := y; pz := z; pvel := vel |}]
           else points)
  end.

(** The body of the [try] block. *)
Definition parse_body (buffer : bytes) : result ndarray :=
  idx <- index buffer MAGIC_WORD ;;
  let header := slice buffer idx (idx + 40) in
  _ <- unpack_7I (slice header 8 36) ;;
  '(tlv_type, tlv_length) <- unpack_2I (slice buffer (idx + 40) (idx + 48)) ;;
  let num_points := (tlv_length / 16)%Z in
  if (num_points >? 1000)%Z then Ret np_empty_0_4
  else
    let data_start := idx + 48 in
    points <- read_points buffer data_start
                (py_range 0 (Z.to_nat num_points * 16) 16) [] ;;
    Ret (np_array points).

Definition _parse_pointcloud (buffer : bytes) : result ndarray :=
  try_except (parse_body buffer) (fun _ => Ret np_empty_0_4).

(** The object's fields, as [__init__] creates them (the two port names
    and [range_profile_length], which no method reads, are left out). *)
Record TI1843Radar : Type := {
  cli : option serial_port;
  data : option serial_port;
  running : bool;
  capturing : bool;
  buffer : bytes;
  points_count : nat
}.

Definition __init__ : TI1843Radar :=
  {| cli := None; data := None; running := false; capturing := false;
     buffer := []; points_count := 0 |}.

Definition set_running (b : bool) (r : TI1843Radar) : TI1843Radar :=
  {| cli := cli r; data := data r; running := b; capturing := capturing r;
     buffer := buffer r; points_count := points_count r |}.

Definition set_capturing (b : bool) (r : TI1843Radar) : TI1843Radar :=
  {| cli := cli r; data := data r; running := running r; capturing := b;
     buffer := buffer r; points_count := points_count r |}.

Definition set_buffer (bs : bytes) (r : TI1843Radar) : TI1843Radar :=
  {| cli := cli r; data := data r; running := running r;
     capturing := capturing r; buffer := bs;
     points_count := points_count r |}.

Definition set_points_count (n : nat) (r : TI1843Radar) : TI1843Radar :=
  {| cli := cli r; data := data r; running := running r;
     capturing := capturing r; buffer := buffer r; points_count := n |}.

(** The object together with what surrounds it: the capture threads that
    have been started and have not returned, the arrays the callback has
    been invoked with (oldest first), and the exceptions printed. *)
Record world : Type := {
  self : TI1843Radar;
  threads : nat;
  delivered : list ndarray;
  console : list exn
}.

(** The consumer: any callable. It may change the object and may raise. *)
Definition callback : Type := ndarray -> M TI1843Radar unit.

Definition on_self (f : TI1843Radar -> TI1843Radar) : M world unit :=
  modify (fun w => {| self := f (self w); threads := threads w;
                      delivered := delivered w; console := console w |}).

(** [callback(points)] *)
Definition call (cb : callback) (points : ndarray) : M world unit :=
  fun w =>
    let (r, self') := cb points (self w) in
    (r, {| self := self'; threads := threads w;
           delivered := delivered w ++ [points]; console := console w |}).

(** [print(...)] in the worker's handler. *)
Definition print (e : exn) (w : world) : world :=
  {| self := self w; threads := threads w; delivered := delivered w;
     console := console w ++ [e] |}.

Definition is_connected (r : TI1843Radar) : bool :=
  port_open (cli r) && port_open (data r).

(** The body of the [try] block inside [_capture_loop], lines 116-124. *)
Definition loop_body (cb : callback) (ev : serial_event) : M world unit :=
  (n <- in_waiting ev ;;
   (if 0 <? n then
      n' <- in_waiting ev ;;
      bs <- read ev n' ;;
      on_self (fun r => set_buffer (buffer r ++ bs) r) ;;
      buf <- gets (fun w => buffer (self w)) ;;
      if contains MAGIC_WORD buf then
        points <- lift (_parse_pointcloud buf) ;;
        on_self (set_points_count (len points)) ;;
        (if 0 <? len points then call cb points else ret tt) ;;
        on_self (set_buffer [])
      else ret tt
    else ret tt) ;;
   sleep)%worker.

(** The thread's function returns: [self.capturing = False], line 128. *)
Definition finish (w : world) : world :=
  {| self := set_capturing false (self w); threads := pred (threads w);
     delivered := delivered w; console := console w |}.

(** One turn of [while self.running: try: ... except Exception as e:
    print(...); break], and the statement after the loop once it is left. *)
Definition worker_step (cb : callback) (ev : serial_event) (w : world)
    : worker_status * world :=
  if running (self w) then
    match loop_body cb ev w with
    | (Ret _, w') => (Looping, w')
    | (Raise e, w') => (Finished, finish (print e w'))
    end
  else (Finished, finish w).

(** The thread's function, run against a sequence of port events: the
    turns of its loop for as long as events are left. *)
Fixpoint _capture_loop (cb : callback) (evs : list serial_event) (w : world)
    : worker_status * world :=
  match evs with
  | [] => (Looping, w)
  | ev :: evs' =>
      match worker_step cb ev w with
      | (Looping, w') => _capture_loop cb evs' w'
      | (Finished, w') => (Finished, w')
      end
  end.

(** [start_capture], lines 103-131. *)
Definition start_capture (cb : callback) (w : world) : bool * world :=
  if negb (is_connected (self w)) || capturing (self w) then (false, w)
  else
    (true,
     {| self := set_points_count 0
                  (set_buffer []
                     (set_running true (set_capturing true (self w))));
        threads := S (threads w);
        delivered := delivered w; console := console w |}).

(** [stop_capture], lines 133-138. *)
Definition stop_capture (w : world) : world :=
  {| self := set_points_count 0
               (set_buffer []
                  (set_capturing false (set_running false (self w))));
     threads := threads w; delivered := delivered w;
     console := console w |}.

End Radar.

(** [iwr1843.py], [_parse_pointcloud] (lines 30-62): the same text as in
    [radar.py], except that the handler prints the exception before it
    returns. *)
Module Iwr1843.

Fixpoint read_points (buffer : bytes) (data_start : nat)
    (offsets : list nat) (points : list point) : result (list point) :=
  match offsets with
  | [] => Ret points
  | offset :: offsets' =>
      let point_data :=
        slice buffer (data_start + offset) (data_start + offset + 16) in
      if length point_data <? 16 then Ret points
      else
        '(x, y, z, vel) <- unpack_4f point_data ;;
        read_points buffer data_start offsets'
          (if triple_ne_zero x y z
           then points ++ [{| px := x; py := y; pz := z; pvel := vel |}]
           else points)
  end.

Definition parse_body (buffer : bytes) : result ndarray :=
  idx <- index buffer MAGIC_WORD ;;
  let header := slice buffer idx (idx + 40) in
  _ <- unpack_7I (slice header 8 36) ;;
  '(tlv_type, tlv_length) <- unpack_2I (slice buffer (idx + 40) (idx + 48)) ;;
  let num_points := (tlv_length / 16)%Z in
  if (num_points >? 1000)%Z then Ret np_empty_0_4
  else
    let data_start := idx + 48 in
    points <- read_points buffer data_start
                (py_range 0 (Z.to_nat num_points * 16) 16) [] ;;
    Ret (np_array points).

Definition _parse_pointcloud (buffer : bytes) : result ndarray :=
  try_except (parse_body buffer) (fun _ => Ret np_empty_0_4).

End Iwr1843.

(** [radar1.py], class [TI1843Radar] (lines 33-128); [_parse_pointcloud]
    is at lines 78-98. *)
Module Radar1.

(** The [for i in range(num_points)] loop: every slice goes straight to
    [unpack], there is no length test and no [break]. *)
Fixpoint read_points (buffer : bytes) (off : nat)
    (indices : list nat) (points : list point) : result (list point) :=
  match indices with
  | [] => Ret points
  | i :: indices' =>
      '(x, y, z, vel) <-
         unpack_4f (slice buffer (off + i * 16) (off + i * 16 + 16)) ;;
      read_points buffer off indices'
        (if triple_ne_zero x y z
         then points ++ [{| px := x; py := y; pz := z; pvel := vel |}]
         else points)
  end.

Definition parse_body (buffer : bytes) : result ndarray :=
  idx <- index buffer MAGIC_WORD ;;
  let header := slice buffer idx (idx + 40) in
  _ <- unpack_7I (slice header 8 36) ;;
  '(tlv_type, tlv_length) <- unpack_2I (slice buffer (idx + 40) (idx + 48)) ;;
  if negb (tlv_type =? 1)%Z then Ret np_empty_0_4
  else
    let num_points := (tlv_length / 16)%Z in
    if (num_points >? 1000)%Z then Ret np_empty_0_4
    else
      let off := idx + 48 in
      points <- read_points buffer off
                  (py_range 0 (Z.to_nat num_points) 1) [] ;;
      Ret (np_array points).

Definition _parse_pointcloud (buffer : bytes) : result ndarray :=
  try_except (parse_body buffer) (fun _ => Ret np_empty_0_4).

(** The object's fields, as [__init__] creates them (the two port names
    are left out). *)
Record TI1843Radar : Type := {
  cli : option serial_port;
  data : option serial_port;
  running : bool;
  capturing : bool;
  buffer : bytes
}.

Definition __init__ : TI1843Radar :=
  {| cli := None; data := None; running := false; capturing := false;
     buffer := [] |}.

Definition set_running (b : bool) (r : TI1843Radar) : TI1843Radar :=
  {| cli := cli r; data := data r; running := b; capturing := capturing r;
     buffer := buffer r |}.

Definition set_capturing (b : bool) (r : TI1843Radar) : TI1843Radar :=
  {| cli := cli r; data := data r; running := running r; capturing := b;
     buffer := buffer r |}.

Definition set_buffer (bs : bytes) (r : TI1843Radar) : TI1843Radar :=
  {| cli := cli r; data := data r; running := running r;
     capturing := capturing r; buffer := bs |}.

(** The object together with what surrounds it: the capture threads that
    have been started and have not returned, the arrays the callback has
    been invoked with (oldest first), and the exceptions printed. *)
Record world : Type := {
  self : TI1843Radar;
  threads : nat;
  delivered : list ndarray;
  console : list exn
}.

(** The consumer: any callable. It may change the object and may raise. *)
Definition callback : Type := ndarray -> M TI1843Radar unit.

Definition on_self (f : TI1843Radar -> TI1843Radar) : M world unit :=
  modify (fun w => {| self := f (self w); threads := threads w;
                      delivered := delivered w; console := console w |}).

(** [callback(pts)] *)
Definition call (cb : callback) (pts : ndarray) : M world unit :=
  fun w =>
    let (r, self') := cb pts (self w) in
    (r, {| self := self'; threads := threads w;
           delivered := delivered w ++ [pts]; console := console w |}).

(** [print(...)] in the worker's handler. *)
Definition print (e : exn) (w : world) : world :=
  {| self := self w; threads := threads w; delivered := delivered w;
     console := console w ++ [e] |}.

Definition is_connected (r : TI1843Radar) : bool :=
  port_open (cli r) && port_open (data r).

(** The body of the [try] block inside [loop], lines 110-117. *)
Definition loop_body (cb : callback) (ev : serial_event) : M world unit :=
  (n <- in_waiting ev ;;
   (if negb (n =? 0) then
      n' <- in_waiting ev ;;
      bs <- read ev n' ;;
      on_self (fun r => set_buffer (buffer r ++ bs) r) ;;
      buf <- gets (fun w => buffer (self w)) ;;
      if contains MAGIC_WORD buf then
        pts <- lift (_parse_pointcloud buf) ;;
        (if negb (len pts =? 0) then call cb pts else ret tt) ;;
        on_self (set_buffer [])
      else ret tt
    else ret tt) ;;
   sleep)%worker.

(** The thread's function returns: [self.capturing = False], line 121. *)
Definition finish (w : world) : world :=
  {| self := set_capturing false (self w); threads := pred (threads w);
     delivered := delivered w; console := console w |}.

(** One turn of [while self.running: try: ... except Exception as e:
    print(...); break], and the statement after the loop once it is left. *)
Definition worker_step (cb : callback) (ev : serial_event) (w : world)
    : worker_status * world :=
  if running (self w) then
    match loop_body cb ev w with
    | (Ret _, w') => (Looping, w')
    | (Raise e, w') => (Finished, finish (print e w'))
    end
  else (Finished, finish w).

(** The thread's function, run against a sequence of port events: the
    turns of its loop for as long as events are left. *)
Fixpoint loop (cb : callback) (evs : list serial_event) (w : world)
    : worker_status * world :=
  match evs with
  | [] => (Looping, w)
  | ev :: evs' =>
      match worker_step cb ev w with
      | (Looping, w') => loop cb evs' w'
      | (Finished, w') => (Finished, w')
      end
  end.

(** [start_capture], lines 101-124. *)
Definition start_capture (cb : callback) (w : world) : bool * world :=
  if capturing (self w) || negb (is_connected (self w)) then (false, w)
  else
    (true,
     {| self := set_buffer []
                  (set_capturing true (set_running true (self w)));
        threads := S (threads w);
        delivered := delivered w; console := console w |}).

(** [stop_capture], lines 126-128. *)
Definition stop_capture (w : world) : world :=
  {| self := set_capturing false (set_running false (self w));
     threads := threads w; delivered := delivered w;
     console := console w |}.

End Radar1.

(** [radar2.py], class [TI1843Radar] (lines 38-133), the same text as in
    [radar1.py]; [_parse_pointcloud] is at lines 83-103. *)
Module Radar2.

Fixpoint read_points (buffer : bytes) (off : nat)
    (indices : list nat) (points : list point) : result (list point) :=
  match indices with
  | [] => Ret points
  | i :: indices' =>
      '(x, y, z, vel) <-
         unpack_4f (slice buffer (off + i * 16) (off + i * 16 + 16)) ;;
      read_points buffer off indices'
        (if triple_ne_zero x y z
         then points ++ [{| px := x; py := y; pz := z; pvel := vel |}]
         else points)
  end.

Definition parse_body (buffer : bytes) : result ndarray :=
  idx <- index buffer MAGIC_WORD ;;
  let header := slice buffer idx (idx + 40) in
  _ <- unpack_7I (slice header 8 36) ;;
  '(tlv_type, tlv_length) <- unpack_2I (slice buffer (idx + 40) (idx + 48)) ;;
  if negb (tlv_type =? 1)%Z then Ret np_empty_0_4
  else
    let num_points := (tlv_length / 16)%Z in
    if (num_points >? 1000)%Z then Ret np_empty_0_4
    else
      let off := idx + 48 in
      points <- read_points buffer off
                  (py_range 0 (Z.to_nat num_points) 1) [] ;;
      Ret (np_array points).

Definition _parse_pointcloud (buffer : bytes) : result ndarray :=
  try_except (parse_body buffer) (fun _ => Ret np_empty_0_4).

(** The object's fields, as [__init__] creates them (the two port names
    are left out). *)
Record TI1843Radar : Type := {
  cli : option serial_port;
  data : option serial_port;
  running : bool;
  capturing : bool;
  buffer : bytes
}.

Definition __init__ : TI1843Radar :=
  {| cli := None; data := None; running := false; capturing := false;
     buffer := [] |}.

Definition set_running (b : bool) (r : TI1843Radar) : TI1843Radar :=
  {| cli := cli r; data := data r; running := b; capturing := capturing r;
     buffer := buffer r |}.

Definition set_capturing (b : bool) (r : TI1843Radar) : TI1843Radar :=
  {| cli := cli r; data := data r; running := running r; capturing := b;
     buffer := buffer r |}.

Definition set_buffer (bs : bytes) (r : TI1843Radar) : TI1843Radar :=
  {| cli := cli r; data := data r; running := running r;
     capturing := capturing r; buffer := bs |}.

(** The object together with what surrounds it: the capture threads that
    have been started and have not returned, the arrays the callback has
    been invoked with (oldest first), and the exceptions printed. *)
Record world : Type := {
  self : TI1843Radar;
  threads : nat;
  delivered : list ndarray;
  console : list exn
}.

(** The consumer: any callable. It may change the object and may raise. *)
Definition callback : Type := ndarray -> M TI1843Radar unit.

Definition on_self (f : TI1843Radar -> TI1843Radar) : M world unit :=
  modify (fun w => {| self := f (self w); threads := threads w;
                      delivered := delivered w; console := console w |}).

(** [callback(pts)] *)
Definition call (cb : callback) (pts : ndarray) : M world unit :=
  fun w =>
    let (r, self') := cb pts (self w) in
    (r, {| self := self'; threads := threads w;
           delivered := delivered w ++ [pts]; console := console w |}).

(** [print(...)] in the worker's handler. *)
Definition print (e : exn) (w : world) : world :=
  {| self := self w; threads := threads w; delivered := delivered w;
     console := console w ++ [e] |}.

Definition is_connected (r : TI1843Radar) : bool :=
  port_open (cli r) && port_open (data r).

(** The body of the [try] block inside [loop], lines 115-122. *)
Definition loop_body (cb : callback) (ev : serial_event) : M world unit :=
  (n <- in_waiting ev ;;
   (if negb (n =? 0) then
      n' <- in_waiting ev ;;
      bs <- read ev n' ;;
      on_self (fun r => set_buffer (buffer r ++ bs) r) ;;
      buf <- gets (fun w => buffer (self w)) ;;
      if contains MAGIC_WORD buf then
        pts <- lift (_parse_pointcloud buf) ;;
        (if negb (len pts =? 0) then call cb pts else ret tt) ;;
        on_self (set_buffer [])
      else ret tt
    else ret tt) ;;
   sleep)%worker.

(** The thread's function returns: [self.capturing = False], line 126. *)
Definition finish (w : world) : world :=
  {| self := set_capturing false (self w); threads := pred (threads w);
     delivered := delivered w; console := console w |}.

(** One turn of [while self.running: try: ... except Exception as e:
    print(...); break], and the statement after the loop once it is left. *)
Definition worker_step (cb : callback) (ev : serial_event) (w : world)
    : worker_status * world :=
  if running (self w) then
    match loop_body cb ev w with
    | (Ret _, w') => (Looping, w')
    | (Raise e, w') => (Finished, finish (print e w'))
    end
  else (Finished, finish w).

(** The thread's function, run against a sequence of port events: the
    turns of its loop for as long as events are left. *)
Fixpoint loop (cb : callback) (evs : list serial_event) (w : world)
    : worker_status * world :=
  match evs with
  | [] => (Looping, w)
  | ev :: evs' =>
      match worker_step cb ev w with
      | (Looping, w') => loop cb evs' w'
      | (Finished, w') => (Finished, w')
      end
  end.

(** [start_capture], lines 106-129. *)
Definition start_capture (cb : callback) (w : world) : bool * world :=
  if capturing (self w) || negb (is_connected (self w)) then (false, w)
  else
    (true,
     {| self := set_buffer []
                  (set_capturing true (set_running true (self w)));
        threads := S (threads w);
        delivered := delivered w; console := console w |}).

(** [stop_capture], lines 131-133. *)
Definition stop_capture (w : world) : world :=
  {| self := set_capturing false (set_running false (self w));
     threads := threads w; delivered := delivered w;
     console := console w |}.

End Radar2.

(** ** Opening and closing the ports *)

(** [radar.py], [connect] (lines 29-39) and [disconnect] (lines 41-49). *)
Module RadarPorts.

Definition set_cli (p : option serial_port) (r : Radar.TI1843Radar)
    : Radar.TI1843Radar :=
  {| Radar.cli := p; Radar.data := Radar.data r;
     Radar.running := Radar.running r; Radar.capturing := Radar.capturing r;
     Radar.buffer := Radar.buffer r;
     Radar.points_count := Radar.points_count r |}.

Definition set_data (p : option serial_port) (r : Radar.TI1843Radar)
    : Radar.TI1843Radar :=
  {| Radar.cli := Radar.cli r; Radar.data := p;
     Radar.running := Radar.running r; Radar.capturing := Radar.capturing r;
     Radar.buffer := Radar.buffer r;
     Radar.points_count := Radar.points_count r |}.

Definition on_self (f : Radar.TI1843Radar -> Radar.TI1843Radar)
    (w : Radar.world) : Radar.world :=
  {| Radar.self := f (Radar.self w); Radar.threads := Radar.threads w;
     Radar.delivered := Radar.delivered w; Radar.console := Radar.console w |}.

(** [serial.Serial(port, baudrate, timeout=1)]: the constructor opens the
    port and returns it, or raises; [opens] says which. *)
Definition Serial (opens : bool) : result serial_port :=
  if opens then Ret {| is_open := true |} else Raise SerialException.

(** [connect]: the two constructor calls in turn, inside one [try]; the
    handler prints the exception and returns False. What was assigned
    before the exception stays assigned. The port names the method also
    stores in [self.cli_port] and [self.data_port] are read by nothing and
    are not part of the object here. *)
Definition connect (cli_opens data_opens : bool) (w : Radar.world)
    : bool * Radar.world :=
  match Serial cli_opens with
  | Raise e => (false, Radar.print e w)
  | Ret c =>
      let w1 := on_self (set_cli (Some c)) w in
      match Serial data_opens with
      | Raise e => (false, Radar.print e w1)
      | Ret d => (true, on_self (set_data (Some d)) w1)
      end
  end.

(** [disconnect]: [stop_capture], then [close()] on each port that is
    there and open, then both fields set to None. The number returned is
    the number of [close()] calls made. *)
Definition disconnect (w : Radar.world) : nat * Radar.world :=
  let w1 := Radar.stop_capture w in
  let closed_cli := if port_open (Radar.cli (Radar.self w1)) then 1 else 0 in
  let closed_data := if port_open (Radar.data (Radar.self w1)) then 1 else 0 in
  (closed_cli + closed_data, on_self (fun r => set_data None (set_cli None r)) w1).

End RadarPorts.

(** [radar1.py], [connect] (lines 44-51) and [disconnect] (lines 53-58);
    [radar2.py] has the same text at lines 49-56 and 58-63. *)
Module Radar1Ports.

Definition set_cli (p : option serial_port) (r : Radar1.TI1843Radar)
    : Radar1.TI1843Radar :=
  {| Radar1.cli := p; Radar1.data := Radar1.data r;
     Radar1.running := Radar1.running r;
     Radar1.capturing := Radar1.capturing r;
     Radar1.buffer := Radar1.buffer r |}.

Definition set_data (p : option serial_port) (r : Radar1.TI1843Radar)
    : Radar1.TI1843Radar :=
  {| Radar1.cli := Radar1.cli r; Radar1.data := p;
     Radar1.running := Radar1.running r;
     Radar1.capturing := Radar1.capturing r;
     Radar1.buffer := Radar1.buffer r |}.

Definition on_self (f : Radar1.TI1843Radar -> Radar1.TI1843Radar)
    (w : Radar1.world) : Radar1.world :=
  {| Radar1.self := f (Radar1.self w); Radar1.threads := Radar1.threads w;
     Radar1.delivered := Radar1.delivered w;
     Radar1.console := Radar1.console w |}.

Definition connect (cli_opens data_opens : bool) (w : Radar1.world)
    : bool * Radar1.world :=
  match RadarPorts.Serial cli_opens with
  | Raise e => (false, Radar1.print e w)
  | Ret c =>
      let w1 := on_self (set_cli (Some c)) w in
      match RadarPorts.Serial data_opens with
      | Raise e => (false, Radar1.print e w1)
      | Ret d => (true, on_self (set_data (Some d)) w1)
      end
  end.

(** [for s in (self.cli, self.data): if s and s.is_open: s.close()], then
    [self.cli = self.data = None]: the rightmost target is not the first
    to be assigned, [cli] is. *)
Definition disconnect (w : Radar1.world) : nat * Radar1.world :=
  let w1 := Radar1.stop_capture w in
  let closed_cli := if port_open (Radar1.cli (Radar1.self w1)) then 1 else 0 in
  let closed_data := if port_open (Radar1.data (Radar1.self w1)) then 1 else 0 in
  (closed_cli + closed_data, on_self (fun r => set_data None (set_cli None r)) w1).

End Radar1Ports.

(** ** Text *)

(** A Python [str]: a sequence of code points. *)
Definition str := list N.

(** [c.isspace()] for a one-character string: the code points of the
    Unicode database with bidirectional type WS, B or S or category Zs. *)
Definition isspace (c : N) : bool :=
  ((9 <=? c) && (c <=? 13) || (28 <=? c) && (c <=? 32)
   || (c =? 0x85) || (c =? 0xA0) || (c =? 0x1680)
   || (0x2000 <=? c) && (c <=? 0x200A)
   || (c =? 0x2028) || (c =? 0x2029) || (c =? 0x202F) || (c =? 0x205F)
   || (c =? 0x3000))%N.

(** [s.lstrip()], [s.rstrip()], [s.strip()] *)
Fixpoint lstrip (s : str) : str :=
  match s with
  | [] => []
  | c :: s' => if isspace c then lstrip s' else s
  end.

Definition rstrip (s : str) : str := rev (lstrip (rev s)).

Definition strip (s : str) : str := rstrip (lstrip s).

(** A code point that UTF-8 encodes: below 0x110000 and no surrogate. *)
Definition is_scalar (c : N) : bool :=
  ((c <? 0xD800) || (0xDFFF <? c) && (c <? 0x110000))%N.

Definition byte_of_N (n : N) : byte :=
  match Byte.of_N n with
  | Some b => b
  | None => x00
  end.

(** The UTF-8 bytes of one code point. *)
Definition utf8_char (c : N) : bytes :=
  (if c <? 0x80 then [byte_of_N c]
   else if c <? 0x800 then
     [byte_of_N (0xC0 + c / 64); byte_of_N (0x80 + c mod 64)]
   else if c <? 0x10000 then
     [byte_of_N (0xE0 + c / 4096); byte_of_N (0x80 + (c / 64) mod 64);
      byte_of_N (0x80 + c mod 64)]
   else
     [byte_of_N (0xF0 + c / 262144); byte_of_N (0x80 + (c / 4096) mod 64);
      byte_of_N (0x80 + (c / 64) mod 64); byte_of_N (0x80 + c mod 64)])%N.

Definition utf8 (s : str) : bytes := concat (map utf8_char s).

(** [s.encode()]: UTF-8, [UnicodeEncodeError] (a [ValueError]) when the
    string holds a surrogate. *)
Definition encode (s : str) : result bytes :=
  if forallb is_scalar s then Ret (utf8 s) else Raise ValueError.

(** ** Sending the configuration *)

(** What the CLI port does with [write]: it takes the payload, or raises.
    [budget] is the number of writes it still takes ([None]: any number).
    The payloads taken are collected, oldest first. *)
Fixpoint write_lines (lines : list str) (budget : option nat)
    (sent : list bytes) : result unit * list bytes :=
  match lines with
  | [] => (Ret tt, sent)
  | line :: lines' =>
      match encode (line ++ [10%N]) with
      | Raise e => (Raise e, sent)
      | Ret payload =>
          match budget with
          | Some 0 => (Raise SerialException, sent)
          | Some (S k) => write_lines lines' (Some k) (sent ++ [payload])
          | None => write_lines lines' None (sent ++ [payload])
          end
      end
  end.

(** [[l.strip() for l in f if l.strip()]] *)
Definition config_lines (f : list str) : list str :=
  map strip (filter (fun l => match strip l with [] => false | _ => true end) f).

(** [radar.py], [send_config] (lines 55-68); [radar1.py] (lines 64-76) and
    [radar2.py] (lines 69-81) have the same text. [cfg] is what opening and
    reading the file gives: its lines, or an exception. The result is the
    value returned and the payloads written to the CLI port. *)
Module RadarConfig.

Definition send_config (cfg : result (list str)) (budget : option nat)
    (w : Radar.world) : (bool * list bytes) * Radar.world :=
  if negb (Radar.is_connected (Radar.self w)) then ((false, []), w)
  else
    match cfg with
    | Raise e => ((false, []), Radar.print e w)
    | Ret f =>
        match write_lines (config_lines f) budget [] with
        | (Ret _, sent) => ((true, sent), w)
        | (Raise e, sent) => ((false, sent), Radar.print e w)
        end
    end.

End RadarConfig.

(** A string literal, as code points. *)
Definition str_of (s : String.string) : str :=
  map Ascii.N_of_ascii (String.list_ascii_of_string s).

(** What [_send_config] prints for [line], line 27:
    [f"[CONFIG] Sent: {line[:40]}..."]. *)
Module Import ConfigText.
Import String.

Definition printed_line (line : str) : str :=
  str_of "[CONFIG] Sent: " ++ firstn 40 line ++ str_of "...".

End ConfigText.

(** [iwr1843.py], [_send_config] (lines 22-28): no connection test and no
    handler, an exception leaves the function (and [__init__]); each line
    is printed once it is written. The result is the outcome, the payloads
    written and the lines printed. *)
Module Iwr1843Config.

Fixpoint write_lines (lines : list str) (budget : option nat)
    (sent : list bytes) (printed : list str)
    : result unit * (list bytes * list str) :=
  match lines with
  | [] => (Ret tt, (sent, printed))
  | line :: lines' =>
      match encode (line ++ [10%N]) with
      | Raise e => (Raise e, (sent, printed))
      | Ret payload =>
          match budget with
          | Some 0 => (Raise SerialException, (sent, printed))
          | Some (S k) =>
              write_lines lines' (Some k) (sent ++ [payload])
                (printed ++ [printed_line line])
          | None =>
              write_lines lines' None (sent ++ [payload])
                (printed ++ [printed_line line])
          end
      end
  end.

Definition _send_config (cfg : result (list str)) (budget : option nat)
    : result unit * (list bytes * list str) :=
  match cfg with
  | Raise e => (Raise e, ([], []))
  | Ret f => write_lines (config_lines f) budget [] []
  end.

End Iwr1843Config.

(** [iwr1843.py], [start_capture] (lines 64-76): the thread's function
    keeps its buffer in a local variable, reads on every turn of the loop,
    and has no handler. *)
Module Iwr1843Capture.

Record TI1843Radar : Type := {
  cli : serial_port;
  data : serial_port;
  running : bool
}.

(** One capture thread and what surrounds it: the object, the thread's
    local [buffer], and the arrays the callback has been invoked with. *)
Record world : Type := {
  self : TI1843Radar;
  buffer : bytes;
  delivered : list ndarray
}.

Definition callback : Type := ndarray -> M TI1843Radar unit.

Definition set_buffer (bs : bytes) (w : world) : world :=
  {| self := self w; buffer := bs; delivered := delivered w |}.

(** [callback(points)] *)
Definition call (cb : callback) (points : ndarray) : M world unit :=
  fun w =>
    let (r, self') := cb points (self w) in
    (r, {| self := self'; buffer := buffer w;
           delivered := delivered w ++ [points] |}).

(** The body of [while self.running], lines 69-74. *)
Definition loop_body (cb : callback) (ev : serial_event) : M world unit :=
  (n <- in_waiting ev ;;
   bs <- read ev n ;;
   modify (fun w => set_buffer (buffer w ++ bs) w) ;;
   buf <- gets buffer ;;
   if contains MAGIC_WORD buf then
     points <- lift (Iwr1843._parse_pointcloud buf) ;;
     (if 0 <? len points then call cb points else ret tt) ;;
     modify (set_buffer [])
   else ret tt)%worker.

(** Where the thread stands after a turn: back at the loop test, returned
    from its function, or ended by an exception nothing caught. *)
Inductive thread_status : Type :=
| Alive
| Returned
| Uncaught (e : exn).

Definition worker_step (cb : callback) (ev : serial_event) (w : world)
    : thread_status * world :=
  if running (self w) then
    match loop_body cb ev w with
    | (Ret _, w') => (Alive, w')
    | (Raise e, w') => (Uncaught e, w')
    end
  else (Returned, w).

(** The [while] loop, run against a sequence of port events. *)
Fixpoint loop (cb : callback) (evs : list serial_event) (w : world)
    : thread_status * world :=
  match evs with
  | [] => (Alive, w)
  | ev :: evs' =>
      match worker_step cb ev w with
      | (Alive, w') => loop cb evs' w'
      | (st, w') => (st, w')
      end
  end.

(** [_capture_loop]: [buffer = b''], then the loop. *)
Definition _capture_loop (cb : callback) (evs : list serial_event)
    (w : world) : thread_status * world :=
  loop cb evs (set_buffer [] w).

End Iwr1843Capture.

(** ** Finding the radar's ports *)

(** [pat in s] for two strings: [pat] occurs in [s] as a substring. *)
Fixpoint str_starts_with (pat s : str) : bool :=
  match pat, s with
  | [], _ => true
  | _ :: _, [] => false
  | p :: pat', c :: s' => (p =? c)%N && str_starts_with pat' s'
  end.

Fixpoint str_in (pat s : str) : bool :=
  str_starts_with pat s
  || match s with
     | [] => false
     | _ :: s' => str_in pat s'
     end.

(** [a <= b] for two strings: code point by code point, a proper prefix
    before its extensions. *)
Fixpoint str_leb (a b : str) : bool :=
  match a, b with
  | [], _ => true
  | _ :: _, [] => false
  | x :: a', y :: b' =>
      if (x <? y)%N then true
      else if (y <? x)%N then false
      else str_leb a' b'
  end.

(** [sorted] on a list of strings. *)
Module StrOrder <: Orders.TotalLeBool.
Definition t := str.
Definition leb := str_leb.
Theorem leb_total : forall a b, leb a b = true \/ leb b a = true.
Proof.
  unfold leb. induction a as [|x a IH]; intros [|y b]; cbn; auto.
  destruct (N.ltb_spec x y), (N.ltb_spec y x); auto; lia.
Qed.
End StrOrder.

Module StrSort := Mergesort.Sort StrOrder.

Definition sorted (l : list str) : list str := StrSort.sort l.

Module Import PortKeywords.
Import String.

Definition CLI_KEYWORDS : list str :=
  map str_of ["enhanced"; "application"; "uart (enhanced)"]%string.

Definition DATA_KEYWORDS : list str :=
  map str_of ["standard"; "auxiliary"; "uart (standard)"]%string.

End PortKeywords.

(** What [serial.tools.list_ports.comports()] reports for one port. *)
Record ListPortInfo := {
  device : str;
  description : str;
  hwid : str
}.

(** The truth value of a name that holds [None] or a string. *)
Definition truthy (x : option str) : bool :=
  match x with
  | Some (_ :: _) => true
  | _ => false
  end.

(** [x or y] where [y] is a string. *)
Definition py_or (x : option str) (y : str) : option str :=
  if truthy x then x else Some y.

(** [any(k in desc for k in keywords)] *)
Definition any_in (keywords : list str) (desc : str) : bool :=
  existsb (fun k => str_in k desc) keywords.

Section PortSearch.

(** [str.lower], the library's case mapping. *)
Variable lower : str -> str.

(** [f"{p.description} {p.hwid}".lower()] *)
Definition desc (p : ListPortInfo) : str :=
  lower (description p ++ [32%N] ++ hwid p).

(** The [for p in ports] loop, on the pair [(cli_port, data_port)]. *)
Fixpoint scan (ports : list ListPortInfo)
    (cli_port data_port : option str) : option str * option str :=
  match ports with
  | [] => (cli_port, data_port)
  | p :: ports' =>
      let cli_port :=
        if negb (truthy cli_port) && any_in CLI_KEYWORDS (desc p)
        then Some (device p) else cli_port in
      let data_port :=
        if negb (truthy data_port) && any_in DATA_KEYWORDS (desc p)
        then Some (device p) else data_port in
      scan ports' cli_port data_port
  end.

(** [search_radar_ports] of [radar1.py] and [radar2.py], on the list that
    [comports()] returned. *)
Definition search_radar_ports (ports : list ListPortInfo)
    : option str * option str :=
  let '(cli_port, data_port) := scan ports None None in
  if negb (truthy cli_port) || negb (truthy data_port) then
    let sorted_p := sorted (map device ports) in
    match sorted_p with
    | s0 :: s1 :: _ => (py_or cli_port s1, py_or data_port s0)
    | [s0] => (py_or cli_port s0, data_port)
    | [] => (cli_port, data_port)
    end
  else (cli_port, data_port).

(** [auto_connect] goes on to [connect_radar] only when both names are
    true. *)
Definition auto_connect_proceeds (ports : list ListPortInfo) : bool :=
  let '(cli, data) := search_radar_ports ports in
  negb (negb (truthy cli) || negb (truthy data)).

End PortSearch.

(** ** The simulated temperature *)

(** [RadarController.update_temperature] of [radar.py] (lines 148-167),
    [radar1.py] (141-156) and [radar2.py] (146-161): the thread's loop on
    [self.temperature], a binary64 number; the two integer bounds compare
    and add as the floats of the same value. *)
Module Temperature.
Import PrimFloat.
Local Open Scope float_scope.

(** [min(a, b)]: [a] unless [b < a]. *)
Definition py_min (a b : float) : float := if b <? a then b else a.

(** [max(a, b)]: [a] unless [b > a]. *)
Definition py_max (a b : float) : float := if a <? b then b else a.

(** The literals [0.1] and [0.05], as the floats they denote. *)
Definition tenth : float := 0x1.999999999999ap-4.
Definition twentieth : float := 0x1.999999999999ap-5.

(** [__init__]: [self.temperature = 25.0] *)
Definition initial : float := 25.

(** One turn of the loop: the new [self.temperature], which is the value
    passed to the callback. *)
Definition turn (capturing : bool) (temperature : float) : float :=
  let temperature :=
    if capturing then temperature + tenth else temperature - twentieth in
  py_max 20 (py_min 80 temperature).

(** The loop over the values [self.radar.capturing] has at its turns: the
    temperatures passed to the callback, in order, and the last
    [self.temperature]. *)
Fixpoint loop (flags : list bool) (temperature : float)
    : list float * float :=
  match flags with
  | [] => ([], temperature)
  | capturing :: flags' =>
      let t := turn capturing temperature in
      let (reported, final) := loop flags' t in
      (t :: reported, final)
  end.

(** [20 <= t <= 80] *)
Definition in_range (t : float) : bool := (20 <=? t) && (t <=? 80).

End Temperature.

(** ** The wire layout, as the decoders address it *)

(** With the sync word at [idx], the decoders read the TLV type and length
    from [buffer[idx+40:idx+48]]. *)
Definition tlv_type_at (buf : bytes) (idx : nat) : Z :=
  word_at (slice buf (idx + 40) (idx + 48)) 0.

Definition tlv_length_at (buf : bytes) (idx : nat) : Z :=
  word_at (slice buf (idx + 40) (idx + 48)) 4.

(** Record [i] is read from the 16 bytes at [data_start + 16 * i]. *)
Definition record_at (buf : bytes) (data_start i : nat) : point :=
  let d := slice buf (data_start + i * 16) (data_start + i * 16 + 16) in
  {| px := word_at d 0; py := word_at d 4; pz := word_at d 8;
     pvel := word_at d 12 |}.

(** The first [n] records of the frame, in wire order. *)
Definition wire_records (buf : bytes) (data_start n : nat) : list point :=
  map (record_at buf data_start) (seq 0 n).

(** How many whole 16-byte records the buffer holds from [data_start] on. *)
Definition records_held (buf : bytes) (data_start : nat) : nat :=
  (length buf - data_start) / 16.

(** The test the decoders apply to a record before appending it. *)
Definition valid (p : point) : bool := triple_ne_zero (px p) (py p) (pz p).

(** The number of records whose (x, y, z) compares equal to (0, 0, 0). *)
Definition zero_count (ps : list point) : nat :=
  length (filter (fun p => negb (valid p)) ps).

(** ** Frames used as concrete inputs *)

(** [struct.pack('<I', w)] *)
Definition pack_I (w : Z) : bytes :=
  map (fun k =>
         match Byte.of_N (Z.to_N (Z.land (Z.shiftr w (8 * Z.of_nat k)) 255)) with
         | Some b => b
         | None => x00
         end)
      [0; 1; 2; 3].

(** A point record on the wire: four binary32 patterns. *)
Definition pack_4f (x y z vel : f32) : bytes :=
  pack_I x ++ pack_I y ++ pack_I z ++ pack_I vel.

(** Sync word, the eight header words (version 3.5, platform xWR1843,
    frame 7, one TLV), then the TLV header and the payload. *)
Definition frame (tlv_type tlv_length : Z) (payload : bytes) : bytes :=
  MAGIC_WORD
  ++ pack_I 50659332 ++ pack_I (48 + tlv_length) ++ pack_I 661571
  ++ pack_I 7 ++ pack_I 123456 ++ pack_I (tlv_length / 16) ++ pack_I 1
  ++ pack_I 0
  ++ pack_I tlv_type ++ pack_I tlv_length ++ payload.

(** Binary32 patterns of a few values. *)
Definition f32_one : f32 := 0x3F800000%Z.
Definition f32_two : f32 := 0x40000000%Z.
Definition f32_half : f32 := 0x3F000000%Z.
Definition f32_neg_zero : f32 := 0x80000000%Z.

(** Three records, the second one all zero. *)
Definition three_record_frame : bytes :=
  frame 1 48 (pack_4f f32_one 0 0 f32_half
              ++ pack_4f 0 0 0 0
              ++ pack_4f 0 f32_two 0 f32_half).

(** One record whose x is -0.0. *)
Definition neg_zero_frame : bytes :=
  frame 1 16 (pack_4f f32_neg_zero 0 0 f32_one).

(** A TLV length of 16100, that is 1006 records, and one record of payload. *)
Definition oversized_frame : bytes :=
  frame 1 16100 (pack_4f f32_one 0 0 f32_half).

(** Two records announced; the second one stops after 8 bytes. *)
Definition truncated_frame : bytes :=
  frame 1 32 (pack_4f f32_one 0 0 f32_half ++ pack_I 0 ++ pack_I f32_two).

(** One valid record under TLV type 2. *)
Definition type2_frame : bytes :=
  frame 2 16 (pack_4f f32_one 0 0 f32_half).

(** A TLV length of 40: two records and 8 bytes that fill no record. *)
Definition odd_length_frame : bytes :=
  frame 1 40 (pack_4f f32_one 0 0 f32_half
              ++ pack_4f 0 f32_two 0 f32_half
              ++ pack_I f32_one ++ pack_I f32_one).

(** The sync word and the first 10 bytes of a header. *)
Definition partial_header : bytes := firstn 18 three_record_frame.

(** ** Sessions used as concrete inputs *)

Definition open_port : serial_port := {| is_open := true |}.

(** A consumer that returns at once and leaves the object alone. *)
Definition quiet_callback {R : Type} : ndarray -> M R unit :=
  fun _ r => (Ret tt, r).

(** [radar.py]: the object after a successful [connect], nothing started. *)
Definition radar_connected : Radar.world :=
  {| Radar.self :=
       {| Radar.cli := Some open_port; Radar.data := Some open_port;
          Radar.running := false; Radar.capturing := false;
          Radar.buffer := []; Radar.points_count := 0 |};
     Radar.threads := 0; Radar.delivered := []; Radar.console := [] |}.

(** The same object after [start_capture] has accepted a consumer. *)
Definition radar_capturing : Radar.world :=
  snd (Radar.start_capture quiet_callback radar_connected).

(** [radar.py]: a fresh object, never connected. *)
Definition radar_fresh : Radar.world :=
  {| Radar.self := Radar.__init__;
     Radar.threads := 0; Radar.delivered := []; Radar.console := [] |}.

(** [radar1.py] and [radar2.py]: the same two situations. *)
Definition radar1_connected : Radar1.world :=
  {| Radar1.self :=
       {| Radar1.cli := Some open_port; Radar1.data := Some open_port;
          Radar1.running := false; Radar1.capturing := false;
          Radar1.buffer := [] |};
     Radar1.threads := 0; Radar1.delivered := []; Radar1.console := [] |}.

Definition radar1_capturing : Radar1.world :=
  snd (Radar1.start_capture quiet_callback radar1_connected).

Definition radar2_connected : Radar2.world :=
  {| Radar2.self :=
       {| Radar2.cli := Some open_port; Radar2.data := Some open_port;
          Radar2.running := false; Radar2.capturing := false;
          Radar2.buffer := [] |};
     Radar2.threads := 0; Radar2.delivered := []; Radar2.console := [] |}.

(** ** Vocabulary of the statements *)

(** The function [parse], whose [try] block is [body], returns an array on
    [buffer], and that array is the empty 0-by-4 one whenever the block
    raised. *)
Definition absorbs_failures (body parse : bytes -> result ndarray)
    (buffer : bytes) : Prop :=
  (exists a, parse buffer = Ret a) /\
  (forall e, body buffer = Raise e -> parse buffer = Ret np_empty_0_4).

(** The consumer returns without raising, whatever it is given. *)
Definition returns_normally {R : Type} (cb : ndarray -> M R unit) : Prop :=
  forall pts r, fst (cb pts r) = Ret tt.



(** Two calls both returned, with the same list of points. *)
Definition same_points (r1 r2 : result ndarray) : Prop :=
  exists a1 a2, r1 = Ret a1 /\ r2 = Ret a2 /\ rows a1 = rows a2.

(** Validity as the specification words it: the three patterns compared
    bit for bit with the pattern of 0.0. *)
Definition spec_valid_bitwise (p : point) : bool :=
  negb ((px p =? 0)%Z && (py p =? 0)%Z && (pz p =? 0)%Z).

(** The buffer holds a whole frame: sync word at [idx], both headers, and
    every record the TLV length announces unless the count is over the cap. *)
Definition whole_frame (buf : bytes) (idx : nat) : Prop :=
  find_first MAGIC_WORD buf = Some idx /\
  idx + 48 <= length buf /\
  ((tlv_length_at buf idx / 16 <= 1000)%Z ->
   idx + 48 + 16 * Z.to_nat (tlv_length_at buf idx / 16) <= length buf).

(** ** The wire format, written out *)

(** A value that fits an unsigned 32-bit field. *)
Definition is_u32 (w : Z) : Prop := (0 <= w < 2 ^ 32)%Z.

(** A record whose four fields are binary32 patterns. *)
Definition point_on_wire (p : point) : Prop :=
  is_u32 (px p) /\ is_u32 (py p) /\ is_u32 (pz p) /\ is_u32 (pvel p).

(** [struct.pack('<4f', x, y, z, vel)] of a record. *)
Definition pack_point (p : point) : bytes :=
  pack_4f (px p) (py p) (pz p) (pvel p).

(** A frame as the sensor sends it: sync word, the 32 bytes of the eight
    header words, the TLV header, the payload. *)
Definition wire_frame (header : bytes) (tlv_type tlv_length : Z)
    (payload : bytes) : bytes :=
  MAGIC_WORD ++ header ++ pack_I tlv_type ++ pack_I tlv_length ++ payload.

(** What every caller can rely on in a returned array [a] for a buffer of
    [size] bytes: at most 1000 rows, each of them with a non-zero
    coordinate, and never more rows than whole records fit after the 48
    bytes of sync word and headers. *)
Definition bounded_result (size : nat) (a : ndarray) : Prop :=
  len a <= 1000 /\
  Forall (fun p => valid p = true) (rows a) /\
  (0 < len a -> 48 + 16 * len a <= size).

(** A line with something on it and no white space at either end. *)
Definition trimmed (l : str) : Prop :=
  l <> [] /\ isspace (hd 0%N l) = false /\ isspace (last l 0%N) = false.

(** The payload written for a line: its UTF-8 bytes and a line feed. *)
Definition line_payload (l : str) : bytes := utf8 l ++ [x0a].

(** The first listed port whose description holds one of [keywords]. *)
Definition first_match (lower : str -> str) (keywords : list str)
    (ports : list ListPortInfo) : option ListPortInfo :=
  find (fun p => any_in keywords (desc lower p)) ports.

(** No listed port's description holds one of [keywords]. *)
Definition unmatched (lower : str -> str) (keywords : list str)
    (ports : list ListPortInfo) : Prop :=
  Forall (fun p => any_in keywords (desc lower p) = false) ports.

(** Every listed port has a device name. *)
Definition all_named (ports : list ListPortInfo) : Prop :=
  Forall (fun p => device p <> []) ports.

(** A name the search returns is [None] or one of the listed devices. *)
Definition listed (ports : list ListPortInfo) (x : option str) : Prop :=
  match x with
  | None => True
  | Some d => In d (map device ports)
  end.

(** What the scan leaves in a name that held [x]. *)
Definition scanned (x : option str) (found : option ListPortInfo)
    : option str :=
  if truthy x then x
  else match found with
       | Some p => Some (device p)
       | None => x
       end.

(** [str.lower] on ASCII text. *)
Definition ascii_lower (s : str) : str :=
  map (fun c => if ((65 <=? c) && (c <=? 90))%N then (c + 32)%N else c) s.

Module Import PortExamples.
Import String.

Definition port (dev descr id : string) : ListPortInfo :=
  {| device := str_of dev; description := str_of descr; hwid := str_of id |}.

Definition COM3 : str := str_of "COM3".
Definition COM4 : str := str_of "COM4".

Definition enhanced_com3 : ListPortInfo :=
  port "COM3" "Enhanced COM Port (COM3)" "USB VID:PID=10C4:EA70".

Definition standard_com4 : ListPortInfo :=
  port "COM4" "Standard COM Port (COM4)" "USB VID:PID=10C4:EA70".


Definition serial_com5 : ListPortInfo :=
  port "COM5" "USB Serial Device (COM5)" "USB VID:PID=0451:BEF3".

Definition serial_com7 : ListPortInfo :=
  port "COM7" "USB Serial Device (COM7)" "USB VID:PID=0451:BEF3".

(** A bridge whose two ports are told apart by their descriptions. *)
Definition bridge_ports : list ListPortInfo :=
  [standard_com4; enhanced_com3].

(** Two ports whose descriptions hold no keyword. *)
Definition plain_ports : list ListPortInfo := [serial_com7; serial_com5].


End PortExamples.

(** The consumer returns and leaves the object as it found it. *)
Definition pure_consumer {R : Type} (cb : ndarray -> M R unit) : Prop :=
  forall pts r, cb pts r = (Ret tt, r).

(** [iwr1843.py]: the object as [__init__] leaves it, and a thread that
    has delivered nothing. *)
Definition iwr1843_started : Iwr1843Capture.world :=
  {| Iwr1843Capture.self :=
       {| Iwr1843Capture.cli := open_port; Iwr1843Capture.data := open_port;
          Iwr1843Capture.running := true |};
     Iwr1843Capture.buffer := [];
     Iwr1843Capture.delivered := [] |}.

(** The printed line [p] and the payload [s] come from one and the same
    configuration line. *)
Definition echoes (p : str) (s : bytes) : Prop :=
  exists line, p = printed_line line /\ encode (line ++ [10%N]) = Ret s.

(** A consumer that raises, whatever it is given. *)
Definition raising_callback {R : Type} : ndarray -> M R unit :=
  fun _ r => (Raise CallbackError, r).

(** * Properties *)

(** ** Slices and the sync-word search *)

Lemma slice_length (buf : bytes) (a b : nat) :
  length (slice buf a b) = Nat.min (b - a) (length buf - a).
Proof. unfold slice. now rewrite length_firstn, length_skipn. Qed.

(** A slice that ends inside the first [k] bytes does not see what follows
    them. *)
Lemma slice_prefix (buf rest : bytes) (k a b : nat) :
  b <= k -> k <= length buf ->
  slice (firstn k buf ++ rest) a b = slice buf a b.
Proof.
  intros Hb Hk. unfold slice.
  destruct (Nat.le_gt_cases b a) as [Hba | Hab].
  - replace (b - a) with 0 by lia. reflexivity.
  - rewrite skipn_app, firstn_app, length_skipn, length_firstn.
    replace (b - a - (Nat.min k (length buf) - a)) with 0 by lia.
    rewrite firstn_O, app_nil_r, skipn_firstn_comm, firstn_firstn.
    now replace (Nat.min (b - a) (k - a)) with (b - a) by lia.
Qed.

Lemma starts_with_length (pat buf : bytes) :
  starts_with pat buf = true -> length pat <= length buf.
Proof.
  revert buf. induction pat as [| p pat IH]; intros [| b buf]; simpl;
    try lia; try discriminate.
  intros H. apply andb_true_iff in H as [_ H]. apply IH in H. lia.
Qed.

Lemma starts_with_prefix (pat buf rest : bytes) (k : nat) :
  length pat <= k -> length pat <= length buf ->
  starts_with pat (firstn k buf ++ rest) = starts_with pat buf.
Proof.
  revert buf k. induction pat as [| p pat IH]; intros buf k Hk Hl.
  - reflexivity.
  - destruct buf as [| b buf]; simpl in *; [lia |].
    destruct k as [| k]; [lia |]. simpl.
    f_equal. apply IH; lia.
Qed.

Lemma find_first_bound (pat buf : bytes) (i : nat) :
  find_first pat buf = Some i -> i + length pat <= length buf.
Proof.
  revert i. induction buf as [| b buf IH]; intros i.
  - simpl. destruct (starts_with pat []) eqn:E; [| discriminate].
    intros [= <-]. apply starts_with_length in E. simpl in *. lia.
  - simpl. destruct (starts_with pat (b :: buf)) eqn:E.
    + intros [= <-]. apply starts_with_length in E. simpl in *. lia.
    + destruct (find_first pat buf) as [j |]; [| discriminate].
      intros [= <-]. specialize (IH j eq_refl). simpl. lia.
Qed.

(** The first occurrence is decided by the bytes up to its own end. *)
Lemma find_first_prefix (pat buf rest : bytes) (i k : nat) :
  find_first pat buf = Some i -> i + length pat <= k ->
  find_first pat (firstn k buf ++ rest) = Some i.
Proof.
  revert i k. induction buf as [| b buf IH]; intros i k Hf Hk.
  - pose proof (find_first_bound _ _ Hf) as Hb. simpl in Hb.
    assert (length pat = 0) as Hp by lia.
    destruct pat; [| discriminate]. assert (i = 0) by lia. subst i.
    rewrite firstn_nil. simpl. now destruct rest.
  - pose proof (find_first_bound _ _ Hf) as Hb.
    simpl in Hf. destruct (starts_with pat (b :: buf)) eqn:E.
    + injection Hf as <-. 
      assert (starts_with pat (firstn k (b :: buf) ++ rest) = true) as E'.
      { rewrite starts_with_prefix; [exact E | lia |].
        now apply starts_with_length. }
      destruct (firstn k (b :: buf) ++ rest); simpl; now rewrite E'.
    + destruct (find_first pat buf) as [j |] eqn:Ej; [| discriminate].
      injection Hf as <-. simpl in Hb, Hk.
      destruct k as [| k]; [lia |].
      assert (starts_with pat (firstn (S k) (b :: buf) ++ rest) = false) as E'.
      { rewrite starts_with_prefix; [exact E | lia | simpl; lia]. }
      simpl in *. rewrite E'. rewrite (IH j k eq_refl); [reflexivity | lia].
Qed.

Lemma contains_find_first (pat buf : bytes) :
  contains pat buf = match find_first pat buf with Some _ => true | None => false end.
Proof.
  induction buf as [| b buf IH]; simpl.
  - destruct (starts_with pat []); reflexivity.
  - destruct (starts_with pat (b :: buf)); simpl; [reflexivity |].
    rewrite IH. now destruct (find_first pat buf).
Qed.

(** ** The point loops in closed form *)

Lemma py_range_records (n : nat) :
  py_range 0 (n * 16) 16 = map (fun k => 0 + k * 16) (seq 0 n).
Proof.
  unfold py_range. do 2 f_equal.
  symmetry. apply (Nat.div_unique _ 16 n 15); lia.
Qed.

Lemma py_range_indices (n : nat) :
  py_range 0 n 1 = map (fun k => 0 + k * 1) (seq 0 n).
Proof.
  unfold py_range. do 2 f_equal. rewrite Nat.div_1_r. lia.
Qed.

Lemma records_held_spec (buf : bytes) (ds k : nat) :
  S k <= records_held buf ds <-> ds + 16 * S k <= length buf.
Proof.
  unfold records_held.
  pose proof (Nat.div_mod_eq (length buf - ds) 16).
  pose proof (Nat.mod_upper_bound (length buf - ds) 16).
  lia.
Qed.

Lemma unpack_4f_record (buf : bytes) (ds i : nat) :
  ds + i * 16 + 16 <= length buf ->
  unpack_4f (slice buf (ds + i * 16) (ds + i * 16 + 16))
  = Ret (px (record_at buf ds i), py (record_at buf ds i),
         pz (record_at buf ds i), pvel (record_at buf ds i)).
Proof.
  intros H. unfold unpack_4f. rewrite slice_length.
  replace (Nat.min _ _) with 16 by lia. reflexivity.
Qed.

Lemma unpack_4f_short (buf : bytes) (a : nat) :
  length buf < a + 16 ->
  unpack_4f (slice buf a (a + 16)) = Raise StructError.
Proof.
  intros H. unfold unpack_4f. rewrite slice_length.
  destruct (Nat.eqb_spec (Nat.min (a + 16 - a) (length buf - a)) 16);
    [lia | reflexivity].
Qed.

(** [radar.py]: starting at record [s], the loop appends the valid ones
    among the records held and stops at the first one that is cut short. *)
Lemma radar_read_points_from (buf : bytes) (ds n s : nat) (acc : list point) :
  Radar.read_points buf ds (map (fun k => 0 + k * 16) (seq s n)) acc
  = Ret (acc ++ filter valid
           (map (record_at buf ds)
              (seq s (Nat.min n (records_held buf ds - s))))).
Proof.
  revert s acc. induction n as [| n IH]; intros s acc.
  - simpl. now rewrite app_nil_r.
  - cbn [seq map Radar.read_points]. rewrite slice_length.
    destruct (Nat.ltb_spec
                (Nat.min (ds + (0 + s * 16) + 16 - (ds + (0 + s * 16)))
                   (length buf - (ds + (0 + s * 16)))) 16) as [Hs | Hs].
    + assert (records_held buf ds <= s) as Hh.
      { apply Nat.nlt_ge. intros C.
        apply (proj1 (records_held_spec buf ds s)) in C. lia. }
      replace (records_held buf ds - s) with 0 by lia.
      rewrite Nat.min_0_r. simpl. now rewrite app_nil_r.
    + assert (S s <= records_held buf ds) as Hh
        by (apply records_held_spec; lia).
      replace (Nat.min (S n) (records_held buf ds - s))
        with (S (Nat.min n (records_held buf ds - S s))) by lia.
      change (0 + s * 16) with (s * 16).
      rewrite unpack_4f_record by lia. cbn [rbind].
      rewrite IH. cbn [seq map filter]. unfold valid at 2.
      destruct (triple_ne_zero _ _ _).
      * rewrite <- app_assoc. now destruct (record_at buf ds s).
      * reflexivity.
Qed.

Lemma radar_read_points (buf : bytes) (ds n : nat) :
  Radar.read_points buf ds (py_range 0 (n * 16) 16) []
  = Ret (filter valid
           (wire_records buf ds (Nat.min n (records_held buf ds)))).
Proof.
  rewrite py_range_records, radar_read_points_from.
  now rewrite Nat.sub_0_r.
Qed.

(** [radar1.py]: the loop appends the valid records when all [n] of them
    are held, and raises as soon as it reaches one that is cut short. *)
Lemma radar1_read_points_from (buf : bytes) (off n s : nat) (acc : list point) :
  off + 16 * (s + n) <= length buf ->
  Radar1.read_points buf off (map (fun k => 0 + k * 1) (seq s n)) acc
  = Ret (acc ++ filter valid (map (record_at buf off) (seq s n))).
Proof.
  revert s acc. induction n as [| n IH]; intros s acc Hlen.
  - simpl. now rewrite app_nil_r.
  - cbn [seq map Radar1.read_points].
    replace (0 + s * 1) with s by lia.
    rewrite unpack_4f_record by lia. cbn [rbind].
    rewrite IH by lia. cbn [filter]. unfold valid at 2.
    destruct (triple_ne_zero _ _ _).
    + rewrite <- app_assoc. now destruct (record_at buf off s).
    + reflexivity.
Qed.

Lemma radar1_read_points_short (buf : bytes) (off n s : nat) (acc : list point) :
  0 < n -> length buf < off + 16 * (s + n) ->
  Radar1.read_points buf off (map (fun k => 0 + k * 1) (seq s n)) acc
  = Raise StructError.
Proof.
  revert s acc. induction n as [| n IH]; intros s acc Hn Hlen; [lia |].
  cbn [seq map Radar1.read_points].
  replace (0 + s * 1) with s by lia.
  destruct (Nat.le_gt_cases (off + s * 16 + 16) (length buf)) as [Hs | Hs].
  - rewrite unpack_4f_record by lia. cbn [rbind].
    apply IH; lia.
  - rewrite unpack_4f_short by lia. reflexivity.
Qed.

(** ** The decoders in closed form *)

Lemma unpack_7I_header (buf : bytes) (idx : nat) :
  idx + 36 <= length buf ->
  exists h, unpack_7I (slice (slice buf idx (idx + 40)) 8 36) = Ret h.
Proof.
  intros H. unfold unpack_7I. rewrite !slice_length.
  replace (Nat.min (36 - 8) _) with 28 by lia. simpl. eauto.
Qed.

Lemma unpack_7I_short (buf : bytes) (idx : nat) :
  length buf < idx + 36 ->
  unpack_7I (slice (slice buf idx (idx + 40)) 8 36) = Raise StructError.
Proof.
  intros H. unfold unpack_7I. rewrite !slice_length.
  destruct (Nat.eqb_spec
              (Nat.min (36 - 8)
                 (Nat.min (idx + 40 - idx) (length buf - idx) - 8)) 28);
    [lia | reflexivity].
Qed.

Lemma unpack_2I_tlv (buf : bytes) (idx : nat) :
  idx + 48 <= length buf ->
  unpack_2I (slice buf (idx + 40) (idx + 48))
  = Ret (tlv_type_at buf idx, tlv_length_at buf idx).
Proof.
  intros H. unfold unpack_2I. rewrite slice_length.
  replace (Nat.min _ _) with 8 by lia. reflexivity.
Qed.

Lemma unpack_2I_short (buf : bytes) (idx : nat) :
  length buf < idx + 48 ->
  unpack_2I (slice buf (idx + 40) (idx + 48)) = Raise StructError.
Proof.
  intros H. unfold unpack_2I. rewrite slice_length.
  destruct (Nat.eqb_spec
              (Nat.min (idx + 48 - (idx + 40)) (length buf - (idx + 40))) 8);
    [lia | reflexivity].
Qed.

Lemma radar_parse_body_nosync (buf : bytes) :
  find_first MAGIC_WORD buf = None -> Radar.parse_body buf = Raise ValueError.
Proof. intros H. unfold Radar.parse_body, index. now rewrite H. Qed.

Lemma radar1_parse_body_nosync (buf : bytes) :
  find_first MAGIC_WORD buf = None -> Radar1.parse_body buf = Raise ValueError.
Proof. intros H. unfold Radar1.parse_body, index. now rewrite H. Qed.

Section Synced.

  (** A buffer with its first sync word at [idx]. *)
  Variable buf : bytes.
  Variable idx : nat.
  Hypothesis Hsync : find_first MAGIC_WORD buf = Some idx.

Lemma index_found : index buf MAGIC_WORD = Ret idx.
Proof. unfold index. now rewrite Hsync. Qed.

Ltac enter_body :=
  rewrite index_found; cbn [rbind].

Lemma radar_parse_body_short :
  length buf < idx + 48 -> Radar.parse_body buf = Raise StructError.
Proof.
  intros Hlen. unfold Radar.parse_body. enter_body.
  destruct (Nat.le_gt_cases (idx + 36) (length buf)) as [H36 | H36].
  - destruct (unpack_7I_header buf idx H36) as [h ->]. cbn [rbind].
    now rewrite unpack_2I_short.
  - now rewrite unpack_7I_short.
Qed.

Lemma radar_parse_body_found :
  idx + 48 <= length buf ->
  Radar.parse_body buf
  = if (tlv_length_at buf idx / 16 >? 1000)%Z then Ret np_empty_0_4
    else Ret (np_array
                (filter valid
                   (wire_records buf (idx + 48)
                      (Nat.min (Z.to_nat (tlv_length_at buf idx / 16))
                         (records_held buf (idx + 48)))))).
Proof.
  intros Hlen. unfold Radar.parse_body. enter_body.
  destruct (unpack_7I_header buf idx) as [h ->]; [lia |]. cbn [rbind].
  rewrite unpack_2I_tlv by exact Hlen. cbn [rbind].
  destruct (tlv_length_at buf idx / 16 >? 1000)%Z; [reflexivity |].
  now rewrite radar_read_points.
Qed.

Lemma radar1_parse_body_short :
  length buf < idx + 48 -> Radar1.parse_body buf = Raise StructError.
Proof.
  intros Hlen. unfold Radar1.parse_body. enter_body.
  destruct (Nat.le_gt_cases (idx + 36) (length buf)) as [H36 | H36].
  - destruct (unpack_7I_header buf idx H36) as [h ->]. cbn [rbind].
    now rewrite unpack_2I_short.
  - now rewrite unpack_7I_short.
Qed.

Lemma radar1_parse_body_found :
  idx + 48 <= length buf ->
  Radar1.parse_body buf
  = if negb (tlv_type_at buf idx =? 1)%Z then Ret np_empty_0_4
    else if (tlv_length_at buf idx / 16 >? 1000)%Z then Ret np_empty_0_4
    else if Z.to_nat (tlv_length_at buf idx / 16)
              <=? records_held buf (idx + 48)
    then Ret (np_array
                (filter valid
                   (wire_records buf (idx + 48)
                      (Z.to_nat (tlv_length_at buf idx / 16)))))
    else Raise StructError.
Proof.
  intros Hlen. unfold Radar1.parse_body. enter_body.
  destruct (unpack_7I_header buf idx) as [h ->]; [lia |]. cbn [rbind].
  rewrite unpack_2I_tlv by exact Hlen. cbn [rbind].
  destruct (negb (tlv_type_at buf idx =? 1)%Z); [reflexivity |].
  destruct (tlv_length_at buf idx / 16 >? 1000)%Z; [reflexivity |].
  rewrite py_range_indices.
  set (n := Z.to_nat (tlv_length_at buf idx / 16)).
  destruct (Nat.leb_spec n (records_held buf (idx + 48))) as [Hn | Hn].
  - rewrite radar1_read_points_from; [reflexivity |].
    destruct n as [| n]; [lia |].
    apply (proj1 (records_held_spec buf (idx + 48) n)) in Hn. lia.
  - rewrite radar1_read_points_short; [reflexivity | lia |].
    destruct n as [| n]; [lia |].
    apply Nat.nle_gt. intros C.
    apply (proj2 (records_held_spec buf (idx + 48) n)) in C; lia.
Qed.

End Synced.

(** ** The copies with the same text *)

Lemma iwr1843_read_points_eq (buf : bytes) (ds : nat) (offsets : list nat)
    (acc : list point) :
  Iwr1843.read_points buf ds offsets acc = Radar.read_points buf ds offsets acc.
Proof.
  revert acc. induction offsets as [| o offsets IH]; intros acc;
    cbn [Iwr1843.read_points Radar.read_points].
  - reflexivity.
  - destruct (length _ <? 16); [reflexivity |].
    destruct (unpack_4f _) as [[[[x y] z] vel] | e]; cbn [rbind];
      [apply IH | reflexivity].
Qed.

Lemma iwr1843_parse_body_eq (buf : bytes) :
  Iwr1843.parse_body buf = Radar.parse_body buf.
Proof.
  unfold Iwr1843.parse_body, Radar.parse_body.
  destruct (index buf MAGIC_WORD) as [idx | e]; [| reflexivity]. cbn [rbind].
  destruct (unpack_7I _) as [h | e]; [| reflexivity]. cbn [rbind].
  destruct (unpack_2I _) as [[ty ln] | e]; [| reflexivity]. cbn [rbind].
  destruct (_ >? _)%Z; [reflexivity |].
  now rewrite iwr1843_read_points_eq.
Qed.

Lemma iwr1843_parse_eq (buf : bytes) :
  Iwr1843._parse_pointcloud buf = Radar._parse_pointcloud buf.
Proof.
  unfold Iwr1843._parse_pointcloud, Radar._parse_pointcloud.
  now rewrite iwr1843_parse_body_eq.
Qed.

Lemma radar2_read_points_eq (buf : bytes) (off : nat) (indices : list nat)
    (acc : list point) :
  Radar2.read_points buf off indices acc = Radar1.read_points buf off indices acc.
Proof.
  revert acc. induction indices as [| i indices IH]; intros acc;
    cbn [Radar2.read_points Radar1.read_points].
  - reflexivity.
  - destruct (unpack_4f _) as [[[[x y] z] vel] | e]; cbn [rbind];
      [apply IH | reflexivity].
Qed.

Lemma radar2_parse_body_eq (buf : bytes) :
  Radar2.parse_body buf = Radar1.parse_body buf.
Proof.
  unfold Radar2.parse_body, Radar1.parse_body.
  destruct (index buf MAGIC_WORD) as [idx | e]; [| reflexivity]. cbn [rbind].
  destruct (unpack_7I _) as [h | e]; [| reflexivity]. cbn [rbind].
  destruct (unpack_2I _) as [[ty ln] | e]; [| reflexivity]. cbn [rbind].
  destruct (negb _); [reflexivity |].
  destruct (_ >? _)%Z; [reflexivity |].
  now rewrite radar2_read_points_eq.
Qed.

Lemma radar2_parse_eq (buf : bytes) :
  Radar2._parse_pointcloud buf = Radar1._parse_pointcloud buf.
Proof.
  unfold Radar2._parse_pointcloud, Radar1._parse_pointcloud.
  now rewrite radar2_parse_body_eq.
Qed.

(** ** What the decoders return, case by case *)

Lemma radar_parse_nosync (buf : bytes) :
  find_first MAGIC_WORD buf = None ->
  Radar._parse_pointcloud buf = Ret np_empty_0_4.
Proof.
  intros H. unfold Radar._parse_pointcloud.
  now rewrite radar_parse_body_nosync.
Qed.

Lemma radar_parse_short (buf : bytes) (idx : nat) :
  find_first MAGIC_WORD buf = Some idx -> length buf < idx + 48 ->
  Radar._parse_pointcloud buf = Ret np_empty_0_4.
Proof.
  intros Hf Hl. unfold Radar._parse_pointcloud.
  now rewrite (radar_parse_body_short _ Hf Hl).
Qed.

Lemma radar_parse_found (buf : bytes) (idx : nat) :
  find_first MAGIC_WORD buf = Some idx -> idx + 48 <= length buf ->
  Radar._parse_pointcloud buf
  = if (tlv_length_at buf idx / 16 >? 1000)%Z then Ret np_empty_0_4
    else Ret (np_array
                (filter valid
                   (wire_records buf (idx + 48)
                      (Nat.min (Z.to_nat (tlv_length_at buf idx / 16))
                         (records_held buf (idx + 48)))))).
Proof.
  intros Hf Hl. unfold Radar._parse_pointcloud.
  rewrite (radar_parse_body_found _ Hf Hl).
  now destruct (_ >? _)%Z.
Qed.

Lemma radar1_parse_nosync (buf : bytes) :
  find_first MAGIC_WORD buf = None ->
  Radar1._parse_pointcloud buf = Ret np_empty_0_4.
Proof.
  intros H. unfold Radar1._parse_pointcloud.
  now rewrite radar1_parse_body_nosync.
Qed.

Lemma radar1_parse_short (buf : bytes) (idx : nat) :
  find_first MAGIC_WORD buf = Some idx -> length buf < idx + 48 ->
  Radar1._parse_pointcloud buf = Ret np_empty_0_4.
Proof.
  intros Hf Hl. unfold Radar1._parse_pointcloud.
  now rewrite (radar1_parse_body_short _ Hf Hl).
Qed.

Lemma radar1_parse_found (buf : bytes) (idx : nat) :
  find_first MAGIC_WORD buf = Some idx -> idx + 48 <= length buf ->
  Radar1._parse_pointcloud buf
  = if negb (tlv_type_at buf idx =? 1)%Z then Ret np_empty_0_4
    else if (tlv_length_at buf idx / 16 >? 1000)%Z then Ret np_empty_0_4
    else if Z.to_nat (tlv_length_at buf idx / 16)
              <=? records_held buf (idx + 48)
    then Ret (np_array
                (filter valid
                   (wire_records buf (idx + 48)
                      (Z.to_nat (tlv_length_at buf idx / 16)))))
    else Ret np_empty_0_4.
Proof.
  intros Hf Hl. unfold Radar1._parse_pointcloud.
  rewrite (radar1_parse_body_found _ Hf Hl).
  destruct (negb _); [reflexivity |].
  destruct (_ >? _)%Z; [reflexivity |].
  now destruct (_ <=? _).
Qed.

(** ** Bytes beyond the frame *)

Lemma tlv_length_at_prefix (buf rest : bytes) (idx k : nat) :
  idx + 48 <= k -> k <= length buf ->
  tlv_length_at (firstn k buf ++ rest) idx = tlv_length_at buf idx.
Proof. intros. unfold tlv_length_at. now rewrite slice_prefix. Qed.

Lemma tlv_type_at_prefix (buf rest : bytes) (idx k : nat) :
  idx + 48 <= k -> k <= length buf ->
  tlv_type_at (firstn k buf ++ rest) idx = tlv_type_at buf idx.
Proof. intros. unfold tlv_type_at. now rewrite slice_prefix. Qed.

Lemma wire_records_prefix (buf rest : bytes) (ds k n : nat) :
  ds + 16 * n <= k -> k <= length buf ->
  wire_records (firstn k buf ++ rest) ds n = wire_records buf ds n.
Proof.
  intros Hn Hk. unfold wire_records. apply map_ext_in.
  intros i Hi. apply in_seq in Hi. unfold record_at.
  rewrite slice_prefix by lia. reflexivity.
Qed.

Lemma prefix_length (buf rest : bytes) (k : nat) :
  k <= length buf -> k <= length (firstn k buf ++ rest).
Proof. intros H. rewrite length_app, length_firstn. lia. Qed.

Lemma min_held (buf : bytes) (ds n : nat) :
  ds + 16 * n <= length buf -> Nat.min n (records_held buf ds) = n.
Proof.
  intros H. destruct n as [| n]; [reflexivity |].
  apply (proj2 (records_held_spec buf ds n)) in H. lia.
Qed.

(** Once the first [k] bytes hold the sync word, both headers and every
    record the TLV length announces, what follows them is never looked at. *)
Lemma radar_parse_prefix (buf rest : bytes) (idx k : nat) :
  find_first MAGIC_WORD buf = Some idx ->
  idx + 48 <= k -> k <= length buf ->
  ((tlv_length_at buf idx / 16 <= 1000)%Z ->
   idx + 48 + 16 * Z.to_nat (tlv_length_at buf idx / 16) <= k) ->
  Radar._parse_pointcloud (firstn k buf ++ rest) = Radar._parse_pointcloud buf.
Proof.
  intros Hf Hk Hl Hq.
  assert (find_first MAGIC_WORD (firstn k buf ++ rest) = Some idx) as Hf'.
  { apply find_first_prefix; [exact Hf | simpl; lia]. }
  rewrite (radar_parse_found _ Hf') by (pose proof (prefix_length buf rest Hl); lia).
  rewrite (radar_parse_found _ Hf) by lia.
  rewrite tlv_length_at_prefix by lia.
  destruct (Z.gtb_spec (tlv_length_at buf idx / 16) 1000) as [Hc | Hc];
    [reflexivity |].
  specialize (Hq Hc).
  rewrite !min_held by (try pose proof (prefix_length buf rest Hl); lia).
  now rewrite wire_records_prefix by lia.
Qed.

Lemma radar1_parse_prefix (buf rest : bytes) (idx k : nat) :
  find_first MAGIC_WORD buf = Some idx ->
  idx + 48 <= k -> k <= length buf ->
  ((tlv_length_at buf idx / 16 <= 1000)%Z ->
   idx + 48 + 16 * Z.to_nat (tlv_length_at buf idx / 16) <= k) ->
  Radar1._parse_pointcloud (firstn k buf ++ rest) = Radar1._parse_pointcloud buf.
Proof.
  intros Hf Hk Hl Hq.
  assert (find_first MAGIC_WORD (firstn k buf ++ rest) = Some idx) as Hf'.
  { apply find_first_prefix; [exact Hf | simpl; lia]. }
  pose proof (prefix_length buf rest Hl) as Hp.
  rewrite (radar1_parse_found _ Hf') by lia.
  rewrite (radar1_parse_found _ Hf) by lia.
  rewrite tlv_length_at_prefix, tlv_type_at_prefix by lia.
  destruct (negb _); [reflexivity |].
  destruct (Z.gtb_spec (tlv_length_at buf idx / 16) 1000) as [Hc | Hc];
    [reflexivity |].
  specialize (Hq Hc).
  set (n := Z.to_nat (tlv_length_at buf idx / 16)) in *.
  pose proof (min_held buf (idx + 48) n) as M1.
  pose proof (min_held (firstn k buf ++ rest) (idx + 48) n) as M2.
  destruct (Nat.leb_spec n (records_held (firstn k buf ++ rest) (idx + 48)));
    [| lia].
  destruct (Nat.leb_spec n (records_held buf (idx + 48))); [| lia].
  now rewrite wire_records_prefix by lia.
Qed.

(** ** Totality of the decoders *)

Lemma try_except_absorbs (body : bytes -> result ndarray) (buffer : bytes) :
  absorbs_failures body
    (fun b => try_except (body b) (fun _ => Ret np_empty_0_4)) buffer.
Proof.
  unfold absorbs_failures. destruct (body buffer) as [a | e] eqn:E; simpl.
  - split; [eauto | intros e' [=]].
  - split; [eauto | reflexivity].
Qed.

(** C9. [_parse_pointcloud] is total at its public interface: on every
    byte buffer each of the four copies returns an array and raises
    nothing, and whenever its [try] block failed (no sync word, a header
    cut short, record bytes that do not unpack) the array returned is the
    empty 0-by-4 one. *)
Theorem parse_pointcloud_total (buffer : bytes) :
  absorbs_failures Radar.parse_body Radar._parse_pointcloud buffer /\
  absorbs_failures Radar1.parse_body Radar1._parse_pointcloud buffer /\
  absorbs_failures Radar2.parse_body Radar2._parse_pointcloud buffer /\
  absorbs_failures Iwr1843.parse_body Iwr1843._parse_pointcloud buffer /\
  (find_first MAGIC_WORD buffer = None \/
   (exists idx, find_first MAGIC_WORD buffer = Some idx /\
                length buffer < idx + 48) ->
   Radar._parse_pointcloud buffer = Ret np_empty_0_4 /\
   Radar1._parse_pointcloud buffer = Ret np_empty_0_4 /\
   Radar2._parse_pointcloud buffer = Ret np_empty_0_4 /\
   Iwr1843._parse_pointcloud buffer = Ret np_empty_0_4).
Proof.
  do 4 (split; [apply try_except_absorbs |]).
  intros Hfail.
  rewrite (iwr1843_parse_eq buffer), (radar2_parse_eq buffer).
  destruct Hfail as [Hn | (idx & Hf & Hl)].
  - rewrite (radar_parse_nosync buffer Hn), (radar1_parse_nosync buffer Hn).
    repeat split.
  - rewrite (radar_parse_short buffer Hf Hl), (radar1_parse_short buffer Hf Hl).
    repeat split.
Qed.

Lemma parse_pointcloud_total_witness :
  (exists idx, find_first MAGIC_WORD partial_header = Some idx /\
               length partial_header < idx + 48) /\
  Radar._parse_pointcloud partial_header = Ret np_empty_0_4 /\
  Radar2._parse_pointcloud partial_header = Ret np_empty_0_4.
Proof.
  assert (exists idx, find_first MAGIC_WORD partial_header = Some idx /\
                      length partial_header < idx + 48) as H.
  { exists 0. split; [reflexivity | vm_compute; lia]. }
  split; [exact H |].
  destruct (parse_pointcloud_total partial_header) as (_ & _ & _ & _ & K).
  destruct (K (or_intror H)) as (K1 & _ & K2 & _). split; assumption.
Defined.

(** ** The corruption cap *)

(** C2. When the buffer holds the sync word and a whole TLV header, and
    the point count tlv_length // 16 is above 1000, every copy of the
    decoder returns an empty array (the 0-by-4 one) and raises nothing; the
    same holds after the bytes that follow the TLV header are replaced by
    any others. *)
Theorem corruption_cap (buffer rest : bytes) (idx : nat) :
  find_first MAGIC_WORD buffer = Some idx ->
  idx + 48 <= length buffer ->
  (tlv_length_at buffer idx / 16 > 1000)%Z ->
  let replaced := firstn (idx + 48) buffer ++ rest in
  (Radar._parse_pointcloud buffer = Ret np_empty_0_4 /\
   Radar1._parse_pointcloud buffer = Ret np_empty_0_4 /\
   Radar2._parse_pointcloud buffer = Ret np_empty_0_4 /\
   Iwr1843._parse_pointcloud buffer = Ret np_empty_0_4) /\
  (Radar._parse_pointcloud replaced = Ret np_empty_0_4 /\
   Radar1._parse_pointcloud replaced = Ret np_empty_0_4 /\
   Radar2._parse_pointcloud replaced = Ret np_empty_0_4 /\
   Iwr1843._parse_pointcloud replaced = Ret np_empty_0_4) /\
  len np_empty_0_4 = 0.
Proof.
  intros Hf Hl Hc replaced.
  assert (Radar._parse_pointcloud buffer = Ret np_empty_0_4) as R.
  { rewrite (radar_parse_found _ Hf Hl).
    destruct (Z.gtb_spec (tlv_length_at buffer idx / 16) 1000); [reflexivity | lia]. }
  assert (Radar1._parse_pointcloud buffer = Ret np_empty_0_4) as R1.
  { rewrite (radar1_parse_found _ Hf Hl).
    destruct (negb _); [reflexivity |].
    destruct (Z.gtb_spec (tlv_length_at buffer idx / 16) 1000); [reflexivity | lia]. }
  assert (Radar._parse_pointcloud replaced = Ret np_empty_0_4) as P.
  { unfold replaced. rewrite radar_parse_prefix with (idx := idx); auto; lia. }
  assert (Radar1._parse_pointcloud replaced = Ret np_empty_0_4) as P1.
  { unfold replaced. rewrite radar1_parse_prefix with (idx := idx); auto; lia. }
  rewrite (iwr1843_parse_eq buffer), (iwr1843_parse_eq replaced),
    (radar2_parse_eq buffer), (radar2_parse_eq replaced).
  repeat split; assumption.
Qed.

Lemma corruption_cap_witness :
  find_first MAGIC_WORD oversized_frame = Some 0 /\
  Radar._parse_pointcloud oversized_frame = Ret np_empty_0_4 /\
  Radar2._parse_pointcloud (firstn 48 oversized_frame ++ [xff; x07])
  = Ret np_empty_0_4.
Proof.
  assert (find_first MAGIC_WORD oversized_frame = Some 0) as Hf by reflexivity.
  assert (0 + 48 <= length oversized_frame) as Hl by (vm_compute; lia).
  assert (tlv_length_at oversized_frame 0 / 16 > 1000)%Z as Hc
      by (vm_compute; reflexivity).
  destruct (@corruption_cap oversized_frame [xff; x07] 0 Hf Hl Hc)
    as ((R & _) & (_ & _ & R2 & _) & _).
  split; [exact Hf | split; [exact R | exact R2]].
Defined.

(** ** The zero test *)

(** A pattern compares equal to zero exactly when every bit below the sign
    bit is clear; the sign bit plays no part. *)
Lemma f32_eq_zero_spec (w : f32) :
  f32_eq_zero w = true <-> Z.land w 0x7FFFFFFF = 0%Z.
Proof.
  unfold f32_eq_zero, f32_exponent, f32_fraction.
  change 255%Z with (Z.ones 8). change 8388607%Z with (Z.ones 23).
  change 0x7FFFFFFF%Z with (Z.ones 31).
  rewrite !Z.land_ones, Z.shiftr_div_pow2 by lia.
  rewrite andb_true_iff, !Z.eqb_eq.
  change (2 ^ 23)%Z with 8388608%Z. change (2 ^ 8)%Z with 256%Z.
  change (2 ^ 31)%Z with 2147483648%Z.
  pose proof (Z.div_mod w 8388608 ltac:(lia)).
  pose proof (Z.mod_pos_bound w 8388608 ltac:(lia)).
  pose proof (Z.div_mod (w / 8388608) 256 ltac:(lia)).
  pose proof (Z.mod_pos_bound (w / 8388608) 256 ltac:(lia)).
  pose proof (Z.div_mod w 2147483648 ltac:(lia)).
  pose proof (Z.mod_pos_bound w 2147483648 ltac:(lia)).
  lia.
Qed.

Lemma valid_spec (p : point) :
  valid p = false <->
  Z.land (px p) 0x7FFFFFFF = 0%Z /\ Z.land (py p) 0x7FFFFFFF = 0%Z /\
  Z.land (pz p) 0x7FFFFFFF = 0%Z.
Proof.
  unfold valid, triple_ne_zero.
  rewrite negb_false_iff, !andb_true_iff, !f32_eq_zero_spec. tauto.
Qed.

Lemma filter_length_zero_count (ps : list point) :
  length (filter valid ps) = length ps - zero_count ps.
Proof.
  unfold zero_count. induction ps as [| p ps IH]; [reflexivity |].
  pose proof (filter_length_le (fun p => negb (valid p)) ps).
  cbn [filter]. destruct (valid p); cbn [negb length]; lia.
Qed.

Lemma wire_records_length (buf : bytes) (ds n : nat) :
  length (wire_records buf ds n) = n.
Proof. unfold wire_records. now rewrite length_map, length_seq. Qed.

(** ** The order-preserving filter *)

(** C1, as amended. For every decoded frame (sync word found, both headers
    held, point count within the cap) [radar.py] returns, in wire order,
    exactly the records among the [N] it holds whose (x, y, z) does not
    compare equal to (0, 0, 0), so [N] minus the number of zero triples of
    them. The comparison is the exact IEEE one, without tolerance: a
    coordinate counts as zero when all its bits below the sign bit are
    clear, so -0.0 is zero as well. The velocity plays no part. *)
Theorem order_preserving_filter (buffer : bytes) (idx : nat) :
  find_first MAGIC_WORD buffer = Some idx ->
  idx + 48 <= length buffer ->
  (tlv_length_at buffer idx / 16 <= 1000)%Z ->
  let N := Nat.min (Z.to_nat (tlv_length_at buffer idx / 16))
             (records_held buffer (idx + 48)) in
  let records := wire_records buffer (idx + 48) N in
  (exists a, Radar._parse_pointcloud buffer = Ret a /\
             rows a = filter valid records /\
             len a = N - zero_count records) /\
  (forall p, valid p = false <->
             Z.land (px p) 0x7FFFFFFF = 0%Z /\
             Z.land (py p) 0x7FFFFFFF = 0%Z /\
             Z.land (pz p) 0x7FFFFFFF = 0%Z) /\
  (forall p vel,
      valid {| px := px p; py := py p; pz := pz p; pvel := vel |} = valid p).
Proof.
  intros Hf Hl Hc N records. split; [| split].
  - exists (np_array (filter valid records)).
    rewrite (radar_parse_found _ Hf Hl).
    destruct (Z.gtb_spec (tlv_length_at buffer idx / 16) 1000); [lia |].
    split; [reflexivity | split; [reflexivity |]].
    unfold len. cbn [rows np_array].
    rewrite filter_length_zero_count. unfold records.
    now rewrite wire_records_length.
  - apply valid_spec.
  - reflexivity.
Qed.

Lemma order_preserving_filter_witness :
  find_first MAGIC_WORD three_record_frame = Some 0 /\
  exists a, Radar._parse_pointcloud three_record_frame = Ret a /\
            rows a = [ {| px := f32_one; py := 0; pz := 0; pvel := f32_half |};
                       {| px := 0; py := f32_two; pz := 0; pvel := f32_half |} ] /\
            len a = 3 - 1.
Proof.
  assert (find_first MAGIC_WORD three_record_frame = Some 0) as Hf
      by reflexivity.
  assert (0 + 48 <= length three_record_frame) as Hl by (vm_compute; lia).
  assert (tlv_length_at three_record_frame 0 / 16 <= 1000)%Z as Hc
      by (vm_compute; discriminate).
  split; [exact Hf |].
  destruct (@order_preserving_filter three_record_frame 0 Hf Hl Hc)
    as ((a & Ha & Hrows & Hlen) & _).
  exists a. split; [exact Ha | split; [exact Hrows | exact Hlen]].
Defined.

(** C1 as stated fails: the record (-0.0, 0.0, 0.0, 1.0) differs bit for
    bit from the zero triple, yet [radar.py] drops it. *)
Lemma exact_bit_comparison_fails :
  ~ (exists a, Radar._parse_pointcloud neg_zero_frame = Ret a /\
               rows a = filter spec_valid_bitwise
                          (wire_records neg_zero_frame 48 1)).
Proof.
  intros (a & Ha & Hrows).
  vm_compute in Ha. injection Ha as <-.
  vm_compute in Hrows. discriminate Hrows.
Qed.

(** ** The point count *)

(** C10. The point count is the floor of tlv_length / 16. The cap is
    tested on that floor (it fires from tlv_length 16016 on, not from
    16001), the decoders read at most that many whole records, and the bytes
    after the last of them, the remainder bytes included, change nothing. *)
Theorem floor_division_point_count (buffer rest : bytes) (idx : nat) :
  find_first MAGIC_WORD buffer = Some idx ->
  idx + 48 <= length buffer ->
  let tlv_length := tlv_length_at buffer idx in
  let num_points := (tlv_length / 16)%Z in
  (16 * num_points <= tlv_length < 16 * num_points + 16)%Z /\
  (num_points >? 1000)%Z = (tlv_length >=? 16016)%Z /\
  Radar._parse_pointcloud buffer
  = (if (num_points >? 1000)%Z then Ret np_empty_0_4
     else Ret (np_array
                 (filter valid
                    (wire_records buffer (idx + 48)
                       (Nat.min (Z.to_nat num_points)
                          (records_held buffer (idx + 48))))))) /\
  (tlv_type_at buffer idx = 1%Z ->
   Z.to_nat num_points <= records_held buffer (idx + 48) ->
   Radar1._parse_pointcloud buffer
   = (if (num_points >? 1000)%Z then Ret np_empty_0_4
      else Ret (np_array
                  (filter valid
                     (wire_records buffer (idx + 48)
                        (Z.to_nat num_points)))))) /\
  ((num_points <= 1000)%Z ->
   idx + 48 + 16 * Z.to_nat num_points <= length buffer ->
   let cut := firstn (idx + 48 + 16 * Z.to_nat num_points) buffer ++ rest in
   Radar._parse_pointcloud cut = Radar._parse_pointcloud buffer /\
   Radar1._parse_pointcloud cut = Radar1._parse_pointcloud buffer).
Proof.
  intros Hf Hl tlv_length num_points.
  pose proof (Z.div_mod tlv_length 16 ltac:(lia)) as Hdm.
  pose proof (Z.mod_pos_bound tlv_length 16 ltac:(lia)) as Hm.
  fold num_points in Hdm.
  split; [lia |]. split.
  { destruct (Z.gtb_spec num_points 1000), (Z.geb_spec tlv_length 16016);
      (reflexivity || lia). }
  split; [exact (radar_parse_found _ Hf Hl) |]. split.
  - intros Hty Hheld. rewrite (radar1_parse_found _ Hf Hl), Hty.
    cbn [Z.eqb Pos.eqb negb]. fold tlv_length. fold num_points.
    destruct (num_points >? 1000)%Z; [reflexivity |].
    now destruct (Nat.leb_spec (Z.to_nat num_points)
                    (records_held buffer (idx + 48))); [| lia].
  - intros Hc Hall cut. unfold cut.
    split; [apply radar_parse_prefix with (idx := idx)
           | apply radar1_parse_prefix with (idx := idx)];
      auto; lia.
Qed.

Lemma floor_division_point_count_witness :
  tlv_length_at odd_length_frame 0 = 40%Z /\
  Radar._parse_pointcloud odd_length_frame
  = Ret (np_array
           [ {| px := f32_one; py := 0; pz := 0; pvel := f32_half |};
             {| px := 0; py := f32_two; pz := 0; pvel := f32_half |} ]) /\
  Radar._parse_pointcloud (firstn 80 odd_length_frame ++ [xff; xff; xff])
  = Radar._parse_pointcloud odd_length_frame.
Proof.
  assert (find_first MAGIC_WORD odd_length_frame = Some 0) as Hf
      by reflexivity.
  assert (0 + 48 <= length odd_length_frame) as Hl by (vm_compute; lia).
  destruct (@floor_division_point_count odd_length_frame [xff; xff; xff] 0
              Hf Hl) as (_ & _ & R & _ & P).
  split; [reflexivity | split; [exact R |]].
  apply P; vm_compute; [discriminate | lia].
Defined.

(** ** A frame cut short inside its records *)

(** C3. On a buffer with the sync word and both headers that ends before
    the last record its TLV length announces, [radar.py] and [iwr1843.py]
    stop at the first record that is cut short and return the valid ones
    among the records held before it; [radar1.py] and [radar2.py], which
    have no length test in their loop, let [unpack] raise and return the
    empty 0-by-4 array, losing the records already decoded. *)
Theorem truncated_tail_divergence (buffer : bytes) (idx : nat) :
  find_first MAGIC_WORD buffer = Some idx ->
  idx + 48 <= length buffer ->
  (tlv_length_at buffer idx / 16 <= 1000)%Z ->
  records_held buffer (idx + 48) < Z.to_nat (tlv_length_at buffer idx / 16) ->
  let held := wire_records buffer (idx + 48) (records_held buffer (idx + 48)) in
  Radar._parse_pointcloud buffer = Ret (np_array (filter valid held)) /\
  Iwr1843._parse_pointcloud buffer = Ret (np_array (filter valid held)) /\
  Radar1._parse_pointcloud buffer = Ret np_empty_0_4 /\
  Radar2._parse_pointcloud buffer = Ret np_empty_0_4.
Proof.
  intros Hf Hl Hc Ht held.
  assert (Radar._parse_pointcloud buffer = Ret (np_array (filter valid held)))
    as R.
  { rewrite (radar_parse_found _ Hf Hl).
    destruct (Z.gtb_spec (tlv_length_at buffer idx / 16) 1000); [lia |].
    unfold held. now rewrite Nat.min_r by lia. }
  assert (Radar1._parse_pointcloud buffer = Ret np_empty_0_4) as R1.
  { rewrite (radar1_parse_found _ Hf Hl).
    destruct (negb _); [reflexivity |].
    destruct (_ >? _)%Z; [reflexivity |].
    now destruct (Nat.leb_spec (Z.to_nat (tlv_length_at buffer idx / 16))
                    (records_held buffer (idx + 48))); [lia |]. }
  rewrite (iwr1843_parse_eq buffer), (radar2_parse_eq buffer).
  repeat split; assumption.
Qed.

Lemma truncated_tail_divergence_witness :
  records_held truncated_frame 48 = 1 /\
  tlv_length_at truncated_frame 0 = 32%Z /\
  Radar._parse_pointcloud truncated_frame
  = Ret (np_array [ {| px := f32_one; py := 0; pz := 0; pvel := f32_half |} ]) /\
  Radar2._parse_pointcloud truncated_frame = Ret np_empty_0_4.
Proof.
  assert (find_first MAGIC_WORD truncated_frame = Some 0) as Hf
      by reflexivity.
  assert (0 + 48 <= length truncated_frame) as Hl by (vm_compute; lia).
  assert (tlv_length_at truncated_frame 0 / 16 <= 1000)%Z as Hc
      by (vm_compute; discriminate).
  assert (records_held truncated_frame (0 + 48)
          < Z.to_nat (tlv_length_at truncated_frame 0 / 16)) as Ht
      by (vm_compute; lia).
  destruct (@truncated_tail_divergence truncated_frame 0 Hf Hl Hc Ht)
    as (R & _ & _ & R2).
  split; [reflexivity | split; [reflexivity | split; [exact R | exact R2]]].
Defined.

(** ** The copies compared *)

Lemma same_points_refl (r : result ndarray) (a : ndarray) :
  r = Ret a -> same_points r r.
Proof. intros ->. exists a, a. auto. Qed.

(** C6, as amended. [iwr1843.py] returns what [radar.py] returns and
    [radar2.py] what [radar1.py] returns, on every buffer. Across the two
    pairs the point lists agree when the sync word is absent, when the
    buffer ends before the TLV header does, and when the TLV type is 1 and
    the buffer holds every record announced (or the count is over the cap);
    under any other TLV type [radar1.py] and [radar2.py] return the empty
    array whatever the payload is. *)
Theorem decoder_copies_agree (buffer : bytes) :
  Iwr1843._parse_pointcloud buffer = Radar._parse_pointcloud buffer /\
  Radar2._parse_pointcloud buffer = Radar1._parse_pointcloud buffer /\
  (find_first MAGIC_WORD buffer = None ->
   same_points (Radar._parse_pointcloud buffer)
     (Radar1._parse_pointcloud buffer)) /\
  (forall idx,
      find_first MAGIC_WORD buffer = Some idx ->
      (length buffer < idx + 48 ->
       same_points (Radar._parse_pointcloud buffer)
         (Radar1._parse_pointcloud buffer)) /\
      (idx + 48 <= length buffer ->
       tlv_type_at buffer idx = 1%Z ->
       ((tlv_length_at buffer idx / 16 <= 1000)%Z ->
        Z.to_nat (tlv_length_at buffer idx / 16)
        <= records_held buffer (idx + 48)) ->
       same_points (Radar._parse_pointcloud buffer)
         (Radar1._parse_pointcloud buffer)) /\
      (idx + 48 <= length buffer ->
       tlv_type_at buffer idx <> 1%Z ->
       Radar1._parse_pointcloud buffer = Ret np_empty_0_4 /\
       Radar2._parse_pointcloud buffer = Ret np_empty_0_4)).
Proof.
  split; [apply iwr1843_parse_eq |]. split; [apply radar2_parse_eq |]. split.
  - intros Hn. rewrite (radar_parse_nosync _ Hn), (radar1_parse_nosync _ Hn).
    now apply same_points_refl with (a := np_empty_0_4).
  - intros idx Hf. split; [| split].
    + intros Hl.
      rewrite (radar_parse_short _ Hf Hl), (radar1_parse_short _ Hf Hl).
      now apply same_points_refl with (a := np_empty_0_4).
    + intros Hl Hty Hall.
      rewrite (radar_parse_found _ Hf Hl), (radar1_parse_found _ Hf Hl), Hty.
      cbn [Z.eqb Pos.eqb negb].
      destruct (Z.gtb_spec (tlv_length_at buffer idx / 16) 1000) as [Hc | Hc].
      * now apply same_points_refl with (a := np_empty_0_4).
      * specialize (Hall Hc).
        destruct (Nat.leb_spec (Z.to_nat (tlv_length_at buffer idx / 16))
                    (records_held buffer (idx + 48))); [| lia].
        rewrite Nat.min_l by lia.
        eapply same_points_refl. reflexivity.
    + intros Hl Hty. rewrite (radar2_parse_eq buffer).
      rewrite (radar1_parse_found _ Hf Hl).
      destruct (Z.eqb_spec (tlv_type_at buffer idx) 1); [contradiction |].
      split; reflexivity.
Qed.

Lemma decoder_copies_agree_witness :
  find_first MAGIC_WORD three_record_frame = Some 0 /\
  tlv_type_at three_record_frame 0 = 1%Z /\
  same_points (Radar._parse_pointcloud three_record_frame)
    (Radar1._parse_pointcloud three_record_frame) /\
  tlv_type_at type2_frame 0 <> 1%Z /\
  Radar2._parse_pointcloud type2_frame = Ret np_empty_0_4.
Proof.
  assert (find_first MAGIC_WORD three_record_frame = Some 0) as Hf
      by reflexivity.
  assert (find_first MAGIC_WORD type2_frame = Some 0) as Hf2 by reflexivity.
  assert (tlv_type_at type2_frame 0 <> 1%Z) as Hty2
      by (vm_compute; discriminate).
  destruct (decoder_copies_agree three_record_frame) as (_ & _ & _ & K).
  destruct (K 0 Hf) as (_ & Kgood & _).
  destruct (decoder_copies_agree type2_frame) as (_ & _ & _ & K2).
  destruct (K2 0 Hf2) as (_ & _ & Kgate).
  split; [exact Hf |]. split; [reflexivity |]. split.
  - apply Kgood; vm_compute; (reflexivity || lia).
  - split; [exact Hty2 |]. apply Kgate; [vm_compute; lia | exact Hty2].
Defined.

(** C6 as stated fails: under TLV type 2 [radar.py] decodes the record
    that [radar1.py] refuses to look at. *)
Lemma decoder_copies_differ :
  ~ same_points (Radar._parse_pointcloud type2_frame)
      (Radar1._parse_pointcloud type2_frame).
Proof.
  intros (a1 & a2 & H1 & H2 & Hrows).
  vm_compute in H1. vm_compute in H2.
  injection H1 as <-. injection H2 as <-. discriminate Hrows.
Qed.

(** ** One turn of the capture loop, [radar.py] *)

Lemma radar_parse_returns (buf : bytes) :
  exists pts, Radar._parse_pointcloud buf = Ret pts.
Proof.
  unfold Radar._parse_pointcloud.
  destruct (Radar.parse_body buf); simpl; eauto.
Qed.

Lemma nonempty_waiting (bs : bytes) : bs <> [] -> (0 <? length bs) = true.
Proof.
  intros H. apply Nat.ltb_lt. destruct bs; [contradiction | simpl; lia].
Qed.

Lemma radar_loop_body_failure (cb : Radar.callback) (w : Radar.world) :
  Radar.loop_body cb PortFailure w = (Raise SerialException, w).
Proof. reflexivity. Qed.

Lemma radar_loop_body_idle (cb : Radar.callback) (w : Radar.world) :
  Radar.loop_body cb (Waiting []) w = (Ret tt, w).
Proof. reflexivity. Qed.

Lemma radar_loop_body_nosync (cb : Radar.callback) (bs : bytes)
    (w : Radar.world) :
  bs <> [] ->
  contains MAGIC_WORD (Radar.buffer (Radar.self w) ++ bs) = false ->
  Radar.loop_body cb (Waiting bs) w
  = (Ret tt,
     {| Radar.self :=
          Radar.set_buffer (Radar.buffer (Radar.self w) ++ bs) (Radar.self w);
        Radar.threads := Radar.threads w;
        Radar.delivered := Radar.delivered w;
        Radar.console := Radar.console w |}).
Proof.
  intros Hbs Hc.
  cbv beta iota delta [Radar.loop_body bind in_waiting read ret Radar.on_self
                       modify gets lift sleep].
  rewrite (nonempty_waiting Hbs), firstn_all.
  cbn [Radar.self Radar.buffer Radar.set_buffer].
  now rewrite Hc.
Qed.

Lemma radar_loop_body_sync (cb : Radar.callback) (bs : bytes)
    (w : Radar.world) (pts : ndarray) :
  bs <> [] ->
  contains MAGIC_WORD (Radar.buffer (Radar.self w) ++ bs) = true ->
  Radar._parse_pointcloud (Radar.buffer (Radar.self w) ++ bs) = Ret pts ->
  Radar.loop_body cb (Waiting bs) w
  = let s1 := Radar.set_points_count (len pts)
                (Radar.set_buffer (Radar.buffer (Radar.self w) ++ bs)
                   (Radar.self w)) in
    if 0 <? len pts then
      match cb pts s1 with
      | (Ret _, s2) =>
          (Ret tt,
           {| Radar.self := Radar.set_buffer [] s2;
              Radar.threads := Radar.threads w;
              Radar.delivered := Radar.delivered w ++ [pts];
              Radar.console := Radar.console w |})
      | (Raise e, s2) =>
          (Raise e,
           {| Radar.self := s2;
              Radar.threads := Radar.threads w;
              Radar.delivered := Radar.delivered w ++ [pts];
              Radar.console := Radar.console w |})
      end
    else
      (Ret tt,
       {| Radar.self := Radar.set_buffer [] s1;
          Radar.threads := Radar.threads w;
          Radar.delivered := Radar.delivered w;
          Radar.console := Radar.console w |}).
Proof.
  intros Hbs Hc Hp.
  cbv beta iota delta [Radar.loop_body bind in_waiting read ret Radar.on_self
                       modify gets lift sleep].
  rewrite (nonempty_waiting Hbs), firstn_all.
  cbn [Radar.self Radar.buffer Radar.set_buffer Radar.threads
       Radar.delivered Radar.console].
  rewrite Hc, Hp.
  cbn [Radar.self Radar.buffer Radar.set_buffer Radar.threads
       Radar.delivered Radar.console].
  destruct (0 <? len pts); [| reflexivity].
  unfold Radar.call.
  cbn [Radar.self Radar.threads Radar.delivered Radar.console].
  destruct (cb pts _) as [[[] | e] s2]; reflexivity.
Qed.

(** ** One turn of the capture loop, [radar1.py] *)

Lemma radar1_parse_returns (buf : bytes) :
  exists pts, Radar1._parse_pointcloud buf = Ret pts.
Proof.
  unfold Radar1._parse_pointcloud.
  destruct (Radar1.parse_body buf); simpl; eauto.
Qed.

Lemma radar1_loop_body_failure (cb : Radar1.callback) (w : Radar1.world) :
  Radar1.loop_body cb PortFailure w = (Raise SerialException, w).
Proof. reflexivity. Qed.

Lemma radar1_loop_body_idle (cb : Radar1.callback) (w : Radar1.world) :
  Radar1.loop_body cb (Waiting []) w = (Ret tt, w).
Proof. reflexivity. Qed.

Lemma nonempty_truthy (bs : bytes) :
  bs <> [] -> negb (length bs =? 0) = true.
Proof. intros H. destruct bs; [contradiction | reflexivity]. Qed.

Lemma radar1_loop_body_nosync (cb : Radar1.callback) (bs : bytes)
    (w : Radar1.world) :
  bs <> [] ->
  contains MAGIC_WORD (Radar1.buffer (Radar1.self w) ++ bs) = false ->
  Radar1.loop_body cb (Waiting bs) w
  = (Ret tt,
     {| Radar1.self :=
          Radar1.set_buffer (Radar1.buffer (Radar1.self w) ++ bs) (Radar1.self w);
        Radar1.threads := Radar1.threads w;
        Radar1.delivered := Radar1.delivered w;
        Radar1.console := Radar1.console w |}).
Proof.
  intros Hbs Hc.
  cbv beta iota delta [Radar1.loop_body bind in_waiting read ret Radar1.on_self
                       modify gets lift sleep].
  rewrite (nonempty_truthy Hbs), firstn_all.
  cbn [Radar1.self Radar1.buffer Radar1.set_buffer].
  now rewrite Hc.
Qed.

Lemma radar1_loop_body_sync (cb : Radar1.callback) (bs : bytes)
    (w : Radar1.world) (pts : ndarray) :
  bs <> [] ->
  contains MAGIC_WORD (Radar1.buffer (Radar1.self w) ++ bs) = true ->
  Radar1._parse_pointcloud (Radar1.buffer (Radar1.self w) ++ bs) = Ret pts ->
  Radar1.loop_body cb (Waiting bs) w
  = let s1 := Radar1.set_buffer (Radar1.buffer (Radar1.self w) ++ bs)
                (Radar1.self w) in
    if negb (len pts =? 0) then
      match cb pts s1 with
      | (Ret _, s2) =>
          (Ret tt,
           {| Radar1.self := Radar1.set_buffer [] s2;
              Radar1.threads := Radar1.threads w;
              Radar1.delivered := Radar1.delivered w ++ [pts];
              Radar1.console := Radar1.console w |})
      | (Raise e, s2) =>
          (Raise e,
           {| Radar1.self := s2;
              Radar1.threads := Radar1.threads w;
              Radar1.delivered := Radar1.delivered w ++ [pts];
              Radar1.console := Radar1.console w |})
      end
    else
      (Ret tt,
       {| Radar1.self := Radar1.set_buffer [] s1;
          Radar1.threads := Radar1.threads w;
          Radar1.delivered := Radar1.delivered w;
          Radar1.console := Radar1.console w |}).
Proof.
  intros Hbs Hc Hp.
  cbv beta iota delta [Radar1.loop_body bind in_waiting read ret Radar1.on_self
                       modify gets lift sleep].
  rewrite (nonempty_truthy Hbs), firstn_all.
  cbn [Radar1.self Radar1.buffer Radar1.set_buffer Radar1.threads
       Radar1.delivered Radar1.console].
  rewrite Hc, Hp.
  cbn [Radar1.self Radar1.buffer Radar1.set_buffer Radar1.threads
       Radar1.delivered Radar1.console].
  destruct (negb (len pts =? 0)); [| reflexivity].
  unfold Radar1.call.
  cbn [Radar1.self Radar1.threads Radar1.delivered Radar1.console].
  destruct (cb pts _) as [[[] | e] s2]; reflexivity.
Qed.

(** ** One turn of the capture loop, [radar2.py] *)


Lemma radar2_loop_body_failure (cb : Radar2.callback) (w : Radar2.world) :
  Radar2.loop_body cb PortFailure w = (Raise SerialException, w).
Proof. reflexivity. Qed.




(** ** The buffer after a turn that found the sync word *)

Lemma radar_sync_turn (cb : Radar.callback) (bs : bytes) (w : Radar.world) :
  returns_normally cb -> bs <> [] ->
  contains MAGIC_WORD (Radar.buffer (Radar.self w) ++ bs) = true ->
  exists pts w',
    Radar._parse_pointcloud (Radar.buffer (Radar.self w) ++ bs) = Ret pts /\
    Radar.loop_body cb (Waiting bs) w = (Ret tt, w') /\
    Radar.buffer (Radar.self w') = [] /\
    Radar.delivered w' = Radar.delivered w ++ (if 0 <? len pts then [pts] else []).
Proof.
  intros Hcb Hbs Hc.
  destruct (radar_parse_returns (Radar.buffer (Radar.self w) ++ bs)) as [pts Hp].
  exists pts. rewrite (@radar_loop_body_sync cb bs w pts Hbs Hc Hp). cbv zeta.
  destruct (0 <? len pts).
  - specialize (Hcb pts (Radar.set_points_count (len pts) (Radar.set_buffer (Radar.buffer (Radar.self w) ++ bs) (Radar.self w)))).
    destruct (cb pts _) as [[[] | e] s2]; [| discriminate Hcb].
    eexists. split; [exact Hp |]. repeat split.
  - eexists. split; [exact Hp |]. split; [reflexivity |].
    split; [reflexivity |]. cbn [Radar.delivered]. now rewrite app_nil_r.
Qed.

Lemma whole_frame_contains (f1 f2 : bytes) (idx : nat) :
  whole_frame f1 idx -> contains MAGIC_WORD (f1 ++ f2) = true.
Proof.
  intros (Hf & Hl & _). rewrite contains_find_first.
  pose proof (find_first_bound _ _ Hf) as Hb.
  rewrite <- (firstn_all f1).
  now rewrite (@find_first_prefix MAGIC_WORD f1 f2 idx (length f1) Hf Hb).
Qed.

Lemma whole_frame_nonempty (f1 f2 : bytes) (idx : nat) :
  whole_frame f1 idx -> f1 ++ f2 <> [].
Proof.
  intros (Hf & Hl & _) E. apply (f_equal (@length byte)) in E.
  rewrite length_app in E. simpl in E. lia.
Qed.

Lemma radar_parse_whole_frame (f1 f2 : bytes) (idx : nat) :
  whole_frame f1 idx ->
  Radar._parse_pointcloud (f1 ++ f2) = Radar._parse_pointcloud f1.
Proof.
  intros (Hf & Hl & Hall).
  rewrite <- (firstn_all f1) at 1.
  apply radar_parse_prefix with (idx := idx); auto.
Qed.

Lemma radar_two_frames_turn (cb : Radar.callback) (f1 f2 : bytes) (idx : nat)
    (w : Radar.world) :
  returns_normally cb -> Radar.buffer (Radar.self w) = [] ->
  whole_frame f1 idx ->
  exists pts w',
    Radar._parse_pointcloud f1 = Ret pts /\
    Radar.loop_body cb (Waiting (f1 ++ f2)) w = (Ret tt, w') /\
    Radar.buffer (Radar.self w') = [] /\
    Radar.delivered w' = Radar.delivered w ++ (if 0 <? len pts then [pts] else []).
Proof.
  intros Hcb Hw Hwf.
  assert (contains MAGIC_WORD (Radar.buffer (Radar.self w) ++ (f1 ++ f2)) = true)
    as Hc by (rewrite Hw; exact (@whole_frame_contains f1 f2 idx Hwf)).
  destruct (@radar_sync_turn cb (f1 ++ f2) w Hcb
              (@whole_frame_nonempty f1 f2 idx Hwf) Hc)
    as (pts & w' & Hp & Hrun & Hbuf & Hdel).
  rewrite Hw in Hp. cbn [app] in Hp.
  rewrite (@radar_parse_whole_frame f1 f2 idx Hwf) in Hp.
  exists pts, w'. auto.
Qed.

Lemma radar1_sync_turn (cb : Radar1.callback) (bs : bytes) (w : Radar1.world) :
  returns_normally cb -> bs <> [] ->
  contains MAGIC_WORD (Radar1.buffer (Radar1.self w) ++ bs) = true ->
  exists pts w',
    Radar1._parse_pointcloud (Radar1.buffer (Radar1.self w) ++ bs) = Ret pts /\
    Radar1.loop_body cb (Waiting bs) w = (Ret tt, w') /\
    Radar1.buffer (Radar1.self w') = [] /\
    Radar1.delivered w' = Radar1.delivered w ++ (if negb (len pts =? 0) then [pts] else []).
Proof.
  intros Hcb Hbs Hc.
  destruct (radar1_parse_returns (Radar1.buffer (Radar1.self w) ++ bs)) as [pts Hp].
  exists pts. rewrite (@radar1_loop_body_sync cb bs w pts Hbs Hc Hp). cbv zeta.
  destruct (negb (len pts =? 0)).
  - specialize (Hcb pts (Radar1.set_buffer (Radar1.buffer (Radar1.self w) ++ bs) (Radar1.self w))).
    destruct (cb pts _) as [[[] | e] s2]; [| discriminate Hcb].
    eexists. split; [exact Hp |]. repeat split.
  - eexists. split; [exact Hp |]. split; [reflexivity |].
    split; [reflexivity |]. cbn [Radar1.delivered]. now rewrite app_nil_r.
Qed.

Lemma radar1_parse_whole_frame (f1 f2 : bytes) (idx : nat) :
  whole_frame f1 idx ->
  Radar1._parse_pointcloud (f1 ++ f2) = Radar1._parse_pointcloud f1.
Proof.
  intros (Hf & Hl & Hall).
  rewrite <- (firstn_all f1) at 1.
  apply radar1_parse_prefix with (idx := idx); auto.
Qed.

Lemma radar1_two_frames_turn (cb : Radar1.callback) (f1 f2 : bytes) (idx : nat)
    (w : Radar1.world) :
  returns_normally cb -> Radar1.buffer (Radar1.self w) = [] ->
  whole_frame f1 idx ->
  exists pts w',
    Radar1._parse_pointcloud f1 = Ret pts /\
    Radar1.loop_body cb (Waiting (f1 ++ f2)) w = (Ret tt, w') /\
    Radar1.buffer (Radar1.self w') = [] /\
    Radar1.delivered w' = Radar1.delivered w ++ (if negb (len pts =? 0) then [pts] else []).
Proof.
  intros Hcb Hw Hwf.
  assert (contains MAGIC_WORD (Radar1.buffer (Radar1.self w) ++ (f1 ++ f2)) = true)
    as Hc by (rewrite Hw; exact (@whole_frame_contains f1 f2 idx Hwf)).
  destruct (@radar1_sync_turn cb (f1 ++ f2) w Hcb
              (@whole_frame_nonempty f1 f2 idx Hwf) Hc)
    as (pts & w' & Hp & Hrun & Hbuf & Hdel).
  rewrite Hw in Hp. cbn [app] in Hp.
  rewrite (@radar1_parse_whole_frame f1 f2 idx Hwf) in Hp.
  exists pts, w'. auto.
Qed.

(** A turn that runs to its end never leaves the sync word behind. *)
Lemma radar_turn_leaves_no_sync (cb : Radar.callback) (ev : serial_event)
    (w w' : Radar.world) (u : unit) :
  contains MAGIC_WORD (Radar.buffer (Radar.self w)) = false ->
  Radar.loop_body cb ev w = (Ret u, w') ->
  contains MAGIC_WORD (Radar.buffer (Radar.self w')) = false.
Proof.
  intros Hinv Hrun.
  destruct ev as [bs |]; [| discriminate Hrun].
  destruct bs as [| b bs].
  { rewrite radar_loop_body_idle in Hrun. injection Hrun as _ <-. exact Hinv. }
  assert (b :: bs <> []) as Hbs by discriminate.
  destruct (contains MAGIC_WORD (Radar.buffer (Radar.self w) ++ b :: bs)) eqn:Hc.
  - destruct (radar_parse_returns (Radar.buffer (Radar.self w) ++ b :: bs))
      as [pts Hp].
    rewrite (@radar_loop_body_sync cb (b :: bs) w pts Hbs Hc Hp) in Hrun.
    cbv zeta in Hrun.
    destruct (0 <? len pts).
    + destruct (cb pts _) as [[[] | e] s2]; [| discriminate Hrun].
      injection Hrun as _ <-. reflexivity.
    + injection Hrun as _ <-. reflexivity.
  - rewrite (@radar_loop_body_nosync cb (b :: bs) w Hbs Hc) in Hrun.
    injection Hrun as _ <-. exact Hc.
Qed.

(** Whatever the consumer does, a turn that found the sync word ends with
    an empty buffer or with the worker gone. *)
Lemma radar_sync_step (cb : Radar.callback) (bs : bytes) (w : Radar.world) :
  Radar.running (Radar.self w) = true -> bs <> [] ->
  contains MAGIC_WORD (Radar.buffer (Radar.self w) ++ bs) = true ->
  exists w',
    (Radar.worker_step cb (Waiting bs) w = (Looping, w') /\
     Radar.buffer (Radar.self w') = []) \/
    (Radar.worker_step cb (Waiting bs) w = (Finished, w') /\
     Radar.capturing (Radar.self w') = false).
Proof.
  intros Hr Hbs Hc. unfold Radar.worker_step. rewrite Hr.
  destruct (radar_parse_returns (Radar.buffer (Radar.self w) ++ bs)) as [pts Hp].
  rewrite (@radar_loop_body_sync cb bs w pts Hbs Hc Hp). cbv zeta.
  destruct (0 <? len pts).
  - destruct (cb pts _) as [[[] | e] s2]; eexists; [left | right];
      split; reflexivity.
  - eexists. left. split; reflexivity.
Qed.

(** A turn that runs to its end never leaves the sync word behind. *)
Lemma radar1_turn_leaves_no_sync (cb : Radar1.callback) (ev : serial_event)
    (w w' : Radar1.world) (u : unit) :
  contains MAGIC_WORD (Radar1.buffer (Radar1.self w)) = false ->
  Radar1.loop_body cb ev w = (Ret u, w') ->
  contains MAGIC_WORD (Radar1.buffer (Radar1.self w')) = false.
Proof.
  intros Hinv Hrun.
  destruct ev as [bs |]; [| discriminate Hrun].
  destruct bs as [| b bs].
  { rewrite radar1_loop_body_idle in Hrun. injection Hrun as _ <-. exact Hinv. }
  assert (b :: bs <> []) as Hbs by discriminate.
  destruct (contains MAGIC_WORD (Radar1.buffer (Radar1.self w) ++ b :: bs)) eqn:Hc.
  - destruct (radar1_parse_returns (Radar1.buffer (Radar1.self w) ++ b :: bs))
      as [pts Hp].
    rewrite (@radar1_loop_body_sync cb (b :: bs) w pts Hbs Hc Hp) in Hrun.
    cbv zeta in Hrun.
    destruct (negb (len pts =? 0)).
    + destruct (cb pts _) as [[[] | e] s2]; [| discriminate Hrun].
      injection Hrun as _ <-. reflexivity.
    + injection Hrun as _ <-. reflexivity.
  - rewrite (@radar1_loop_body_nosync cb (b :: bs) w Hbs Hc) in Hrun.
    injection Hrun as _ <-. exact Hc.
Qed.

(** Whatever the consumer does, a turn that found the sync word ends with
    an empty buffer or with the worker gone. *)
Lemma radar1_sync_step (cb : Radar1.callback) (bs : bytes) (w : Radar1.world) :
  Radar1.running (Radar1.self w) = true -> bs <> [] ->
  contains MAGIC_WORD (Radar1.buffer (Radar1.self w) ++ bs) = true ->
  exists w',
    (Radar1.worker_step cb (Waiting bs) w = (Looping, w') /\
     Radar1.buffer (Radar1.self w') = []) \/
    (Radar1.worker_step cb (Waiting bs) w = (Finished, w') /\
     Radar1.capturing (Radar1.self w') = false).
Proof.
  intros Hr Hbs Hc. unfold Radar1.worker_step. rewrite Hr.
  destruct (radar1_parse_returns (Radar1.buffer (Radar1.self w) ++ bs)) as [pts Hp].
  rewrite (@radar1_loop_body_sync cb bs w pts Hbs Hc Hp). cbv zeta.
  destruct (negb (len pts =? 0)).
  - destruct (cb pts _) as [[[] | e] s2]; eexists; [left | right];
      split; reflexivity.
  - eexists. left. split; reflexivity.
Qed.

Lemma quiet_callback_returns (R : Type) :
  returns_normally (@quiet_callback R).
Proof. intros pts r. reflexivity. Qed.

Lemma three_record_frame_whole : whole_frame three_record_frame 0.
Proof.
  split; [reflexivity |].
  split; [vm_compute; lia | intros _; vm_compute; lia].
Qed.

(** C4. In a turn of the capture loop that finds the sync word in the
    accumulated buffer and runs to its end (the consumer, if called,
    returns), the buffer is empty afterwards, whether the decoder produced
    points (then the consumer was called once, with them) or not (then it
    was not called). So when the bytes read hold a whole first frame
    followed by anything else, a second frame included, the consumer gets
    the first frame's points at most and nothing of the rest is kept for a
    later turn. A turn that runs to its end never leaves the sync word in
    the buffer, and when the consumer raises instead of returning the
    worker stops, so no worker ever goes on with an uncleared buffer.
    Shown for [radar.py] and [radar1.py]. *)
Theorem sync_found_buffer_cleared :
  (forall (cb : Radar.callback) (bs : bytes) (w : Radar.world),
      returns_normally cb -> bs <> [] ->
      contains MAGIC_WORD (Radar.buffer (Radar.self w) ++ bs) = true ->
      exists pts w',
        Radar._parse_pointcloud (Radar.buffer (Radar.self w) ++ bs) = Ret pts /\
        Radar.loop_body cb (Waiting bs) w = (Ret tt, w') /\
        Radar.buffer (Radar.self w') = [] /\
        Radar.delivered w'
        = Radar.delivered w ++ (if 0 <? len pts then [pts] else [])) /\
  (forall (cb : Radar.callback) (f1 f2 : bytes) (idx : nat) (w : Radar.world),
      returns_normally cb -> Radar.buffer (Radar.self w) = [] ->
      whole_frame f1 idx ->
      exists pts w',
        Radar._parse_pointcloud f1 = Ret pts /\
        Radar.loop_body cb (Waiting (f1 ++ f2)) w = (Ret tt, w') /\
        Radar.buffer (Radar.self w') = [] /\
        Radar.delivered w'
        = Radar.delivered w ++ (if 0 <? len pts then [pts] else [])) /\
  (forall (cb : Radar.callback) (ev : serial_event) (w w' : Radar.world)
          (u : unit),
      contains MAGIC_WORD (Radar.buffer (Radar.self w)) = false ->
      Radar.loop_body cb ev w = (Ret u, w') ->
      contains MAGIC_WORD (Radar.buffer (Radar.self w')) = false) /\
  (forall (cb : Radar.callback) (bs : bytes) (w : Radar.world),
      Radar.running (Radar.self w) = true -> bs <> [] ->
      contains MAGIC_WORD (Radar.buffer (Radar.self w) ++ bs) = true ->
      exists w',
        (Radar.worker_step cb (Waiting bs) w = (Looping, w') /\
         Radar.buffer (Radar.self w') = []) \/
        (Radar.worker_step cb (Waiting bs) w = (Finished, w') /\
         Radar.capturing (Radar.self w') = false)) /\
  (forall (cb : Radar1.callback) (bs : bytes) (w : Radar1.world),
      returns_normally cb -> bs <> [] ->
      contains MAGIC_WORD (Radar1.buffer (Radar1.self w) ++ bs) = true ->
      exists pts w',
        Radar1._parse_pointcloud (Radar1.buffer (Radar1.self w) ++ bs)
        = Ret pts /\
        Radar1.loop_body cb (Waiting bs) w = (Ret tt, w') /\
        Radar1.buffer (Radar1.self w') = [] /\
        Radar1.delivered w'
        = Radar1.delivered w ++ (if negb (len pts =? 0) then [pts] else [])) /\
  (forall (cb : Radar1.callback) (f1 f2 : bytes) (idx : nat) (w : Radar1.world),
      returns_normally cb -> Radar1.buffer (Radar1.self w) = [] ->
      whole_frame f1 idx ->
      exists pts w',
        Radar1._parse_pointcloud f1 = Ret pts /\
        Radar1.loop_body cb (Waiting (f1 ++ f2)) w = (Ret tt, w') /\
        Radar1.buffer (Radar1.self w') = [] /\
        Radar1.delivered w'
        = Radar1.delivered w ++ (if negb (len pts =? 0) then [pts] else [])) /\
  (forall (cb : Radar1.callback) (ev : serial_event) (w w' : Radar1.world)
          (u : unit),
      contains MAGIC_WORD (Radar1.buffer (Radar1.self w)) = false ->
      Radar1.loop_body cb ev w = (Ret u, w') ->
      contains MAGIC_WORD (Radar1.buffer (Radar1.self w')) = false) /\
  (forall (cb : Radar1.callback) (bs : bytes) (w : Radar1.world),
      Radar1.running (Radar1.self w) = true -> bs <> [] ->
      contains MAGIC_WORD (Radar1.buffer (Radar1.self w) ++ bs) = true ->
      exists w',
        (Radar1.worker_step cb (Waiting bs) w = (Looping, w') /\
         Radar1.buffer (Radar1.self w') = []) \/
        (Radar1.worker_step cb (Waiting bs) w = (Finished, w') /\
         Radar1.capturing (Radar1.self w') = false)).
Proof.
  split; [exact radar_sync_turn |].
  split; [exact radar_two_frames_turn |].
  split; [exact radar_turn_leaves_no_sync |].
  split; [exact radar_sync_step |].
  split; [exact radar1_sync_turn |].
  split; [exact radar1_two_frames_turn |].
  split; [exact radar1_turn_leaves_no_sync | exact radar1_sync_step].
Qed.

Lemma sync_found_buffer_cleared_witness :
  whole_frame three_record_frame 0 /\
  exists w',
    Radar.loop_body quiet_callback
      (Waiting (three_record_frame ++ odd_length_frame)) radar_capturing
    = (Ret tt, w') /\
    Radar.buffer (Radar.self w') = [] /\
    Radar.delivered w'
    = [ np_array
          [ {| px := f32_one; py := 0; pz := 0; pvel := f32_half |};
            {| px := 0; py := f32_two; pz := 0; pvel := f32_half |} ] ].
Proof.
  split; [exact three_record_frame_whole |].
  destruct sync_found_buffer_cleared as (_ & K & _).
  destruct (K quiet_callback three_record_frame odd_length_frame 0
              radar_capturing (@quiet_callback_returns _) eq_refl
              three_record_frame_whole)
    as (pts & w' & Hp & Hrun & Hbuf & Hdel).
  exists w'. split; [exact Hrun |]. split; [exact Hbuf |].
  rewrite Hdel. vm_compute in Hp. injection Hp as <-. reflexivity.
Defined.

(** C4 as stated fails: a whole frame arrives, the sync word is found, the
    consumer raises, and the turn ends with the frame still in the buffer:
    [self.buffer = b''] comes after the call and is skipped. *)
Lemma buffer_kept_when_consumer_raises :
  ~ (contains MAGIC_WORD
       (Radar.buffer (Radar.self radar_capturing) ++ three_record_frame)
     = true ->
     Radar.buffer
       (Radar.self
          (snd (Radar.worker_step raising_callback
                  (Waiting three_record_frame) radar_capturing)))
     = []).
Proof. intros H. specialize (H eq_refl). vm_compute in H. discriminate H. Qed.

(** ** Starting a capture *)













(** ** A frame whose header has not arrived in full *)

(** C5, as amended. When fewer than 40 bytes are held from the sync offset
    on, unpacking the header or the TLV header raises inside
    [_parse_pointcloud], which answers with the empty 0-by-4 array, the
    value it gives for every other failure. The turn of the loop ends
    normally: nothing is printed, the consumer is not called, the point
    count is set to 0, and the buffer is cleared, so the bytes of the
    partly received frame are dropped and not kept for the next turn. *)
Theorem partial_header_discarded (cb : Radar.callback) (bs : bytes)
    (w : Radar.world) (idx : nat) :
  bs <> [] ->
  find_first MAGIC_WORD (Radar.buffer (Radar.self w) ++ bs) = Some idx ->
  length (Radar.buffer (Radar.self w) ++ bs) < idx + 40 ->
  Radar.parse_body (Radar.buffer (Radar.self w) ++ bs) = Raise StructError /\
  Radar._parse_pointcloud (Radar.buffer (Radar.self w) ++ bs)
  = Ret np_empty_0_4 /\
  exists w',
    Radar.loop_body cb (Waiting bs) w = (Ret tt, w') /\
    Radar.delivered w' = Radar.delivered w /\
    Radar.console w' = Radar.console w /\
    Radar.buffer (Radar.self w') = [] /\
    Radar.points_count (Radar.self w') = 0 /\
    Radar.running (Radar.self w') = Radar.running (Radar.self w) /\
    Radar.capturing (Radar.self w') = Radar.capturing (Radar.self w).
Proof.
  intros Hbs Hf Hl.
  assert (Radar.parse_body (Radar.buffer (Radar.self w) ++ bs)
          = Raise StructError) as Hb
      by (apply radar_parse_body_short with (idx := idx); [exact Hf | lia]).
  assert (Radar._parse_pointcloud (Radar.buffer (Radar.self w) ++ bs)
          = Ret np_empty_0_4) as Hp
      by (apply radar_parse_short with (idx := idx); [exact Hf | lia]).
  split; [exact Hb |]. split; [exact Hp |].
  assert (contains MAGIC_WORD (Radar.buffer (Radar.self w) ++ bs) = true)
    as Hc by (rewrite contains_find_first; now rewrite Hf).
  rewrite (@radar_loop_body_sync cb bs w np_empty_0_4 Hbs Hc Hp).
  cbn. eexists. repeat split.
Qed.

Lemma partial_header_discarded_witness :
  find_first MAGIC_WORD partial_header = Some 0 /\
  length partial_header < 0 + 40 /\
  Radar._parse_pointcloud partial_header = Ret np_empty_0_4 /\
  exists w',
    Radar.loop_body quiet_callback (Waiting partial_header) radar_capturing
    = (Ret tt, w') /\
    Radar.delivered w' = [] /\
    Radar.buffer (Radar.self w') = [].
Proof.
  assert (partial_header <> []) as Hbs by discriminate.
  assert (find_first MAGIC_WORD
            (Radar.buffer (Radar.self radar_capturing) ++ partial_header)
          = Some 0) as Hf by reflexivity.
  assert (length (Radar.buffer (Radar.self radar_capturing) ++ partial_header)
          < 0 + 40) as Hl by (vm_compute; lia).
  destruct (@partial_header_discarded quiet_callback partial_header
              radar_capturing 0 Hbs Hf Hl)
    as (_ & Hp & w' & Hrun & Hdel & _ & Hbuf & _).
  split; [exact Hf |]. split; [exact Hl |]. split; [exact Hp |].
  exists w'. split; [exact Hrun |]. split; [exact Hdel | exact Hbuf].
Defined.

(** C5 as stated fails: the sync word and 10 header bytes arrive, and the
    turn leaves the buffer empty instead of holding them. *)
Lemma partial_header_not_preserved :
  ~ (Radar.buffer
       (Radar.self
          (snd (Radar.loop_body quiet_callback (Waiting partial_header)
                  radar_capturing)))
     = Radar.buffer (Radar.self radar_capturing) ++ partial_header).
Proof. vm_compute. discriminate. Qed.

(** ** An exception inside the worker *)

Lemma radar_worker_failure (cb : Radar.callback) (ev : serial_event)
    (w w1 : Radar.world) (e : exn) :
  Radar.running (Radar.self w) = true ->
  Radar.loop_body cb ev w = (Raise e, w1) ->
  exists w',
    Radar.worker_step cb ev w = (Finished, w') /\
    Radar.console w' = Radar.console w1 ++ [e] /\
    Radar.capturing (Radar.self w') = false /\
    Radar.running (Radar.self w') = Radar.running (Radar.self w1) /\
    Radar.buffer (Radar.self w') = Radar.buffer (Radar.self w1) /\
    Radar.delivered w' = Radar.delivered w1 /\
    Radar.threads w' = pred (Radar.threads w1).
Proof.
  intros Hr Hrun. unfold Radar.worker_step. rewrite Hr, Hrun.
  eexists. repeat split.
Qed.

Lemma radar1_worker_failure (cb : Radar1.callback) (ev : serial_event)
    (w w1 : Radar1.world) (e : exn) :
  Radar1.running (Radar1.self w) = true ->
  Radar1.loop_body cb ev w = (Raise e, w1) ->
  exists w',
    Radar1.worker_step cb ev w = (Finished, w') /\
    Radar1.console w' = Radar1.console w1 ++ [e] /\
    Radar1.capturing (Radar1.self w') = false /\
    Radar1.running (Radar1.self w') = Radar1.running (Radar1.self w1) /\
    Radar1.buffer (Radar1.self w') = Radar1.buffer (Radar1.self w1) /\
    Radar1.delivered w' = Radar1.delivered w1 /\
    Radar1.threads w' = pred (Radar1.threads w1).
Proof.
  intros Hr Hrun. unfold Radar1.worker_step. rewrite Hr, Hrun.
  eexists. repeat split.
Qed.

(** C7, as amended. An exception raised inside a turn of the worker is
    caught and printed, and the worker leaves its loop; on its way out it
    sets [capturing] to False. Everything else stays as the failure found
    it: in particular [running], which is still True after a failure of
    the port although no worker runs any more. Shown for [radar.py] and
    [radar1.py]. *)
Theorem worker_failure_resets_capturing :
  (forall (cb : Radar.callback) (ev : serial_event) (w w1 : Radar.world)
          (e : exn),
      Radar.running (Radar.self w) = true ->
      Radar.loop_body cb ev w = (Raise e, w1) ->
      exists w',
        Radar.worker_step cb ev w = (Finished, w') /\
        Radar.console w' = Radar.console w1 ++ [e] /\
        Radar.capturing (Radar.self w') = false /\
        Radar.running (Radar.self w') = Radar.running (Radar.self w1) /\
        Radar.buffer (Radar.self w') = Radar.buffer (Radar.self w1) /\
        Radar.delivered w' = Radar.delivered w1 /\
        Radar.threads w' = pred (Radar.threads w1)) /\
  (forall (cb : Radar.callback) (w : Radar.world),
      Radar.running (Radar.self w) = true ->
      exists w',
        Radar.worker_step cb PortFailure w = (Finished, w') /\
        Radar.console w' = Radar.console w ++ [SerialException] /\
        Radar.capturing (Radar.self w') = false /\
        Radar.running (Radar.self w') = true) /\
  (forall (cb : Radar1.callback) (ev : serial_event) (w w1 : Radar1.world)
          (e : exn),
      Radar1.running (Radar1.self w) = true ->
      Radar1.loop_body cb ev w = (Raise e, w1) ->
      exists w',
        Radar1.worker_step cb ev w = (Finished, w') /\
        Radar1.console w' = Radar1.console w1 ++ [e] /\
        Radar1.capturing (Radar1.self w') = false /\
        Radar1.running (Radar1.self w') = Radar1.running (Radar1.self w1) /\
        Radar1.buffer (Radar1.self w') = Radar1.buffer (Radar1.self w1) /\
        Radar1.delivered w' = Radar1.delivered w1 /\
        Radar1.threads w' = pred (Radar1.threads w1)) /\
  (forall (cb : Radar1.callback) (w : Radar1.world),
      Radar1.running (Radar1.self w) = true ->
      exists w',
        Radar1.worker_step cb PortFailure w = (Finished, w') /\
        Radar1.console w' = Radar1.console w ++ [SerialException] /\
        Radar1.capturing (Radar1.self w') = false /\
        Radar1.running (Radar1.self w') = true).
Proof.
  split; [exact radar_worker_failure |]. split.
  { intros cb w Hr.
    destruct (@radar_worker_failure cb PortFailure w w SerialException Hr
                (radar_loop_body_failure cb w))
      as (w' & Hs & Hcon & Hcap & Hrun & _).
    exists w'. rewrite Hr in Hrun. auto. }
  split; [exact radar1_worker_failure |].
  intros cb w Hr.
  destruct (@radar1_worker_failure cb PortFailure w w SerialException Hr
              (radar1_loop_body_failure cb w))
    as (w' & Hs & Hcon & Hcap & Hrun & _).
  exists w'. rewrite Hr in Hrun. auto.
Qed.

Lemma worker_failure_resets_capturing_witness :
  Radar.running (Radar.self radar_capturing) = true /\
  Radar.capturing (Radar.self radar_capturing) = true /\
  exists w',
    Radar.worker_step quiet_callback PortFailure radar_capturing
    = (Finished, w') /\
    Radar.console w' = [SerialException] /\
    Radar.capturing (Radar.self w') = false /\
    Radar.running (Radar.self w') = true.
Proof.
  split; [reflexivity |]. split; [reflexivity |].
  destruct worker_failure_resets_capturing as (_ & K & _).
  destruct (K quiet_callback radar_capturing eq_refl)
    as (w' & Hs & Hcon & Hcap & Hrun).
  exists w'. auto.
Defined.

(** C7 as stated fails: the flag was True when the port failed and is
    False once the worker has gone. *)
Lemma capturing_not_left_as_found :
  ~ (Radar.capturing
       (Radar.self
          (snd (Radar.worker_step quiet_callback PortFailure radar_capturing)))
     = Radar.capturing (Radar.self radar_capturing)).
Proof. vm_compute. discriminate. Qed.

(** ** The model run on the scenarios of the specification *)

(** Signed zeros compare equal to zero; the smallest subnormal and a NaN
    do not. *)
Example zero_test_samples :
  f32_eq_zero 0 = true /\
  f32_eq_zero f32_neg_zero = true /\ f32_sign f32_neg_zero = true /\
  f32_eq_zero 1 = false /\ f32_eq_zero 0x7FC00000 = false.
Proof. repeat split. Qed.

(** Scenario A: three records, the second all zero; records 1 and 3 come
    back, in that order, from every copy. *)
Example scenario_A :
  let expected :=
    Ret (np_array
           [ {| px := f32_one; py := 0; pz := 0; pvel := f32_half |};
             {| px := 0; py := f32_two; pz := 0; pvel := f32_half |} ]) in
  Radar._parse_pointcloud three_record_frame = expected /\
  Iwr1843._parse_pointcloud three_record_frame = expected /\
  Radar1._parse_pointcloud three_record_frame = expected /\
  Radar2._parse_pointcloud three_record_frame = expected.
Proof. repeat split; vm_compute; reflexivity. Qed.

(** Scenario B: a TLV length of 16100 gives 1006 points and an empty
    result. *)
Example scenario_B :
  (tlv_length_at oversized_frame 0 / 16 = 1006)%Z /\
  Radar._parse_pointcloud oversized_frame = Ret np_empty_0_4.
Proof. split; vm_compute; reflexivity. Qed.

(** A session of [radar.py]: start, an idle turn, a frame, then
    [stop_capture] and the worker's last look at [running]. *)
Example radar_session :
  let '(_, w1) := Radar._capture_loop quiet_callback
                    [Waiting []; Waiting three_record_frame] radar_capturing in
  let '(status, w2) :=
    Radar.worker_step quiet_callback (Waiting []) (Radar.stop_capture w1) in
  length (Radar.delivered w1) = 1 /\
  Radar.points_count (Radar.self w1) = 2 /\
  Radar.buffer (Radar.self w1) = [] /\
  status = Finished /\
  Radar.capturing (Radar.self w2) = false /\
  Radar.threads w2 = 0.
Proof. vm_compute. repeat split. Qed.

(** The same in [radar1.py], where the decoder sees a frame cut short. *)
Example radar1_session :
  let '(_, w1) := Radar1.loop quiet_callback
                    [Waiting truncated_frame] radar1_capturing in
  let '(status, w2) :=
    Radar1.worker_step quiet_callback (Waiting []) (Radar1.stop_capture w1) in
  Radar1.delivered w1 = [] /\
  Radar1.buffer (Radar1.self w1) = [] /\
  status = Finished /\
  Radar1.threads w2 = 0.
Proof. vm_compute. repeat split. Qed.

(** [radar2.py]: a fresh object refuses to start, a connected one starts. *)
Example radar2_start :
  Radar2.start_capture quiet_callback
    {| Radar2.self := Radar2.__init__; Radar2.threads := 0;
       Radar2.delivered := []; Radar2.console := [] |}
  = (false,
     {| Radar2.self := Radar2.__init__; Radar2.threads := 0;
        Radar2.delivered := []; Radar2.console := [] |}) /\
  fst (Radar2.start_capture quiet_callback radar2_connected) = true.
Proof. split; reflexivity. Qed.

(** * Further properties of the code *)

(** ** Packing and unpacking 32-bit words *)

Lemma byte_of_val (z : Z) :
  (0 <= z < 256)%Z ->
  byte_val (match Byte.of_N (Z.to_N z) with Some b => b | None => x00 end) = z.
Proof.
  intros Hz. destruct (Byte.of_N (Z.to_N z)) as [b |] eqn:E.
  - apply Byte.to_of_N in E. unfold byte_val. rewrite E. lia.
  - apply Byte.of_N_None_iff in E. lia.
Qed.

Lemma land_255_range (z : Z) : (0 <= Z.land z 255 < 256)%Z.
Proof.
  change 255%Z with (Z.ones 8). rewrite Z.land_ones by lia.
  apply Z.mod_pos_bound. reflexivity.
Qed.

Lemma u32_high_bits (w n : Z) :
  is_u32 w -> (32 <= n)%Z -> Z.testbit w n = false.
Proof.
  intros [Hlo Hhi] Hn.
  destruct (Z.eq_dec w 0) as [-> | Hw]; [apply Z.bits_0 |].
  apply Z.bits_above_log2; [lia |].
  assert (Z.log2 w < 32)%Z by (apply Z.log2_lt_pow2; lia). lia.
Qed.

(** The four bytes of a word, put together again, give the word. *)
Lemma u32_from_bytes (w : Z) :
  is_u32 w ->
  Z.lor (Z.land (Z.shiftr w 0) 255)
    (Z.lor (Z.shiftl (Z.land (Z.shiftr w 8) 255) 8)
       (Z.lor (Z.shiftl (Z.land (Z.shiftr w 16) 255) 16)
          (Z.shiftl (Z.land (Z.shiftr w 24) 255) 24))) = w.
Proof.
  intros Hw. apply Z.bits_inj'. intros n Hn.
  change 255%Z with (Z.ones 8).
  rewrite !Z.lor_spec, !Z.shiftl_spec, !Z.land_spec, !Z.testbit_ones by lia.
  rewrite Z.shiftr_spec by lia. rewrite Z.add_0_r.
  destruct (Z.leb_spec 0 n); [| lia].
  destruct (Z.ltb_spec n 8).
  { rewrite andb_true_r.
    destruct (Z.leb_spec 0 (n - 8)); [lia |].
    destruct (Z.leb_spec 0 (n - 16)); [lia |].
    destruct (Z.leb_spec 0 (n - 24)); [lia |].
    now rewrite !andb_false_r, !orb_false_r. }
  rewrite andb_false_r, orb_false_l.
  destruct (Z.leb_spec 0 (n - 8)); [| lia].
  rewrite (Z.shiftr_spec w 8 (n - 8)) by lia.
  replace (n - 8 + 8)%Z with n by lia.
  destruct (Z.ltb_spec (n - 8) 8).
  { rewrite andb_true_r.
    destruct (Z.leb_spec 0 (n - 16)); [lia |].
    destruct (Z.leb_spec 0 (n - 24)); [lia |].
    now rewrite !andb_false_r, !orb_false_r. }
  rewrite andb_false_r, orb_false_l.
  destruct (Z.leb_spec 0 (n - 16)); [| lia].
  rewrite (Z.shiftr_spec w 16 (n - 16)) by lia.
  replace (n - 16 + 16)%Z with n by lia.
  destruct (Z.ltb_spec (n - 16) 8).
  { rewrite andb_true_r.
    destruct (Z.leb_spec 0 (n - 24)); [lia |].
    now rewrite !andb_false_r, !orb_false_r. }
  rewrite andb_false_r, orb_false_l.
  destruct (Z.leb_spec 0 (n - 24)); [| lia].
  rewrite (Z.shiftr_spec w 24 (n - 24)) by lia.
  replace (n - 24 + 24)%Z with n by lia.
  destruct (Z.ltb_spec (n - 24) 8).
  { now rewrite andb_true_r. }
  rewrite andb_false_r. symmetry. apply u32_high_bits; [exact Hw | lia].
Qed.

Lemma pack_I_length (w : Z) : length (pack_I w) = 4.
Proof. reflexivity. Qed.

(** [unpack('<I', pack('<I', w)) = w], wherever the four bytes sit. *)
Lemma word_at_pack_I (pre post : bytes) (w : Z) :
  is_u32 w -> word_at (pre ++ pack_I w ++ post) (length pre) = w.
Proof.
  intros Hw. unfold word_at.
  rewrite <- (Nat.add_0_r (length pre)) at 1.
  rewrite !app_nth2_plus.
  unfold pack_I. cbn [map app nth Z.of_nat Pos.of_succ_nat Pos.succ Z.mul Pos.mul].
  rewrite !byte_of_val by apply land_255_range.
  apply u32_from_bytes. exact Hw.
Qed.

(** ** Decoding what was encoded *)

Lemma slice_app_middle (pre mid post : bytes) :
  slice (pre ++ mid ++ post) (length pre) (length pre + length mid) = mid.
Proof.
  unfold slice. rewrite skipn_app, skipn_all, Nat.sub_diag. cbn [skipn app].
  replace (length pre + length mid - length pre) with (length mid) by lia.
  rewrite firstn_app, firstn_all, Nat.sub_diag. cbn [firstn].
  apply app_nil_r.
Qed.

Lemma slice_app_shift (junk f : bytes) (a b : nat) :
  slice (junk ++ f) (length junk + a) (length junk + b) = slice f a b.
Proof.
  unfold slice. rewrite skipn_app, skipn_all2 by lia.
  cbn [app]. f_equal; [lia | f_equal; lia].
Qed.

Lemma starts_with_app (pat rest : bytes) : starts_with pat (pat ++ rest) = true.
Proof.
  induction pat as [| p pat IH]; [reflexivity |]. cbn [app starts_with].
  rewrite IH, andb_true_r. now apply Byte.byte_dec_lb.
Qed.

Lemma find_first_at_start (rest : bytes) :
  find_first MAGIC_WORD (MAGIC_WORD ++ rest) = Some 0.
Proof. reflexivity. Qed.

Lemma pack_point_length (p : point) : length (pack_point p) = 16.
Proof. reflexivity. Qed.

Lemma record_at_pack_point (pre post : bytes) (p : point) :
  point_on_wire p ->
  record_at (pre ++ pack_point p ++ post) (length pre) 0 = p.
Proof.
  intros (Hx & Hy & Hz & Hv). unfold record_at.
  replace (length pre + 0 * 16 + 16) with (length pre + length (pack_point p))
    by (rewrite pack_point_length; lia).
  replace (length pre + 0 * 16) with (length pre) by lia.
  rewrite slice_app_middle. destruct p as [x y z v]. cbn [px py pz pvel] in *.
  unfold pack_point, pack_4f. cbn [px py pz pvel].
  f_equal.
  - exact (@word_at_pack_I [] _ x Hx).
  - exact (@word_at_pack_I (pack_I x) _ y Hy).
  - rewrite (app_assoc (pack_I x)).
    exact (@word_at_pack_I (pack_I x ++ pack_I y) _ z Hz).
  - rewrite (app_assoc (pack_I x)), (app_assoc (pack_I x ++ pack_I y)).
    rewrite <- (app_nil_r (pack_I v)).
    exact (@word_at_pack_I ((pack_I x ++ pack_I y) ++ pack_I z) [] v Hv).
Qed.

Lemma wire_records_step (buf : bytes) (ds n : nat) :
  wire_records buf ds (S n)
  = record_at buf ds 0 :: wire_records buf (ds + 16) n.
Proof.
  unfold wire_records. cbn [seq map]. f_equal.
  rewrite <- seq_shift, map_map. apply map_ext. intros i.
  unfold record_at. now replace (ds + S i * 16) with (ds + 16 + i * 16) by lia.
Qed.

Lemma concat_pack_point_length (recs : list point) :
  length (concat (map pack_point recs)) = 16 * length recs.
Proof.
  induction recs as [| p recs IH]; [reflexivity |].
  cbn [map concat]. rewrite length_app, IH, pack_point_length. cbn [length]. lia.
Qed.

(** The records read back from a packed payload are the records packed. *)
Lemma wire_records_packed (pre post : bytes) (recs : list point) :
  Forall point_on_wire recs ->
  wire_records (pre ++ concat (map pack_point recs) ++ post)
    (length pre) (length recs) = recs.
Proof.
  revert pre. induction recs as [| p recs IH]; intros pre Hwf;
    [reflexivity |].
  inversion Hwf as [| ? ? Hp Hrest]; subst.
  cbn [map concat length]. rewrite wire_records_step.
  rewrite <- !app_assoc. rewrite record_at_pack_point by exact Hp. f_equal.
  specialize (IH (pre ++ pack_point p) Hrest).
  rewrite length_app, pack_point_length, <- app_assoc in IH. exact IH.
Qed.

Lemma wire_frame_layout (header : bytes) (ty ln : Z) (payload : bytes) :
  length header = 32 ->
  wire_frame header ty ln payload
  = (MAGIC_WORD ++ header) ++ (pack_I ty ++ pack_I ln) ++ payload /\
  length (MAGIC_WORD ++ header) = 40 /\
  length ((MAGIC_WORD ++ header) ++ pack_I ty ++ pack_I ln) = 48.
Proof.
  intros Hh. unfold wire_frame. rewrite <- !app_assoc.
  split; [reflexivity |]. rewrite !length_app, Hh. split; reflexivity.
Qed.

Lemma slice_app_at (pre mid post : bytes) (a b : nat) :
  a = length pre -> b = a + length mid ->
  slice (pre ++ mid ++ post) a b = mid.
Proof. intros -> ->. apply slice_app_middle. Qed.

Lemma wire_frame_tlv (header : bytes) (ty ln : Z) (payload : bytes) :
  length header = 32 -> is_u32 ty -> is_u32 ln ->
  tlv_type_at (wire_frame header ty ln payload) 0 = ty /\
  tlv_length_at (wire_frame header ty ln payload) 0 = ln.
Proof.
  intros Hh Hty Hln.
  destruct (wire_frame_layout header ty ln payload Hh) as (-> & H40 & _).
  unfold tlv_type_at, tlv_length_at.
  rewrite (@slice_app_at (MAGIC_WORD ++ header) (pack_I ty ++ pack_I ln)
             payload (0 + 40) (0 + 48))
    by (rewrite ?H40; reflexivity).
  split.
  - exact (@word_at_pack_I [] _ ty Hty).
  - rewrite <- (app_nil_r (pack_I ln)).
    exact (@word_at_pack_I (pack_I ty) [] ln Hln).
Qed.

(** X1. Decoding inverts the wire format. A frame made of the sync word,
    any 32 header bytes, a TLV header and the packed records, followed by
    anything, decodes to those records with the zero triples left out, in
    order: the header words, the bytes after the records and the low four
    bits of the TLV length have no influence. [radar1.py] and [radar2.py]
    do the same when the TLV type is 1. *)
Theorem decode_packed_frame (header rest : bytes) (tlv_type tlv_length : Z)
    (recs : list point) :
  length header = 32 ->
  is_u32 tlv_type -> is_u32 tlv_length ->
  Forall point_on_wire recs ->
  (tlv_length / 16)%Z = Z.of_nat (length recs) ->
  length recs <= 1000 ->
  let buffer := wire_frame header tlv_type tlv_length
                  (concat (map pack_point recs) ++ rest) in
  Radar._parse_pointcloud buffer = Ret (np_array (filter valid recs)) /\
  Iwr1843._parse_pointcloud buffer = Ret (np_array (filter valid recs)) /\
  (tlv_type = 1%Z ->
   Radar1._parse_pointcloud buffer = Ret (np_array (filter valid recs)) /\
   Radar2._parse_pointcloud buffer = Ret (np_array (filter valid recs))).
Proof.
  intros Hh Hty Hln Hwf Hq Hn buffer.
  assert (find_first MAGIC_WORD buffer = Some 0) as Hf by reflexivity.
  destruct (wire_frame_layout header tlv_type tlv_length
              (concat (map pack_point recs) ++ rest) Hh) as (Hlay & H40 & H48).
  destruct (wire_frame_tlv header (concat (map pack_point recs) ++ rest)
              Hh Hty Hln) as (Htype & Hlen).
  fold buffer in Hlay, Htype, Hlen.
  assert (length buffer = 48 + 16 * length recs + length rest) as Hsize.
  { rewrite Hlay, app_assoc, length_app, H48, length_app,
      concat_pack_point_length. lia. }
  assert (wire_records buffer (0 + 48) (length recs) = recs) as Hrecs.
  { rewrite Hlay, app_assoc. change (0 + 48) with 48. rewrite <- H48.
    now apply wire_records_packed. }
  assert (Z.to_nat (tlv_length / 16) = length recs) as Hcount by lia.
  assert (Radar._parse_pointcloud buffer = Ret (np_array (filter valid recs)))
    as R.
  { rewrite (@radar_parse_found buffer 0 Hf) by lia.
    rewrite Hlen, Hcount.
    destruct (Z.gtb_spec (tlv_length / 16) 1000); [lia |].
    rewrite min_held by lia. now rewrite Hrecs. }
  split; [exact R |]. split; [now rewrite iwr1843_parse_eq |].
  intros Hone.
  assert (Radar1._parse_pointcloud buffer = Ret (np_array (filter valid recs)))
    as R1.
  { rewrite (@radar1_parse_found buffer 0 Hf) by lia.
    rewrite Htype, Hlen, Hcount, Hone. cbn [Z.eqb Pos.eqb negb].
    destruct (Z.gtb_spec (tlv_length / 16) 1000); [lia |].
    pose proof (@min_held buffer (0 + 48) (length recs)) as M.
    destruct (Nat.leb_spec (length recs) (records_held buffer (0 + 48)));
      [| lia].
    now rewrite Hrecs. }
  split; [exact R1 | now rewrite radar2_parse_eq].
Qed.

Lemma decode_packed_frame_witness :
  let recs := [ {| px := f32_one; py := 0; pz := 0; pvel := f32_half |};
                {| px := 0; py := f32_neg_zero; pz := 0; pvel := f32_one |};
                {| px := 0; py := f32_two; pz := 0; pvel := f32_half |} ] in
  let buffer := wire_frame (repeat xff 32) 1 55
                  (concat (map pack_point recs) ++ [x01; x02; x03]) in
  Radar._parse_pointcloud buffer
  = Ret (np_array
           [ {| px := f32_one; py := 0; pz := 0; pvel := f32_half |};
             {| px := 0; py := f32_two; pz := 0; pvel := f32_half |} ]) /\
  Radar2._parse_pointcloud buffer
  = Ret (np_array
           [ {| px := f32_one; py := 0; pz := 0; pvel := f32_half |};
             {| px := 0; py := f32_two; pz := 0; pvel := f32_half |} ]).
Proof.
  intros recs buffer.
  assert (Forall point_on_wire recs) as Hwf.
  { repeat constructor; cbv; congruence. }
  destruct (@decode_packed_frame (repeat xff 32) [x01; x02; x03] 1 55 recs
              eq_refl ltac:(cbv; split; congruence)
              ltac:(cbv; split; congruence) Hwf eq_refl ltac:(cbv; lia))
    as (R & _ & K).
  split; [exact R |]. exact (proj2 (K eq_refl)).
Defined.

(** ** Bytes ahead of the sync word *)

Lemma find_first_starts (pat buf : bytes) (i : nat) :
  find_first pat buf = Some i -> starts_with pat (skipn i buf) = true.
Proof.
  revert i. induction buf as [| b buf IH]; intros i; cbn [find_first].
  - destruct (starts_with pat []) eqn:E; [| discriminate].
    intros [= <-]. exact E.
  - destruct (starts_with pat (b :: buf)) eqn:E.
    + intros [= <-]. exact E.
    + destruct (find_first pat buf) as [j |]; [| discriminate].
      intros [= <-]. cbn [skipn]. now apply IH.
Qed.

Lemma find_first_here (pat buf : bytes) :
  starts_with pat buf = true -> find_first pat buf = Some 0.
Proof. intros H. destruct buf; cbn [find_first]; now rewrite H. Qed.

Lemma tlv_length_at_shift (junk f : bytes) :
  tlv_length_at (junk ++ f) (length junk) = tlv_length_at f 0.
Proof.
  unfold tlv_length_at. rewrite slice_app_shift. reflexivity.
Qed.

Lemma tlv_type_at_shift (junk f : bytes) :
  tlv_type_at (junk ++ f) (length junk) = tlv_type_at f 0.
Proof.
  unfold tlv_type_at. rewrite slice_app_shift. reflexivity.
Qed.

Lemma records_held_shift (junk f : bytes) :
  records_held (junk ++ f) (length junk + 48) = records_held f (0 + 48).
Proof.
  unfold records_held. rewrite length_app. f_equal. lia.
Qed.

Lemma wire_records_shift (junk f : bytes) (n : nat) :
  wire_records (junk ++ f) (length junk + 48) n = wire_records f (0 + 48) n.
Proof.
  unfold wire_records. apply map_ext. intros i. unfold record_at.
  replace (length junk + 48 + i * 16) with (length junk + (0 + 48 + i * 16))
    by lia.
  replace (length junk + (0 + 48 + i * 16) + 16)
    with (length junk + (0 + 48 + i * 16 + 16)) by lia.
  now rewrite slice_app_shift.
Qed.

(** X2. Whatever precedes the first sync word is skipped: when the first
    occurrence of the sync word in [junk ++ f] is at the start of [f], every
    copy of the decoder returns on [junk ++ f] what it returns on [f]. *)
Theorem leading_bytes_skipped (junk f : bytes) :
  find_first MAGIC_WORD (junk ++ f) = Some (length junk) ->
  Radar._parse_pointcloud (junk ++ f) = Radar._parse_pointcloud f /\
  Iwr1843._parse_pointcloud (junk ++ f) = Iwr1843._parse_pointcloud f /\
  Radar1._parse_pointcloud (junk ++ f) = Radar1._parse_pointcloud f /\
  Radar2._parse_pointcloud (junk ++ f) = Radar2._parse_pointcloud f.
Proof.
  intros Hf.
  assert (find_first MAGIC_WORD f = Some 0) as Hf0.
  { apply find_first_here. apply find_first_starts in Hf.
    now rewrite skipn_app, skipn_all, Nat.sub_diag in Hf. }
  assert (Radar._parse_pointcloud (junk ++ f) = Radar._parse_pointcloud f /\
          Radar1._parse_pointcloud (junk ++ f) = Radar1._parse_pointcloud f)
    as [R R1].
  { destruct (Nat.le_gt_cases (0 + 48) (length f)) as [Hl | Hl].
    - assert (length junk + 48 <= length (junk ++ f)) as Hl'
          by (rewrite length_app; lia).
      rewrite (@radar_parse_found (junk ++ f) (length junk) Hf Hl'),
        (@radar_parse_found f 0 Hf0 Hl),
        (@radar1_parse_found (junk ++ f) (length junk) Hf Hl'),
        (@radar1_parse_found f 0 Hf0 Hl).
      rewrite tlv_length_at_shift, tlv_type_at_shift, records_held_shift,
        !wire_records_shift.
      split; reflexivity.
    - assert (length (junk ++ f) < length junk + 48) as Hl'
          by (rewrite length_app; lia).
      rewrite (@radar_parse_short (junk ++ f) (length junk) Hf Hl'),
        (@radar_parse_short f 0 Hf0 Hl),
        (@radar1_parse_short (junk ++ f) (length junk) Hf Hl'),
        (@radar1_parse_short f 0 Hf0 Hl).
      split; reflexivity. }
  rewrite (iwr1843_parse_eq (junk ++ f)), (iwr1843_parse_eq f),
    (radar2_parse_eq (junk ++ f)), (radar2_parse_eq f).
  repeat split; assumption.
Qed.

Lemma leading_bytes_skipped_witness :
  let junk := [x00; x02; x01; x04; xff; x02] in
  find_first MAGIC_WORD (junk ++ three_record_frame) = Some 6 /\
  Radar._parse_pointcloud (junk ++ three_record_frame)
  = Radar._parse_pointcloud three_record_frame /\
  Radar1._parse_pointcloud (junk ++ three_record_frame)
  = Radar1._parse_pointcloud three_record_frame.
Proof.
  intros junk.
  assert (find_first MAGIC_WORD (junk ++ three_record_frame)
          = Some (length junk)) as Hf by reflexivity.
  destruct (@leading_bytes_skipped junk three_record_frame Hf)
    as (R & _ & R1 & _).
  split; [exact Hf | split; [exact R | exact R1]].
Defined.

(** ** Bounds on what the decoders return *)

Lemma bounded_empty (size : nat) : bounded_result size np_empty_0_4.
Proof. repeat split; cbn; try lia. constructor. Qed.

Lemma bounded_filtered (buf : bytes) (idx m : nat) :
  m <= 1000 -> m <= records_held buf (idx + 48) ->
  bounded_result (length buf)
    (np_array (filter valid (wire_records buf (idx + 48) m))).
Proof.
  intros Hcap Hheld.
  pose proof (filter_length_le valid (wire_records buf (idx + 48) m)) as Hle.
  rewrite wire_records_length in Hle.
  unfold bounded_result, len. cbn [rows np_array].
  split; [lia |]. split.
  - apply Forall_forall. intros p Hp. now apply filter_In in Hp.
  - intros Hpos. destruct m as [| k]; [lia |].
    apply (proj1 (records_held_spec buf (idx + 48) k)) in Hheld. lia.
Qed.

(** X3. Whatever the buffer, every copy of the decoder returns an array
    of at most 1000 rows, each with a coordinate different from zero, and
    [n] rows only if the buffer has at least 48 + 16 n bytes. *)
Theorem decoded_array_bounds (buffer : bytes) :
  (exists a, Radar._parse_pointcloud buffer = Ret a /\
             bounded_result (length buffer) a) /\
  (exists a, Iwr1843._parse_pointcloud buffer = Ret a /\
             bounded_result (length buffer) a) /\
  (exists a, Radar1._parse_pointcloud buffer = Ret a /\
             bounded_result (length buffer) a) /\
  (exists a, Radar2._parse_pointcloud buffer = Ret a /\
             bounded_result (length buffer) a).
Proof.
  assert ((exists a, Radar._parse_pointcloud buffer = Ret a /\
                     bounded_result (length buffer) a) /\
          (exists a, Radar1._parse_pointcloud buffer = Ret a /\
                     bounded_result (length buffer) a)) as [R R1].
  { destruct (find_first MAGIC_WORD buffer) as [idx |] eqn:Hf.
    - destruct (Nat.le_gt_cases (idx + 48) (length buffer)) as [Hl | Hl].
      + rewrite (radar_parse_found buffer Hf Hl),
          (radar1_parse_found buffer Hf Hl).
        destruct (negb (tlv_type_at buffer idx =? 1)%Z);
          destruct (Z.gtb_spec (tlv_length_at buffer idx / 16) 1000);
          try destruct (Nat.leb_spec (Z.to_nat (tlv_length_at buffer idx / 16))
                          (records_held buffer (idx + 48)));
          split; eexists; (split; [reflexivity |]);
          try apply bounded_empty; apply bounded_filtered; lia.
      + rewrite (radar_parse_short buffer Hf Hl),
          (radar1_parse_short buffer Hf Hl).
        split; eexists; (split; [reflexivity | apply bounded_empty]).
    - rewrite (radar_parse_nosync buffer Hf), (radar1_parse_nosync buffer Hf).
      split; eexists; (split; [reflexivity | apply bounded_empty]). }
  rewrite (iwr1843_parse_eq buffer), (radar2_parse_eq buffer).
  repeat split; assumption.
Qed.

(** ** A frame that arrives in several reads *)

Lemma contains_app_false (pat a b : bytes) :
  contains pat (a ++ b) = false -> contains pat a = false.
Proof.
  intros H. destruct (contains pat a) eqn:E; [| reflexivity].
  rewrite contains_find_first in E.
  destruct (find_first pat a) as [i |] eqn:Hf; [| discriminate].
  pose proof (find_first_bound _ _ Hf) as Hb.
  pose proof (@find_first_prefix pat a b i (length a) Hf Hb) as Hp.
  rewrite firstn_all in Hp.
  rewrite contains_find_first, Hp in H. discriminate.
Qed.

Lemma radar_worker_step_nosync (cb : Radar.callback) (c : bytes) (w : Radar.world) :
  Radar.running (Radar.self w) = true ->
  contains MAGIC_WORD (Radar.buffer (Radar.self w) ++ c) = false ->
  exists w1,
    Radar.worker_step cb (Waiting c) w = (Looping, w1) /\
    Radar.buffer (Radar.self w1) = Radar.buffer (Radar.self w) ++ c /\
    Radar.running (Radar.self w1) = true /\
    Radar.delivered w1 = Radar.delivered w.
Proof.
  intros Hr Hc. unfold Radar.worker_step. rewrite Hr.
  destruct c as [| b c].
  - rewrite radar_loop_body_idle. exists w.
    rewrite app_nil_r. auto.
  - rewrite (@radar_loop_body_nosync cb (b :: c) w ltac:(discriminate) Hc).
    eexists. split; [reflexivity |]. cbn. auto.
Qed.

Lemma radar_reassembly (cb : Radar.callback) (chunks : list bytes) (last : bytes)
    (w : Radar.world) :
  returns_normally cb ->
  Radar.running (Radar.self w) = true ->
  last <> [] ->
  contains MAGIC_WORD (Radar.buffer (Radar.self w) ++ concat chunks) = false ->
  contains MAGIC_WORD (Radar.buffer (Radar.self w) ++ concat chunks ++ last)
  = true ->
  exists pts w',
    Radar._parse_pointcloud (Radar.buffer (Radar.self w) ++ concat chunks ++ last)
    = Ret pts /\
    Radar._capture_loop cb (map Waiting chunks ++ [Waiting last]) w = (Looping, w') /\
    Radar.buffer (Radar.self w') = [] /\
    Radar.delivered w' = Radar.delivered w ++ (if 0 <? len pts then [pts] else []).
Proof.
  intros Hcb. revert w.
  induction chunks as [| c chunks IH]; intros w Hr Hlast Hno Hyes.
  - cbn [concat app map] in *.
    destruct (@radar_sync_turn cb last w Hcb Hlast Hyes)
      as (pts & w' & Hp & Hrun & Hbuf & Hdel).
    exists pts, w'. split; [exact Hp |]. split; [| auto].
    cbn [Radar._capture_loop]. unfold Radar.worker_step. now rewrite Hr, Hrun.
  - cbn [concat map app] in *.
    assert (contains MAGIC_WORD (Radar.buffer (Radar.self w) ++ c) = false) as Hc.
    { apply contains_app_false with (b := concat chunks).
      now rewrite <- app_assoc. }
    destruct (@radar_worker_step_nosync cb c w Hr Hc)
      as (w1 & Hstep & Hbuf1 & Hr1 & Hdel1).
    destruct (IH w1 Hr1 Hlast) as (pts & w' & Hp & Hrun & Hbuf & Hdel).
    { now rewrite Hbuf1, <- app_assoc. }
    { rewrite Hbuf1, <- app_assoc. now rewrite <- app_assoc in Hyes. }
    exists pts, w'. rewrite Hbuf1, <- app_assoc in Hp.
    rewrite <- (app_assoc c).
    split; [exact Hp |]. split; [| split; [exact Hbuf | now rewrite Hdel, Hdel1]].
    cbn [Radar._capture_loop]. now rewrite Hstep.
Qed.

Lemma radar1_worker_step_nosync (cb : Radar1.callback) (c : bytes) (w : Radar1.world) :
  Radar1.running (Radar1.self w) = true ->
  contains MAGIC_WORD (Radar1.buffer (Radar1.self w) ++ c) = false ->
  exists w1,
    Radar1.worker_step cb (Waiting c) w = (Looping, w1) /\
    Radar1.buffer (Radar1.self w1) = Radar1.buffer (Radar1.self w) ++ c /\
    Radar1.running (Radar1.self w1) = true /\
    Radar1.delivered w1 = Radar1.delivered w.
Proof.
  intros Hr Hc. unfold Radar1.worker_step. rewrite Hr.
  destruct c as [| b c].
  - rewrite radar1_loop_body_idle. exists w.
    rewrite app_nil_r. auto.
  - rewrite (@radar1_loop_body_nosync cb (b :: c) w ltac:(discriminate) Hc).
    eexists. split; [reflexivity |]. cbn. auto.
Qed.

Lemma radar1_reassembly (cb : Radar1.callback) (chunks : list bytes) (last : bytes)
    (w : Radar1.world) :
  returns_normally cb ->
  Radar1.running (Radar1.self w) = true ->
  last <> [] ->
  contains MAGIC_WORD (Radar1.buffer (Radar1.self w) ++ concat chunks) = false ->
  contains MAGIC_WORD (Radar1.buffer (Radar1.self w) ++ concat chunks ++ last)
  = true ->
  exists pts w',
    Radar1._parse_pointcloud (Radar1.buffer (Radar1.self w) ++ concat chunks ++ last)
    = Ret pts /\
    Radar1.loop cb (map Waiting chunks ++ [Waiting last]) w = (Looping, w') /\
    Radar1.buffer (Radar1.self w') = [] /\
    Radar1.delivered w' = Radar1.delivered w ++ (if negb (len pts =? 0) then [pts] else []).
Proof.
  intros Hcb. revert w.
  induction chunks as [| c chunks IH]; intros w Hr Hlast Hno Hyes.
  - cbn [concat app map] in *.
    destruct (@radar1_sync_turn cb last w Hcb Hlast Hyes)
      as (pts & w' & Hp & Hrun & Hbuf & Hdel).
    exists pts, w'. split; [exact Hp |]. split; [| auto].
    cbn [Radar1.loop]. unfold Radar1.worker_step. now rewrite Hr, Hrun.
  - cbn [concat map app] in *.
    assert (contains MAGIC_WORD (Radar1.buffer (Radar1.self w) ++ c) = false) as Hc.
    { apply contains_app_false with (b := concat chunks).
      now rewrite <- app_assoc. }
    destruct (@radar1_worker_step_nosync cb c w Hr Hc)
      as (w1 & Hstep & Hbuf1 & Hr1 & Hdel1).
    destruct (IH w1 Hr1 Hlast) as (pts & w' & Hp & Hrun & Hbuf & Hdel).
    { now rewrite Hbuf1, <- app_assoc. }
    { rewrite Hbuf1, <- app_assoc. now rewrite <- app_assoc in Hyes. }
    exists pts, w'. rewrite Hbuf1, <- app_assoc in Hp.
    rewrite <- (app_assoc c).
    split; [exact Hp |]. split; [| split; [exact Hbuf | now rewrite Hdel, Hdel1]].
    cbn [Radar1.loop]. now rewrite Hstep.
Qed.

(** X4. A frame is put together again from several reads as long as the
    sync word is not complete before the last of them: while the
    accumulated bytes do not contain the sync word each turn only appends
    what it read and calls nobody, and the turn that completes the sync
    word decodes everything accumulated, hands the points (if any) to the
    consumer once, and empties the buffer. Shown for [radar.py] and
    [radar1.py]. *)
Theorem frame_reassembled_across_reads :
  (forall (cb : Radar.callback) (chunks : list bytes) (last : bytes)
          (w : Radar.world),
      returns_normally cb ->
      Radar.running (Radar.self w) = true ->
      last <> [] ->
      contains MAGIC_WORD (Radar.buffer (Radar.self w) ++ concat chunks)
      = false ->
      contains MAGIC_WORD
        (Radar.buffer (Radar.self w) ++ concat chunks ++ last) = true ->
      exists pts w',
        Radar._parse_pointcloud
          (Radar.buffer (Radar.self w) ++ concat chunks ++ last) = Ret pts /\
        Radar._capture_loop cb (map Waiting chunks ++ [Waiting last]) w
        = (Looping, w') /\
        Radar.buffer (Radar.self w') = [] /\
        Radar.delivered w'
        = Radar.delivered w ++ (if 0 <? len pts then [pts] else [])) /\
  (forall (cb : Radar1.callback) (chunks : list bytes) (last : bytes)
          (w : Radar1.world),
      returns_normally cb ->
      Radar1.running (Radar1.self w) = true ->
      last <> [] ->
      contains MAGIC_WORD (Radar1.buffer (Radar1.self w) ++ concat chunks)
      = false ->
      contains MAGIC_WORD
        (Radar1.buffer (Radar1.self w) ++ concat chunks ++ last) = true ->
      exists pts w',
        Radar1._parse_pointcloud
          (Radar1.buffer (Radar1.self w) ++ concat chunks ++ last)
        = Ret pts /\
        Radar1.loop cb (map Waiting chunks ++ [Waiting last]) w
        = (Looping, w') /\
        Radar1.buffer (Radar1.self w') = [] /\
        Radar1.delivered w'
        = Radar1.delivered w ++ (if negb (len pts =? 0) then [pts] else [])).
Proof. split; [exact radar_reassembly | exact radar1_reassembly]. Qed.

Lemma frame_reassembled_across_reads_witness :
  let chunks := [firstn 5 three_record_frame; [];
                 firstn 2 (skipn 5 three_record_frame)] in
  contains MAGIC_WORD (concat chunks) = false /\
  exists w',
    Radar._capture_loop quiet_callback
      (map Waiting chunks ++ [Waiting (skipn 7 three_record_frame)])
      radar_capturing = (Looping, w') /\
    Radar.buffer (Radar.self w') = [] /\
    Radar.delivered w'
    = [ np_array
          [ {| px := f32_one; py := 0; pz := 0; pvel := f32_half |};
            {| px := 0; py := f32_two; pz := 0; pvel := f32_half |} ] ].
Proof.
  intros chunks. split; [reflexivity |].
  destruct frame_reassembled_across_reads as (K & _).
  destruct (K quiet_callback chunks (skipn 7 three_record_frame)
              radar_capturing (@quiet_callback_returns _) eq_refl
              ltac:(discriminate) eq_refl eq_refl)
    as (pts & w' & Hp & Hrun & Hbuf & Hdel).
  exists w'. split; [exact Hrun |]. split; [exact Hbuf |].
  rewrite Hdel. vm_compute in Hp. injection Hp as <-. reflexivity.
Defined.

(** ** Opening and closing the ports: what the object looks like after *)

Lemma radar_connect_spec (cli_opens data_opens : bool) (w : Radar.world) :
  let '(ok, w') := RadarPorts.connect cli_opens data_opens w in
  ok = cli_opens && data_opens /\
  port_open (Radar.cli (Radar.self w'))
  = cli_opens || port_open (Radar.cli (Radar.self w)) /\
  port_open (Radar.data (Radar.self w'))
  = (cli_opens && data_opens) || port_open (Radar.data (Radar.self w)) /\
  Radar.running (Radar.self w') = Radar.running (Radar.self w) /\
  Radar.capturing (Radar.self w') = Radar.capturing (Radar.self w) /\
  Radar.buffer (Radar.self w') = Radar.buffer (Radar.self w) /\
  Radar.threads w' = Radar.threads w /\
  Radar.delivered w' = Radar.delivered w /\
  Radar.console w'
  = Radar.console w ++ (if ok then [] else [SerialException]).
Proof.
  destruct cli_opens, data_opens; cbn; rewrite ?app_nil_r; repeat split.
Qed.

Lemma radar_disconnect_spec (w : Radar.world) :
  let '(n, w') := RadarPorts.disconnect w in
  Radar.cli (Radar.self w') = None /\
  Radar.data (Radar.self w') = None /\
  Radar.running (Radar.self w') = false /\
  Radar.capturing (Radar.self w') = false /\
  n = (if port_open (Radar.cli (Radar.self w)) then 1 else 0)
      + (if port_open (Radar.data (Radar.self w)) then 1 else 0) /\
  RadarPorts.disconnect w' = (0, w').
Proof. cbn. repeat split. Qed.

Lemma radar1_connect_spec (cli_opens data_opens : bool) (w : Radar1.world) :
  let '(ok, w') := Radar1Ports.connect cli_opens data_opens w in
  ok = cli_opens && data_opens /\
  port_open (Radar1.cli (Radar1.self w'))
  = cli_opens || port_open (Radar1.cli (Radar1.self w)) /\
  port_open (Radar1.data (Radar1.self w'))
  = (cli_opens && data_opens) || port_open (Radar1.data (Radar1.self w)) /\
  Radar1.running (Radar1.self w') = Radar1.running (Radar1.self w) /\
  Radar1.capturing (Radar1.self w') = Radar1.capturing (Radar1.self w) /\
  Radar1.buffer (Radar1.self w') = Radar1.buffer (Radar1.self w) /\
  Radar1.threads w' = Radar1.threads w /\
  Radar1.delivered w' = Radar1.delivered w /\
  Radar1.console w'
  = Radar1.console w ++ (if ok then [] else [SerialException]).
Proof.
  destruct cli_opens, data_opens; cbn; rewrite ?app_nil_r; repeat split.
Qed.

Lemma radar1_disconnect_spec (w : Radar1.world) :
  let '(n, w') := Radar1Ports.disconnect w in
  Radar1.cli (Radar1.self w') = None /\
  Radar1.data (Radar1.self w') = None /\
  Radar1.running (Radar1.self w') = false /\
  Radar1.capturing (Radar1.self w') = false /\
  n = (if port_open (Radar1.cli (Radar1.self w)) then 1 else 0)
      + (if port_open (Radar1.data (Radar1.self w)) then 1 else 0) /\
  Radar1Ports.disconnect w' = (0, w').
Proof. cbn. repeat split. Qed.

Lemma radar_stop_then_step (cb : Radar.callback) (ev : serial_event) (w : Radar.world) :
  exists w',
    Radar.worker_step cb ev (Radar.stop_capture w) = (Finished, w') /\
    Radar.delivered w' = Radar.delivered w /\
    Radar.console w' = Radar.console w /\
    Radar.threads w' = pred (Radar.threads w) /\
    Radar.running (Radar.self w') = false /\
    Radar.capturing (Radar.self w') = false /\
    Radar.stop_capture (Radar.stop_capture w) = Radar.stop_capture w.
Proof. eexists. cbn. repeat split. Qed.

Lemma radar_restart (cb : Radar.callback) (w : Radar.world) :
  Radar.is_connected (Radar.self w) = true ->
  exists w',
    Radar.start_capture cb (Radar.stop_capture w) = (true, w') /\
    Radar.running (Radar.self w') = true /\
    Radar.capturing (Radar.self w') = true /\
    Radar.buffer (Radar.self w') = [] /\
    Radar.threads w' = S (Radar.threads w) /\
    forall cb0, Radar.worker_step cb0 (Waiting []) w' = (Looping, w').
Proof.
  intros Hc. unfold Radar.start_capture.
  assert (Radar.is_connected (Radar.self (Radar.stop_capture w)) = true) as ->
      by exact Hc.
  cbn. eexists. split; [reflexivity |]. cbn. repeat split.
Qed.


Lemma radar1_stop_then_step (cb : Radar1.callback) (ev : serial_event) (w : Radar1.world) :
  exists w',
    Radar1.worker_step cb ev (Radar1.stop_capture w) = (Finished, w') /\
    Radar1.delivered w' = Radar1.delivered w /\
    Radar1.console w' = Radar1.console w /\
    Radar1.threads w' = pred (Radar1.threads w) /\
    Radar1.running (Radar1.self w') = false /\
    Radar1.capturing (Radar1.self w') = false /\
    Radar1.stop_capture (Radar1.stop_capture w) = Radar1.stop_capture w.
Proof. eexists. cbn. repeat split. Qed.

Lemma radar1_restart (cb : Radar1.callback) (w : Radar1.world) :
  Radar1.is_connected (Radar1.self w) = true ->
  exists w',
    Radar1.start_capture cb (Radar1.stop_capture w) = (true, w') /\
    Radar1.running (Radar1.self w') = true /\
    Radar1.capturing (Radar1.self w') = true /\
    Radar1.buffer (Radar1.self w') = [] /\
    Radar1.threads w' = S (Radar1.threads w) /\
    forall cb0, Radar1.worker_step cb0 (Waiting []) w' = (Looping, w').
Proof.
  intros Hc. unfold Radar1.start_capture.
  assert (Radar1.is_connected (Radar1.self (Radar1.stop_capture w)) = true) as ->
      by exact Hc.
  cbn. eexists. split; [reflexivity |]. cbn. repeat split.
Qed.


(** X5. [connect] returns True exactly when both ports open, and then the
    object is connected. It never closes or forgets a port: when the CLI
    port opens and the data port does not, it returns False with the CLI
    port open and assigned, and a failed call on a connected object leaves
    it connected. Flags, buffer, threads and deliveries are not touched; a
    failure prints the exception. Shown for [radar.py] and [radar1.py]. *)
Theorem connect_outcome :
  (forall (cli_opens data_opens : bool) (w : Radar.world),
      let '(ok, w') := RadarPorts.connect cli_opens data_opens w in
      ok = cli_opens && data_opens /\
      port_open (Radar.cli (Radar.self w'))
      = cli_opens || port_open (Radar.cli (Radar.self w)) /\
      port_open (Radar.data (Radar.self w'))
      = (cli_opens && data_opens) || port_open (Radar.data (Radar.self w)) /\
      Radar.is_connected (Radar.self w')
      = (cli_opens || port_open (Radar.cli (Radar.self w)))
        && ((cli_opens && data_opens) || port_open (Radar.data (Radar.self w))) /\
      Radar.running (Radar.self w') = Radar.running (Radar.self w) /\
      Radar.capturing (Radar.self w') = Radar.capturing (Radar.self w) /\
      Radar.buffer (Radar.self w') = Radar.buffer (Radar.self w) /\
      Radar.threads w' = Radar.threads w /\
      Radar.delivered w' = Radar.delivered w /\
      Radar.console w'
      = Radar.console w ++ (if ok then [] else [SerialException])) /\
  (forall (cli_opens data_opens : bool) (w : Radar1.world),
      let '(ok, w') := Radar1Ports.connect cli_opens data_opens w in
      ok = cli_opens && data_opens /\
      port_open (Radar1.cli (Radar1.self w'))
      = cli_opens || port_open (Radar1.cli (Radar1.self w)) /\
      port_open (Radar1.data (Radar1.self w'))
      = (cli_opens && data_opens) || port_open (Radar1.data (Radar1.self w)) /\
      Radar1.is_connected (Radar1.self w')
      = (cli_opens || port_open (Radar1.cli (Radar1.self w)))
        && ((cli_opens && data_opens) || port_open (Radar1.data (Radar1.self w))) /\
      Radar1.running (Radar1.self w') = Radar1.running (Radar1.self w) /\
      Radar1.capturing (Radar1.self w') = Radar1.capturing (Radar1.self w) /\
      Radar1.buffer (Radar1.self w') = Radar1.buffer (Radar1.self w) /\
      Radar1.threads w' = Radar1.threads w /\
      Radar1.delivered w' = Radar1.delivered w /\
      Radar1.console w'
      = Radar1.console w ++ (if ok then [] else [SerialException])).
Proof.
  split; intros cli_opens data_opens w.
  - pose proof (radar_connect_spec cli_opens data_opens w) as H.
    destruct (RadarPorts.connect cli_opens data_opens w) as [ok w'].
    destruct H as (H1 & H2 & H3 & H4). unfold Radar.is_connected.
    rewrite H2, H3. tauto.
  - pose proof (radar1_connect_spec cli_opens data_opens w) as H.
    destruct (Radar1Ports.connect cli_opens data_opens w) as [ok w'].
    destruct H as (H1 & H2 & H3 & H4). unfold Radar1.is_connected.
    rewrite H2, H3. tauto.
Qed.

(** X6. After [disconnect] both port fields are None, whatever the object
    was doing: it is neither connected, nor running, nor capturing (in
    [radar.py] the buffer is empty as well), [close()] was called once on
    each port that was open, a second [disconnect] closes nothing and
    changes nothing, and [start_capture] is refused. Shown for [radar.py]
    and [radar1.py]. *)
Theorem disconnect_outcome :
  (forall (cb : Radar.callback) (w : Radar.world),
      let '(n, w') := RadarPorts.disconnect w in
      Radar.cli (Radar.self w') = None /\
      Radar.data (Radar.self w') = None /\
      Radar.is_connected (Radar.self w') = false /\
      Radar.running (Radar.self w') = false /\
      Radar.capturing (Radar.self w') = false /\
      Radar.buffer (Radar.self w') = [] /\
      n = (if port_open (Radar.cli (Radar.self w)) then 1 else 0)
          + (if port_open (Radar.data (Radar.self w)) then 1 else 0) /\
      RadarPorts.disconnect w' = (0, w') /\
      Radar.start_capture cb w' = (false, w')) /\
  (forall (cb : Radar1.callback) (w : Radar1.world),
      let '(n, w') := Radar1Ports.disconnect w in
      Radar1.cli (Radar1.self w') = None /\
      Radar1.data (Radar1.self w') = None /\
      Radar1.is_connected (Radar1.self w') = false /\
      Radar1.running (Radar1.self w') = false /\
      Radar1.capturing (Radar1.self w') = false /\
      Radar1.buffer (Radar1.self w') = Radar1.buffer (Radar1.self w) /\
      n = (if port_open (Radar1.cli (Radar1.self w)) then 1 else 0)
          + (if port_open (Radar1.data (Radar1.self w)) then 1 else 0) /\
      Radar1Ports.disconnect w' = (0, w') /\
      Radar1.start_capture cb w' = (false, w')).
Proof. split; intros cb w; cbn; repeat split. Qed.

(** X7. [stop_capture] takes effect at the worker's next loop test: the
    worker leaves without reading the port and without calling the
    consumer, whatever bytes were waiting, and clears [capturing] on its
    way out. Calling [stop_capture] twice is the same as calling it once.
    Shown for [radar.py] and [radar1.py]. *)
Theorem stop_capture_ends_worker :
  (forall (cb : Radar.callback) (ev : serial_event) (w : Radar.world),
      exists w',
        Radar.worker_step cb ev (Radar.stop_capture w) = (Finished, w') /\
        Radar.delivered w' = Radar.delivered w /\
        Radar.console w' = Radar.console w /\
        Radar.threads w' = pred (Radar.threads w) /\
        Radar.running (Radar.self w') = false /\
        Radar.capturing (Radar.self w') = false /\
        Radar.stop_capture (Radar.stop_capture w) = Radar.stop_capture w) /\
  (forall (cb : Radar1.callback) (ev : serial_event) (w : Radar1.world),
      exists w',
        Radar1.worker_step cb ev (Radar1.stop_capture w) = (Finished, w') /\
        Radar1.delivered w' = Radar1.delivered w /\
        Radar1.console w' = Radar1.console w /\
        Radar1.threads w' = pred (Radar1.threads w) /\
        Radar1.running (Radar1.self w') = false /\
        Radar1.capturing (Radar1.self w') = false /\
        Radar1.stop_capture (Radar1.stop_capture w) = Radar1.stop_capture w).
Proof. split; [exact radar_stop_then_step | exact radar1_stop_then_step]. Qed.

(** X8. [start_capture] right after [stop_capture] is accepted on a
    connected object: it starts a thread, empties the buffer and sets
    [running] again. A worker that had not yet looked at [running] when the
    flag was cleared therefore never sees it cleared and keeps looping
    beside the new one, on the same buffer. Shown for [radar.py] and
    [radar1.py]. *)
Theorem restart_keeps_old_worker :
  (forall (cb : Radar.callback) (w : Radar.world),
      Radar.is_connected (Radar.self w) = true ->
      exists w',
        Radar.start_capture cb (Radar.stop_capture w) = (true, w') /\
        Radar.running (Radar.self w') = true /\
        Radar.capturing (Radar.self w') = true /\
        Radar.buffer (Radar.self w') = [] /\
        Radar.threads w' = S (Radar.threads w) /\
        forall cb0, Radar.worker_step cb0 (Waiting []) w' = (Looping, w')) /\
  (forall (cb : Radar1.callback) (w : Radar1.world),
      Radar1.is_connected (Radar1.self w) = true ->
      exists w',
        Radar1.start_capture cb (Radar1.stop_capture w) = (true, w') /\
        Radar1.running (Radar1.self w') = true /\
        Radar1.capturing (Radar1.self w') = true /\
        Radar1.buffer (Radar1.self w') = [] /\
        Radar1.threads w' = S (Radar1.threads w) /\
        forall cb0, Radar1.worker_step cb0 (Waiting []) w' = (Looping, w')).
Proof. split; [exact radar_restart | exact radar1_restart]. Qed.

Lemma restart_keeps_old_worker_witness :
  Radar.is_connected (Radar.self radar_capturing) = true /\
  Radar.threads radar_capturing = 1 /\
  exists w',
    Radar.start_capture quiet_callback (Radar.stop_capture radar_capturing)
    = (true, w') /\
    Radar.threads w' = 2 /\
    Radar.worker_step quiet_callback (Waiting []) w' = (Looping, w').
Proof.
  split; [reflexivity |]. split; [reflexivity |].
  destruct restart_keeps_old_worker as (K & _).
  destruct (K quiet_callback radar_capturing eq_refl)
    as (w' & Hs & _ & _ & _ & Hth & Hloop).
  exists w'. split; [exact Hs |]. split; [exact Hth | apply Hloop].
Defined.

(** ** Stripping lines *)

Lemma lstrip_head (s : str) :
  match lstrip s with
  | [] => True
  | c :: _ => isspace c = false
  end.
Proof.
  induction s as [| c s IH]; cbn [lstrip]; [exact I |].
  destruct (isspace c) eqn:E; [exact IH | exact E].
Qed.

Lemma lstrip_idem (s : str) : lstrip (lstrip s) = lstrip s.
Proof.
  pose proof (lstrip_head s) as H. destruct (lstrip s) as [| c t];
    [reflexivity |]. cbn [lstrip]. now rewrite H.
Qed.

Lemma lstrip_app_nonspace (l r : str) (c : N) :
  isspace c = false -> lstrip (l ++ c :: r) = lstrip l ++ c :: r.
Proof.
  intros Hc. induction l as [| x l IH]; cbn [app lstrip].
  - now rewrite Hc.
  - destruct (isspace x); [exact IH | reflexivity].
Qed.

Lemma rstrip_cons_nonspace (c : N) (t : str) :
  isspace c = false -> rstrip (c :: t) = c :: rstrip t.
Proof.
  intros Hc. unfold rstrip. cbn [rev].
  rewrite lstrip_app_nonspace by exact Hc.
  rewrite rev_app_distr. reflexivity.
Qed.

Lemma rstrip_idem (s : str) : rstrip (rstrip s) = rstrip s.
Proof. unfold rstrip. now rewrite rev_involutive, lstrip_idem. Qed.

Lemma rstrip_last (s : str) :
  rstrip s = [] \/ isspace (last (rstrip s) 0%N) = false.
Proof.
  unfold rstrip. pose proof (lstrip_head (rev s)) as H.
  destruct (lstrip (rev s)) as [| c t]; [now left | right].
  cbn [rev]. now rewrite last_last.
Qed.

(** [strip] in one step: what is left of the front, cut at the back. *)
Lemma strip_unfold (s : str) :
  strip s = match lstrip s with
            | [] => []
            | c :: t => c :: rstrip t
            end.
Proof.
  unfold strip. pose proof (lstrip_head s) as H.
  destruct (lstrip s) as [| c t]; [reflexivity |].
  now apply rstrip_cons_nonspace.
Qed.

Lemma strip_trimmed (s : str) : strip s <> [] -> trimmed (strip s).
Proof.
  intros Hne. split; [exact Hne |]. split.
  - rewrite strip_unfold in *. pose proof (lstrip_head s) as H.
    destruct (lstrip s) as [| c t]; [contradiction | exact H].
  - unfold strip in *. destruct (rstrip_last (lstrip s)); [contradiction | assumption].
Qed.

Lemma strip_idem (s : str) : strip (strip s) = strip s.
Proof.
  rewrite (strip_unfold s). pose proof (lstrip_head s) as H.
  destruct (lstrip s) as [| c t]; [reflexivity |].
  rewrite strip_unfold. cbn [lstrip]. rewrite H. now rewrite rstrip_idem.
Qed.

Lemma forallb_lstrip (P : N -> bool) (s : str) :
  forallb P s = true -> forallb P (lstrip s) = true.
Proof.
  induction s as [| c s IH]; cbn [lstrip]; [auto |].
  intros H. destruct (isspace c); [| exact H].
  cbn [forallb] in H. apply andb_true_iff in H. tauto.
Qed.

Lemma forallb_rev (P : N -> bool) (s : str) :
  forallb P (rev s) = forallb P s.
Proof.
  induction s as [| c s IH]; [reflexivity |].
  cbn [rev forallb]. rewrite forallb_app, IH. cbn [forallb].
  rewrite andb_true_r. apply andb_comm.
Qed.

Lemma forallb_strip (P : N -> bool) (s : str) :
  forallb P s = true -> forallb P (strip s) = true.
Proof.
  intros H. unfold strip, rstrip.
  rewrite forallb_rev. apply forallb_lstrip. rewrite forallb_rev.
  now apply forallb_lstrip.
Qed.

Lemma strip_of_trimmed (l : str) : trimmed l -> strip l = l.
Proof.
  intros (Hne & Hh & Ht). rewrite strip_unfold.
  destruct l as [| c t]; [contradiction |]. cbn [hd] in Hh.
  cbn [lstrip]. rewrite Hh. f_equal.
  unfold rstrip.
  assert (lstrip (rev t) = rev t) as ->; [| apply rev_involutive].
  destruct t as [| d t']; [reflexivity |].
  rewrite <- (rev_involutive (d :: t')) in Ht.
  destruct (rev (d :: t')) as [| e u] eqn:Er.
  { apply (f_equal (@length N)) in Er. rewrite length_rev in Er.
    discriminate. }
  cbn [rev] in Ht.
  change (c :: rev u ++ [e]) with ((c :: rev u) ++ [e]) in Ht.
  rewrite last_last in Ht. cbn [lstrip]. now rewrite Ht.
Qed.

Lemma lstrip_blank (blank : str) :
  forallb isspace blank = true -> lstrip blank = [].
Proof.
  induction blank as [| c b IH]; [reflexivity |]. intros Hb.
  cbn [forallb] in Hb. apply andb_true_iff in Hb as [Hc Hb].
  cbn [lstrip]. rewrite Hc. now apply IH.
Qed.

Lemma config_lines_app (g g' : list str) :
  config_lines (g ++ g') = config_lines g ++ config_lines g'.
Proof. unfold config_lines. now rewrite filter_app, map_app. Qed.

Lemma config_lines_single (l : str) : trimmed l -> config_lines [l] = [l].
Proof.
  intros Hl. unfold config_lines. cbn [filter].
  rewrite (strip_of_trimmed Hl).
  destruct l as [| c t]; [now destruct Hl |].
  cbn [map]. now rewrite (strip_of_trimmed Hl).
Qed.

Lemma config_lines_trimmed (g : list str) : Forall trimmed (config_lines g).
Proof.
  unfold config_lines. apply Forall_forall. intros l Hl.
  apply in_map_iff in Hl as (l0 & <- & Hl0).
  apply filter_In in Hl0 as [_ Hne]. apply strip_trimmed.
  destruct (strip l0); discriminate.
Qed.

(** X9. The lines [send_config] transmits are clean: each one has
    something on it and no white space at either end; they come from the
    file in file order, line by line; lines of white space only are left
    out; and a file that is clean already is sent as it is. *)
Theorem config_lines_clean (f : list str) :
  Forall trimmed (config_lines f) /\
  config_lines (config_lines f) = config_lines f /\
  (forall blank f',
      forallb isspace blank = true ->
      config_lines (f ++ blank :: f') = config_lines (f ++ f')) /\
  (forall f', config_lines (f ++ f') = config_lines f ++ config_lines f') /\
  length (config_lines f) <= length f.
Proof.
  split; [apply config_lines_trimmed |]. split; [| split; [| split]].
  - pose proof (config_lines_trimmed f) as Hclean.
    induction (config_lines f) as [| l ls IH]; [reflexivity |].
    inversion Hclean as [| ? ? Hl Hls]; subst.
    change (l :: ls) with ([l] ++ ls).
    now rewrite config_lines_app, IH, config_lines_single.
  - intros blank f' Hb. rewrite !config_lines_app. f_equal.
    change (blank :: f') with ([blank] ++ f'). rewrite config_lines_app.
    assert (config_lines [blank] = []) as ->; [| reflexivity].
    unfold config_lines. cbn [filter].
    now rewrite strip_unfold, lstrip_blank.
  - apply config_lines_app.
  - unfold config_lines. rewrite length_map. apply filter_length_le.
Qed.

Lemma config_lines_clean_witness :
  config_lines
    [[32; 97; 98; 10]; [9; 32; 10]; [99; 32; 100; 13; 10]; [10]; [101]]%N
  = [[97; 98]; [99; 32; 100]; [101]]%N /\
  config_lines ([[97; 10]]%N ++ [9; 32; 10]%N :: [[98]]%N)
  = config_lines ([[97; 10]]%N ++ [[98]]%N).
Proof.
  split; [reflexivity |].
  destruct (config_lines_clean [[97; 10]]%N) as (_ & _ & K & _).
  apply K. reflexivity.
Defined.

(** ** Sending the configuration *)

Lemma utf8_app (a b : str) : utf8 (a ++ b) = utf8 a ++ utf8 b.
Proof. unfold utf8. now rewrite map_app, concat_app. Qed.

Lemma encode_line (l : str) :
  forallb is_scalar l = true -> encode (l ++ [10%N]) = Ret (line_payload l).
Proof.
  intros H. unfold encode. rewrite forallb_app, H. cbn [forallb].
  change (is_scalar 10) with true. cbn [andb].
  now rewrite utf8_app.
Qed.

(** The write loop in closed form: everything goes out when the port takes
    enough writes, otherwise exactly what it takes. *)
Lemma write_lines_spec (lines : list str) (budget : option nat)
    (sent : list bytes) :
  Forall (fun l => forallb is_scalar l = true) lines ->
  write_lines lines budget sent
  = match budget with
    | None => (Ret tt, sent ++ map line_payload lines)
    | Some k =>
        if k <? length lines
        then (Raise SerialException, sent ++ map line_payload (firstn k lines))
        else (Ret tt, sent ++ map line_payload lines)
    end.
Proof.
  revert budget sent.
  induction lines as [| l lines IH]; intros budget sent Hs.
  - cbn. rewrite app_nil_r. destruct budget as [k |]; reflexivity.
  - inversion Hs as [| ? ? Hl Hls]; subst.
    specialize (fun b s => IH b s Hls).
    cbn [write_lines]. rewrite (encode_line l Hl).
    destruct budget as [[| k] |].
    + cbn. now rewrite app_nil_r.
    + rewrite IH. cbn [length firstn map].
      change (S k <? S (length lines)) with (k <? length lines).
      destruct (k <? length lines); rewrite <- app_assoc; reflexivity.
    + rewrite IH. cbn [map]. rewrite <- app_assoc. reflexivity.
Qed.

Lemma config_lines_scalar (f : list str) :
  Forall (fun l => forallb is_scalar l = true) f ->
  Forall (fun l => forallb is_scalar l = true) (config_lines f).
Proof.
  intros H. unfold config_lines. apply Forall_forall. intros l Hl.
  apply in_map_iff in Hl as (l0 & <- & Hl0).
  apply filter_In in Hl0 as [Hin _]. apply forallb_strip.
  exact (proj1 (Forall_forall _ f) H l0 Hin).
Qed.

(** X10. [send_config] on an object that is not connected returns False
    without reading the file, writing or printing. On a connected one: when
    the file cannot be read it returns False with nothing written; otherwise
    it writes, in order, one payload per clean line, the line's UTF-8 bytes
    and a line feed; it returns True when the port took them all, and when
    the port fails after [k] writes it returns False with those [k] payloads
    already out, none taken back. *)
Theorem send_config_outcome (f : list str) (budget : option nat)
    (w : Radar.world) :
  (Radar.is_connected (Radar.self w) = false ->
   forall cfg, RadarConfig.send_config cfg budget w = ((false, []), w)) /\
  (Radar.is_connected (Radar.self w) = true ->
   (forall e,
       RadarConfig.send_config (Raise e) budget w
       = ((false, []), Radar.print e w)) /\
   (Forall (fun l => forallb is_scalar l = true) f ->
    let payloads := map line_payload (config_lines f) in
    RadarConfig.send_config (Ret f) budget w
    = match budget with
      | None => ((true, payloads), w)
      | Some k =>
          if k <? length payloads
          then ((false, firstn k payloads), Radar.print SerialException w)
          else ((true, payloads), w)
      end)).
Proof.
  split.
  - intros Hc cfg. unfold RadarConfig.send_config. now rewrite Hc.
  - intros Hc. split.
    + intros e. unfold RadarConfig.send_config. now rewrite Hc.
    + intros Hs payloads. unfold RadarConfig.send_config. rewrite Hc.
      cbn [negb]. rewrite (write_lines_spec budget [] (config_lines_scalar Hs)).
      cbn [app]. unfold payloads. rewrite length_map.
      destruct budget as [k |]; [| reflexivity].
      destruct (k <? length (config_lines f)); [| reflexivity].
      now rewrite firstn_map.
Qed.

Lemma send_config_outcome_witness :
  let f := [[32; 97; 98; 10]; [9; 32; 10]; [233; 10]; [99]]%N in
  RadarConfig.send_config (Ret f) (Some 2) radar_connected
  = ((false, [[x61; x62; x0a]; [xc3; xa9; x0a]]),
     Radar.print SerialException radar_connected) /\
  RadarConfig.send_config (Ret f) None radar_connected
  = ((true, [[x61; x62; x0a]; [xc3; xa9; x0a]; [x63; x0a]]), radar_connected) /\
  RadarConfig.send_config (Ret f) None radar_fresh = ((false, []), radar_fresh).
Proof.
  intros f.
  assert (Forall (fun l => forallb is_scalar l = true) f) as Hs
      by (repeat constructor).
  destruct (send_config_outcome f (Some 2) radar_connected) as (_ & K2).
  destruct (send_config_outcome f None radar_connected) as (_ & K0).
  destruct (send_config_outcome f None radar_fresh) as (Kf & _).
  split; [exact (proj2 (K2 eq_refl) Hs) |].
  split; [exact (proj2 (K0 eq_refl) Hs) |].
  exact (Kf eq_refl (Ret f)).
Defined.

Lemma printed_line_length (line : str) :
  length (printed_line line) = 18 + Nat.min 40 (length line).
Proof.
  unfold printed_line. rewrite !length_app, length_firstn.
  repeat match goal with
         | |- context [length (str_of ?t)] =>
             let n := eval vm_compute in (length (str_of t)) in
             change (length (str_of t)) with n
         end.
  lia.
Qed.

Lemma iwr1843_write_lines_agree (lines : list str) (budget : option nat)
    (sent : list bytes) (printed : list str) :
  Forall2 echoes printed sent ->
  let '(r, sent1) := write_lines lines budget sent in
  let '(r', (sent2, printed2)) :=
    Iwr1843Config.write_lines lines budget sent printed in
  r' = r /\ sent2 = sent1 /\ Forall2 echoes printed2 sent2.
Proof.
  revert budget sent printed.
  induction lines as [| l lines IH]; intros budget sent printed He.
  - cbn. auto.
  - cbn [write_lines Iwr1843Config.write_lines].
    destruct (encode (l ++ [10%N])) as [payload | e] eqn:Hl; [| auto].
    assert (Forall2 echoes (printed ++ [printed_line l]) (sent ++ [payload]))
      as He'.
    { apply Forall2_app; [exact He |].
      constructor; [| constructor]. exists l. now split. }
    destruct budget as [[| k] |]; [auto | |].
    + exact (IH (Some k) _ _ He').
    + exact (IH None _ _ He').
Qed.

(** X11. [iwr1843.py]'s [_send_config] writes what [send_config] of
    [radar.py] writes on a connected object, payload for payload, and
    prints one line per payload written, after the write: the text
    [[CONFIG] Sent: ], the first 40 characters of the configuration line
    the payload encodes, and three dots, 58 characters at most; where
    [send_config] catches the failure and returns False, [_send_config] lets
    the exception out. *)
Theorem iwr1843_send_config_agrees (cfg : result (list str))
    (budget : option nat) (w : Radar.world) :
  Radar.is_connected (Radar.self w) = true ->
  let '((ok, sent), _) := RadarConfig.send_config cfg budget w in
  let '(r, (sent', printed)) := Iwr1843Config._send_config cfg budget in
  sent' = sent /\
  (ok = true <-> r = Ret tt) /\
  Forall2 echoes printed sent /\
  length printed = length sent /\
  Forall (fun l => length l <= 58) printed.
Proof.
  intros Hc. unfold RadarConfig.send_config, Iwr1843Config._send_config.
  rewrite Hc. cbn [negb].
  destruct cfg as [f | e].
  - pose proof (@iwr1843_write_lines_agree (config_lines f) budget [] []
                  (Forall2_nil _)) as H.
    destruct (write_lines (config_lines f) budget []) as [r sent].
    destruct (Iwr1843Config.write_lines (config_lines f) budget [] [])
      as [r' [sent' printed]].
    destruct H as (-> & -> & He).
    assert (Hb : Forall (fun l => length l <= 58) printed).
    { clear - He. induction He as [| p s ps ss [line [-> _]] _ IH];
        constructor; [| exact IH].
      rewrite printed_line_length. lia. }
    pose proof (Forall2_length He) as Hlen.
    destruct r as [[] | e]; repeat split; auto; discriminate.
  - repeat split; auto; discriminate.
Qed.

Lemma iwr1843_send_config_agrees_witness :
  let cfg := Ret [[32; 97; 98; 10]; [9; 32; 10]; [99]]%N in
  Radar.is_connected (Radar.self radar_connected) = true /\
  snd (Iwr1843Config._send_config cfg (Some 1))
  = ([[x61; x62; x0a]], [printed_line [97; 98]%N]) /\
  length (printed_line [97; 98]%N) = 20 /\
  fst (snd (Iwr1843Config._send_config cfg (Some 1)))
  = snd (fst (RadarConfig.send_config cfg (Some 1) radar_connected)) /\
  (fst (fst (RadarConfig.send_config cfg (Some 1) radar_connected)) = true <->
   fst (Iwr1843Config._send_config cfg (Some 1)) = Ret tt).
Proof.
  intros cfg. split; [reflexivity |]. split; [reflexivity |].
  split; [reflexivity |].
  pose proof (@iwr1843_send_config_agrees cfg (Some 1) radar_connected eq_refl)
    as H.
  destruct (RadarConfig.send_config cfg (Some 1) radar_connected)
    as [[ok sent] w'].
  destruct (Iwr1843Config._send_config cfg (Some 1)) as [r [sent' printed]].
  destruct H as (Hs & Hok & _). split; [exact Hs | exact Hok].
Defined.

(** ** Finding the radar's ports *)

Lemma str_starts_with_spec (pat s : str) :
  str_starts_with pat s = true <-> exists b, s = pat ++ b.
Proof.
  revert s. induction pat as [| p pat IH]; intros s; cbn.
  - split; [intros _; now exists s | reflexivity].
  - destruct s as [| c s].
    + split; [discriminate | intros [b Hb]; discriminate Hb].
    + rewrite andb_true_iff, N.eqb_eq, IH. split.
      * intros [-> [b ->]]. now exists b.
      * intros [b Hb]. injection Hb as -> ->. split; [reflexivity | now exists b].
Qed.

(** [str_in] is the substring test. *)
Lemma str_in_spec (pat s : str) :
  str_in pat s = true <-> exists a b, s = a ++ pat ++ b.
Proof.
  induction s as [| c s IH].
  - cbn [str_in]. rewrite orb_false_r, str_starts_with_spec. split.
    + intros [b Hb]. now exists [], b.
    + intros (a & b & H). destruct a; [now exists b |]. discriminate H.
  - cbn [str_in]. rewrite orb_true_iff, str_starts_with_spec, IH. split.
    + intros [[b Hb] | (a & b & ->)].
      * now exists [], b.
      * now exists (c :: a), b.
    + intros (a & b & H). destruct a as [| x a].
      * left. now exists b.
      * right. injection H as -> ->. now exists a, b.
Qed.

Lemma str_leb_refl (a : str) : str_leb a a = true.
Proof.
  induction a as [|x a IH]; cbn; [reflexivity |].
  now rewrite N.ltb_irrefl.
Qed.


Lemma str_leb_trans (a b c : str) :
  str_leb a b = true -> str_leb b c = true -> str_leb a c = true.
Proof.
  revert b c. induction a as [|x a IH]; intros [|y b] [|z c]; cbn;
    try congruence.
  destruct (N.ltb_spec x y), (N.ltb_spec y z), (N.ltb_spec z y),
    (N.ltb_spec y x), (N.ltb_spec x z), (N.ltb_spec z x);
    try congruence; try lia.
  apply IH.
Qed.

Lemma sorted_perm (l : list str) : Permutation.Permutation l (sorted l).
Proof. apply StrSort.Permuted_sort. Qed.

Lemma sorted_in (l : list str) (d : str) : In d (sorted l) <-> In d l.
Proof.
  split; intros H.
  - eapply Permutation.Permutation_in; [| exact H].
    apply Permutation.Permutation_sym, sorted_perm.
  - eapply Permutation.Permutation_in; [| exact H]. apply sorted_perm.
Qed.

Lemma sorted_length (l : list str) : length (sorted l) = length l.
Proof. symmetry. apply Permutation.Permutation_length, sorted_perm. Qed.

Lemma sorted_strongly (l : list str) :
  Sorted.StronglySorted (fun a b => str_leb a b = true) (sorted l).
Proof.
  apply (StrSort.StronglySorted_sort). intros a b c. apply str_leb_trans.
Qed.

(** The two least names, when there are at least two. *)
Lemma sorted_two (l : list str) :
  2 <= length l ->
  exists d0 d1 rest,
    sorted l = d0 :: d1 :: rest /\
    Forall (fun d => str_leb d0 d = true) (d1 :: rest) /\
    Forall (fun d => str_leb d1 d = true) rest.
Proof.
  intros Hl. pose proof (sorted_length l) as Hlen.
  pose proof (sorted_strongly l) as Hs.
  destruct (sorted l) as [|d0 [|d1 rest]]; cbn in Hlen; try lia.
  exists d0, d1, rest. split; [reflexivity |].
  inversion Hs as [|? ? Hs1 H0]; subst.
  inversion Hs1 as [|? ? _ H1]; subst. now split.
Qed.

Lemma truthy_device (p : ListPortInfo) :
  device p <> [] -> truthy (Some (device p)) = true.
Proof. cbn. now destruct (device p). Qed.

Lemma scan_spec (lower : str -> str) (ports : list ListPortInfo) :
  all_named ports ->
  forall c d,
    scan lower ports c d
    = (scanned c (first_match lower CLI_KEYWORDS ports),
       scanned d (first_match lower DATA_KEYWORDS ports)).
Proof.
  unfold first_match.
  induction 1 as [|p ports Hp _ IH]; intros c d.
  - cbn. unfold scanned. now destruct (truthy c), (truthy d).
  - cbn [scan find]. rewrite IH. pose proof (@truthy_device p Hp) as Ht.
    f_equal.
    + unfold scanned at 2. destruct (truthy c) eqn:Hc; cbn [negb andb].
      * unfold scanned. now rewrite Hc.
      * destruct (any_in CLI_KEYWORDS (desc lower p)).
        -- unfold scanned. now rewrite Ht.
        -- unfold scanned. now rewrite Hc.
    + unfold scanned at 2. destruct (truthy d) eqn:Hd; cbn [negb andb].
      * unfold scanned. now rewrite Hd.
      * destruct (any_in DATA_KEYWORDS (desc lower p)).
        -- unfold scanned. now rewrite Ht.
        -- unfold scanned. now rewrite Hd.
Qed.

Lemma scan_listed (lower : str -> str) (all ports : list ListPortInfo) :
  incl ports all ->
  forall c d, listed all c -> listed all d ->
    listed all (fst (scan lower ports c d)) /\
    listed all (snd (scan lower ports c d)).
Proof.
  induction ports as [|p ports IH]; intros Hin c d Hc Hd.
  - now split.
  - cbn [scan].
    assert (Hp : listed all (Some (device p))).
    { cbn. apply in_map, Hin. now left. }
    apply IH.
    + intros q Hq. apply Hin. now right.
    + now destruct (negb (truthy c) && any_in CLI_KEYWORDS (desc lower p)).
    + now destruct (negb (truthy d) && any_in DATA_KEYWORDS (desc lower p)).
Qed.


Lemma first_match_in (lower : str -> str) (keywords : list str)
    (ports : list ListPortInfo) (p : ListPortInfo) :
  first_match lower keywords ports = Some p -> In p ports.
Proof. intros H. now apply find_some in H. Qed.

(** X12. [search_radar_ports] never invents a name: each of the two
    names it returns is [None] or the device of a listed port, and with no
    port listed both are [None]. *)
Theorem search_returns_listed_devices (lower : str -> str)
    (ports : list ListPortInfo) :
  listed ports (fst (search_radar_ports lower ports)) /\
  listed ports (snd (search_radar_ports lower ports)) /\
  search_radar_ports lower [] = (None, None).
Proof.
  split; [| split; [| reflexivity]].
  - unfold search_radar_ports.
    destruct (@scan_listed lower ports ports (incl_refl _) None None I I)
      as [Hc Hd].
    destruct (scan lower ports None None) as [c d]. cbn [fst snd] in Hc, Hd.
    destruct (negb (truthy c) || negb (truthy d)); [| exact Hc].
    pose proof (sorted_in (map device ports)) as Hs.
    destruct (sorted (map device ports)) as [|s0 [|s1 rest]]; cbn [fst].
    + exact Hc.
    + unfold py_or. destruct (truthy c); [exact Hc |].
      cbn. apply Hs. now left.
    + unfold py_or. destruct (truthy c); [exact Hc |].
      cbn. apply Hs. right. now left.
  - unfold search_radar_ports.
    destruct (@scan_listed lower ports ports (incl_refl _) None None I I)
      as [Hc Hd].
    destruct (scan lower ports None None) as [c d]. cbn [fst snd] in Hc, Hd.
    destruct (negb (truthy c) || negb (truthy d)); [| exact Hd].
    pose proof (sorted_in (map device ports)) as Hs.
    destruct (sorted (map device ports)) as [|s0 [|s1 rest]]; cbn [snd].
    + exact Hd.
    + exact Hd.
    + unfold py_or. destruct (truthy d); [exact Hd |].
      cbn. apply Hs. now left.
Qed.

(** X13. When every listed port has a device name, a role whose keywords
    occur in some description goes to the first such port in list order,
    whatever the fallback does; when both roles are found this way,
    [auto_connect] goes on to connect. *)
Theorem first_keyword_match_wins (lower : str -> str)
    (ports : list ListPortInfo) (Hnamed : all_named ports) :
  (forall p, first_match lower CLI_KEYWORDS ports = Some p ->
     fst (search_radar_ports lower ports) = Some (device p)) /\
  (forall q, first_match lower DATA_KEYWORDS ports = Some q ->
     snd (search_radar_ports lower ports) = Some (device q)) /\
  (forall p q, first_match lower CLI_KEYWORDS ports = Some p ->
     first_match lower DATA_KEYWORDS ports = Some q ->
     search_radar_ports lower ports = (Some (device p), Some (device q)) /\
     auto_connect_proceeds lower ports = true).
Proof.
  assert (Hdev : forall kw p, first_match lower kw ports = Some p ->
                   truthy (Some (device p)) = true).
  { intros kw p Hp. apply truthy_device.
    apply first_match_in in Hp. unfold all_named in Hnamed.
    rewrite Forall_forall in Hnamed. now apply Hnamed. }
  unfold auto_connect_proceeds, search_radar_ports.
  rewrite (@scan_spec lower ports Hnamed). unfold scanned. cbn [truthy].
  split; [| split].
  - intros p Hp. rewrite Hp. pose proof (Hdev _ _ Hp) as Ht.
    destruct (negb (truthy (Some (device p))) || _); [| reflexivity].
    destruct (sorted (map device ports)) as [|s0 [|s1 rest]]; cbn [fst];
      unfold py_or; try rewrite Ht; reflexivity.
  - intros q Hq. rewrite Hq. pose proof (Hdev _ _ Hq) as Ht.
    destruct (negb _ || negb (truthy (Some (device q)))); [| reflexivity].
    destruct (sorted (map device ports)) as [|s0 [|s1 rest]]; cbn [snd];
      unfold py_or; try rewrite Ht; reflexivity.
  - intros p q Hp Hq. rewrite Hp, Hq.
    rewrite (Hdev _ _ Hp), (Hdev _ _ Hq). cbn [negb orb].
    rewrite (Hdev _ _ Hp), (Hdev _ _ Hq). now split.
Qed.

Lemma first_keyword_match_wins_witness :
  all_named bridge_ports /\
  search_radar_ports ascii_lower bridge_ports
  = (Some COM3, Some COM4) /\
  auto_connect_proceeds ascii_lower bridge_ports = true.
Proof.
  assert (Hn : all_named bridge_ports).
  { repeat constructor; discriminate. }
  split; [exact Hn |].
  destruct (@first_keyword_match_wins ascii_lower bridge_ports Hn)
    as (_ & _ & H).
  exact (H enhanced_com3 standard_com4 eq_refl eq_refl).
Defined.

(** X14. When no description holds a keyword of either table, the roles
    are read off the sorted device names: with two or more ports the data
    port is the least name and the CLI port the next one; with a single
    port only the CLI name is set, and [auto_connect] gives up. *)
Theorem fallback_takes_least_names (lower : str -> str)
    (ports : list ListPortInfo)
    (Hcli : unmatched lower CLI_KEYWORDS ports)
    (Hdata : unmatched lower DATA_KEYWORDS ports) :
  (forall p, ports = [p] ->
     search_radar_ports lower ports = (Some (device p), None) /\
     auto_connect_proceeds lower ports = false) /\
  (2 <= length ports ->
     exists d0 d1 rest,
       Permutation.Permutation (map device ports) (d0 :: d1 :: rest) /\
       Forall (fun d => str_leb d0 d = true) (d1 :: rest) /\
       Forall (fun d => str_leb d1 d = true) rest /\
       search_radar_ports lower ports = (Some d1, Some d0)).
Proof.
  assert (Hscan : scan lower ports None None = (None, None)).
  { clear - Hcli Hdata. unfold unmatched in *.
    induction ports as [|p ports IH]; [reflexivity |].
    inversion Hcli as [|? ? Hc Hcs]; inversion Hdata as [|? ? Hd Hds]; subst.
    cbn [scan truthy negb andb]. rewrite Hc, Hd. now apply IH. }
  split.
  - intros p ->. unfold auto_connect_proceeds, search_radar_ports.
    rewrite Hscan. cbn [truthy negb orb map].
    pose proof (sorted_perm [device p]) as Hp.
    apply Permutation.Permutation_length_1_inv in Hp.
    rewrite Hp. cbn. now destruct (device p).
  - intros Hlen. unfold search_radar_ports. rewrite Hscan.
    cbn [truthy negb orb].
    destruct (@sorted_two (map device ports)) as (d0 & d1 & rest & Hs & H0 & H1).
    { now rewrite length_map. }
    exists d0, d1, rest. rewrite Hs.
    repeat split; try assumption.
    rewrite <- Hs. apply sorted_perm.
Qed.

Lemma fallback_takes_least_names_witness :
  unmatched ascii_lower CLI_KEYWORDS plain_ports /\
  unmatched ascii_lower DATA_KEYWORDS plain_ports /\
  2 <= length plain_ports /\
  exists d0 d1 rest,
    Permutation.Permutation (map device plain_ports) (d0 :: d1 :: rest) /\
    Forall (fun d => str_leb d0 d = true) (d1 :: rest) /\
    Forall (fun d => str_leb d1 d = true) rest /\
    search_radar_ports ascii_lower plain_ports = (Some d1, Some d0).
Proof.
  assert (Hc : unmatched ascii_lower CLI_KEYWORDS plain_ports).
  { repeat constructor. }
  assert (Hd : unmatched ascii_lower DATA_KEYWORDS plain_ports).
  { repeat constructor. }
  assert (Hl : 2 <= length plain_ports) by (cbn; lia).
  repeat (split; [assumption |]).
  exact (proj2 (@fallback_takes_least_names ascii_lower plain_ports Hc Hd) Hl).
Defined.



(** ** The capture loop of [iwr1843.py] *)

Lemma iwr1843_turn (cb : Iwr1843Capture.callback) (bs : bytes)
    (t : Iwr1843Capture.world) :
  pure_consumer cb ->
  exists pts,
    Radar._parse_pointcloud (Iwr1843Capture.buffer t ++ bs) = Ret pts /\
    Iwr1843Capture.loop_body cb (Waiting bs) t
    = (Ret tt,
       if contains MAGIC_WORD (Iwr1843Capture.buffer t ++ bs) then
         {| Iwr1843Capture.self := Iwr1843Capture.self t;
            Iwr1843Capture.buffer := [];
            Iwr1843Capture.delivered :=
              Iwr1843Capture.delivered t
              ++ (if 0 <? len pts then [pts] else []) |}
       else
         {| Iwr1843Capture.self := Iwr1843Capture.self t;
            Iwr1843Capture.buffer := Iwr1843Capture.buffer t ++ bs;
            Iwr1843Capture.delivered := Iwr1843Capture.delivered t |}).
Proof.
  intros Hcb.
  destruct (radar_parse_returns (Iwr1843Capture.buffer t ++ bs)) as [pts Hp].
  exists pts. split; [exact Hp |].
  cbv beta iota delta [Iwr1843Capture.loop_body bind in_waiting read ret
                       modify gets lift].
  rewrite firstn_all. cbn [Iwr1843Capture.set_buffer Iwr1843Capture.buffer].
  destruct (contains MAGIC_WORD (Iwr1843Capture.buffer t ++ bs)).
  - rewrite (iwr1843_parse_eq (Iwr1843Capture.buffer t ++ bs)), Hp.
    destruct (0 <? len pts).
    + unfold Iwr1843Capture.call.
      cbn [Iwr1843Capture.self Iwr1843Capture.buffer
           Iwr1843Capture.delivered].
      rewrite Hcb. reflexivity.
    + cbn. now rewrite app_nil_r.
  - reflexivity.
Qed.

Lemma radar_turn_pure (cb : Radar.callback) (bs : bytes) (w : Radar.world) :
  pure_consumer cb ->
  contains MAGIC_WORD (Radar.buffer (Radar.self w)) = false ->
  exists pts w',
    Radar._parse_pointcloud (Radar.buffer (Radar.self w) ++ bs) = Ret pts /\
    Radar.loop_body cb (Waiting bs) w = (Ret tt, w') /\
    Radar.running (Radar.self w') = Radar.running (Radar.self w) /\
    Radar.buffer (Radar.self w')
    = (if contains MAGIC_WORD (Radar.buffer (Radar.self w) ++ bs)
       then [] else Radar.buffer (Radar.self w) ++ bs) /\
    Radar.delivered w'
    = Radar.delivered w
      ++ (if contains MAGIC_WORD (Radar.buffer (Radar.self w) ++ bs)
          then if 0 <? len pts then [pts] else []
          else []).
Proof.
  intros Hcb Hinv.
  destruct (radar_parse_returns (Radar.buffer (Radar.self w) ++ bs))
    as [pts Hp].
  exists pts.
  destruct bs as [| b bs].
  - exists w. rewrite app_nil_r in *. rewrite Hinv, app_nil_r.
    split; [exact Hp |]. split; [apply radar_loop_body_idle |].
    repeat split.
  - assert (Hbs : b :: bs <> []) by discriminate.
    destruct (contains MAGIC_WORD (Radar.buffer (Radar.self w) ++ b :: bs))
      eqn:Hc.
    + rewrite (@radar_loop_body_sync cb (b :: bs) w pts Hbs Hc Hp). cbv zeta.
      destruct (0 <? len pts).
      * rewrite Hcb. eexists. split; [exact Hp |].
        split; [reflexivity |]. repeat split.
      * eexists. split; [exact Hp |]. split; [reflexivity |].
        cbn. rewrite app_nil_r. repeat split.
    + rewrite (@radar_loop_body_nosync cb (b :: bs) w Hbs Hc).
      eexists. split; [exact Hp |]. split; [reflexivity |].
      cbn. rewrite app_nil_r. repeat split.
Qed.

Lemma iwr1843_loop_agrees (cb : Radar.callback)
    (cb' : Iwr1843Capture.callback) (chunks : list bytes) :
  pure_consumer cb -> pure_consumer cb' ->
  forall (w : Radar.world) (t : Iwr1843Capture.world),
    Radar.running (Radar.self w) = true ->
    Iwr1843Capture.running (Iwr1843Capture.self t) = true ->
    Radar.buffer (Radar.self w) = Iwr1843Capture.buffer t ->
    contains MAGIC_WORD (Iwr1843Capture.buffer t) = false ->
    exists w' t' new,
      Radar._capture_loop cb (map Waiting chunks) w = (Looping, w') /\
      Iwr1843Capture.loop cb' (map Waiting chunks) t
      = (Iwr1843Capture.Alive, t') /\
      Radar.delivered w' = Radar.delivered w ++ new /\
      Iwr1843Capture.delivered t' = Iwr1843Capture.delivered t ++ new /\
      Radar.buffer (Radar.self w') = Iwr1843Capture.buffer t'.
Proof.
  intros Hcb Hcb'.
  induction chunks as [| bs chunks IH]; intros w t Hr Hr' Hbuf Hinv.
  - exists w, t, []. cbn. now rewrite !app_nil_r.
  - cbn [map Radar._capture_loop Iwr1843Capture.loop].
    unfold Radar.worker_step, Iwr1843Capture.worker_step. rewrite Hr, Hr'.
    assert (Hinv' : contains MAGIC_WORD (Radar.buffer (Radar.self w)) = false)
      by now rewrite Hbuf.
    destruct (@radar_turn_pure cb bs w Hcb Hinv')
      as (pts & w1 & Hp & Hturn & Hr1 & Hb1 & Hd1).
    destruct (@iwr1843_turn cb' bs t Hcb') as (pts' & Hp' & Hturn').
    rewrite Hbuf in Hp. rewrite Hp in Hp'. injection Hp' as <-.
    rewrite Hturn, Hturn'. rewrite Hbuf in Hb1, Hd1.
    set (t1 := if contains MAGIC_WORD (Iwr1843Capture.buffer t ++ bs)
               then _ else _).
    destruct (IH w1 t1) as (w' & t' & new & Hw & Ht & Hdw & Hdt & Hb).
    + now rewrite Hr1.
    + subst t1.
      destruct (contains MAGIC_WORD (Iwr1843Capture.buffer t ++ bs));
        exact Hr'.
    + rewrite Hb1. subst t1.
      destruct (contains MAGIC_WORD (Iwr1843Capture.buffer t ++ bs));
        reflexivity.
    + subst t1.
      destruct (contains MAGIC_WORD (Iwr1843Capture.buffer t ++ bs)) eqn:Hc;
        [reflexivity | exact Hc].
    + exists w', t',
        ((if contains MAGIC_WORD (Iwr1843Capture.buffer t ++ bs)
          then if 0 <? len pts then [pts] else []
          else []) ++ new).
      repeat split; try assumption.
      * now rewrite Hdw, Hd1, app_assoc.
      * rewrite Hdt. subst t1.
        destruct (contains MAGIC_WORD (Iwr1843Capture.buffer t ++ bs));
          cbn [Iwr1843Capture.delivered app]; rewrite <- ?app_assoc;
          reflexivity.
Qed.

Lemma iwr1843_loop_app (cb : Iwr1843Capture.callback)
    (evs evs' : list serial_event) (t t1 : Iwr1843Capture.world) :
  Iwr1843Capture.loop cb evs t = (Iwr1843Capture.Alive, t1) ->
  Iwr1843Capture.loop cb (evs ++ evs') t = Iwr1843Capture.loop cb evs' t1.
Proof.
  revert t. induction evs as [| ev evs IH]; intros t H.
  - cbn in H. now injection H as ->.
  - cbn [app Iwr1843Capture.loop] in *.
    destruct (Iwr1843Capture.worker_step cb ev t) as [[| | e] t2];
      try discriminate H.
    now apply IH.
Qed.

(** X16. With a port that does not fail and consumers that return and
    leave the object alone, the capture thread of [iwr1843.py] invokes its
    consumer with exactly the arrays the thread of [radar.py] does after an
    accepted [start_capture], in the same order, and the two hold the same
    unconsumed bytes afterwards. *)
Theorem iwr1843_delivers_as_radar (cb : Radar.callback)
    (cb' : Iwr1843Capture.callback) (chunks : list bytes)
    (w : Radar.world) (t : Iwr1843Capture.world)
    (Hcb : pure_consumer cb) (Hcb' : pure_consumer cb')
    (Hconn : Radar.is_connected (Radar.self w) = true)
    (Hidle : Radar.capturing (Radar.self w) = false)
    (Hrun : Iwr1843Capture.running (Iwr1843Capture.self t) = true) :
  exists w' t' new,
    Radar._capture_loop cb (map Waiting chunks)
      (snd (Radar.start_capture cb w)) = (Looping, w') /\
    Iwr1843Capture._capture_loop cb' (map Waiting chunks) t
    = (Iwr1843Capture.Alive, t') /\
    Radar.delivered w' = Radar.delivered w ++ new /\
    Iwr1843Capture.delivered t' = Iwr1843Capture.delivered t ++ new /\
    Radar.buffer (Radar.self w') = Iwr1843Capture.buffer t'.
Proof.
  unfold Radar.start_capture, Iwr1843Capture._capture_loop.
  rewrite Hconn, Hidle. cbn [negb orb snd].
  match goal with
  | |- context [Radar._capture_loop cb _ ?w1] =>
      destruct (@iwr1843_loop_agrees cb cb' chunks Hcb Hcb' w1
                  (Iwr1843Capture.set_buffer [] t)
                  eq_refl Hrun eq_refl eq_refl)
        as (w' & t' & new & Hw & Ht & Hdw & Hdt & Hb)
  end.
  exists w', t', new. repeat split; assumption.
Qed.

Lemma iwr1843_delivers_as_radar_witness :
  let chunks := [firstn 20 three_record_frame; skipn 20 three_record_frame] in
  pure_consumer (@quiet_callback Radar.TI1843Radar) /\
  pure_consumer (@quiet_callback Iwr1843Capture.TI1843Radar) /\
  Radar.is_connected (Radar.self radar_connected) = true /\
  Radar.capturing (Radar.self radar_connected) = false /\
  Iwr1843Capture.running (Iwr1843Capture.self iwr1843_started) = true /\
  exists w' t' new,
    Radar._capture_loop quiet_callback (map Waiting chunks)
      (snd (Radar.start_capture quiet_callback radar_connected))
    = (Looping, w') /\
    Iwr1843Capture._capture_loop quiet_callback (map Waiting chunks)
      iwr1843_started
    = (Iwr1843Capture.Alive, t') /\
    Radar.delivered w' = Radar.delivered radar_connected ++ new /\
    Iwr1843Capture.delivered t'
    = Iwr1843Capture.delivered iwr1843_started ++ new /\
    Radar.buffer (Radar.self w') = Iwr1843Capture.buffer t'.
Proof.
  intros chunks.
  assert (H1 : pure_consumer (@quiet_callback Radar.TI1843Radar))
    by (intros pts r; reflexivity).
  assert (H2 : pure_consumer (@quiet_callback Iwr1843Capture.TI1843Radar))
    by (intros pts r; reflexivity).
  repeat (split; [first [assumption | reflexivity] |]).
  exact (@iwr1843_delivers_as_radar quiet_callback quiet_callback chunks
           radar_connected iwr1843_started H1 H2 eq_refl eq_refl eq_refl).
Defined.

(** X17. The thread of [iwr1843.py] has no handler: when the port fails
    on a turn, the thread ends with the [SerialException] uncaught, the
    events after it are never read, and the object and the arrays
    delivered stay as the turns before left them, [running] still set. *)
Theorem iwr1843_port_failure_uncaught (cb : Iwr1843Capture.callback)
    (evs evs' : list serial_event) (t t1 : Iwr1843Capture.world)
    (Hloop : Iwr1843Capture.loop cb evs t = (Iwr1843Capture.Alive, t1))
    (Hrun : Iwr1843Capture.running (Iwr1843Capture.self t1) = true) :
  Iwr1843Capture.loop cb (evs ++ PortFailure :: evs') t
  = (Iwr1843Capture.Uncaught SerialException, t1).
Proof.
  rewrite (@iwr1843_loop_app cb evs (PortFailure :: evs') t t1 Hloop).
  cbn [Iwr1843Capture.loop]. unfold Iwr1843Capture.worker_step.
  now rewrite Hrun.
Qed.

Lemma iwr1843_port_failure_uncaught_witness :
  exists t1,
    Iwr1843Capture.loop quiet_callback [Waiting three_record_frame]
      iwr1843_started = (Iwr1843Capture.Alive, t1) /\
    Iwr1843Capture.running (Iwr1843Capture.self t1) = true /\
    length (Iwr1843Capture.delivered t1) = 1 /\
    Iwr1843Capture.loop quiet_callback
      ([Waiting three_record_frame] ++ [PortFailure; Waiting three_record_frame])
      iwr1843_started
    = (Iwr1843Capture.Uncaught SerialException, t1).
Proof.
  eexists.
  assert (H : Iwr1843Capture.loop quiet_callback [Waiting three_record_frame]
                iwr1843_started
              = (Iwr1843Capture.Alive,
                 snd (Iwr1843Capture.loop quiet_callback
                        [Waiting three_record_frame] iwr1843_started)))
    by (vm_compute; reflexivity).
  split; [exact H |].
  split; [vm_compute; reflexivity |].
  split; [vm_compute; reflexivity |].
  exact (@iwr1843_port_failure_uncaught quiet_callback
           [Waiting three_record_frame] [Waiting three_record_frame]
           iwr1843_started _ H eq_refl).
Defined.

(** ** The simulated temperature *)

Section TemperatureProperties.
Import PrimFloat.

Lemma float_ltb_leb (x y : PrimFloat.float) :
  PrimFloat.ltb x y = true -> PrimFloat.leb x y = true.
Proof.
  rewrite FloatAxioms.ltb_spec, FloatAxioms.leb_spec.
  unfold SpecFloat.SFltb, SpecFloat.SFleb.
  destruct (SpecFloat.SFcompare _ _) as [[| |] |]; congruence.
Qed.

Lemma temperature_turn_in_range (capturing : bool) (t : PrimFloat.float) :
  Temperature.in_range (Temperature.turn capturing t) = true.
Proof.
  unfold Temperature.turn. cbv zeta.
  set (x := if capturing then _ else _). clearbody x.
  unfold Temperature.py_min.
  destruct (PrimFloat.ltb x 80%float) eqn:H80.
  - unfold Temperature.py_max.
    destruct (PrimFloat.ltb 20%float x) eqn:H20.
    + unfold Temperature.in_range.
      now rewrite (@float_ltb_leb _ _ H20), (@float_ltb_leb _ _ H80).
    + reflexivity.
  - reflexivity.
Qed.

(** X18. The simulated temperature is clamped on every turn: whatever
    value [self.temperature] starts from (a NaN included) and whatever the
    capture flag is at each turn, every value the callback is given lies in
    [20, 80], and so does the stored temperature once a turn has run; it
    rests at 80 while capturing and at 20 while not. *)
Theorem temperature_stays_in_range (flags : list bool)
    (t0 : PrimFloat.float) :
  forallb Temperature.in_range (fst (Temperature.loop flags t0)) = true /\
  (flags <> [] ->
   Temperature.in_range (snd (Temperature.loop flags t0)) = true) /\
  length (fst (Temperature.loop flags t0)) = length flags /\
  Temperature.turn true 80 = 80%float /\
  Temperature.turn false 20 = 20%float.
Proof.
  split; [| split; [| split; [| split; reflexivity]]].
  - revert t0. induction flags as [| c flags IH]; intros t0; [reflexivity |].
    cbn [Temperature.loop]. specialize (IH (Temperature.turn c t0)).
    destruct (Temperature.loop flags (Temperature.turn c t0)) as [out fin].
    cbn [fst forallb] in *. now rewrite temperature_turn_in_range, IH.
  - assert (H : forall fl t, Temperature.in_range t = true ->
                  Temperature.in_range (snd (Temperature.loop fl t)) = true).
    { induction fl as [| c fl IH]; intros t Ht; [exact Ht |].
      cbn [Temperature.loop].
      specialize (IH (Temperature.turn c t) (temperature_turn_in_range c t)).
      now destruct (Temperature.loop fl (Temperature.turn c t)). }
    destruct flags as [| c flags]; [congruence | intros _].
    cbn [Temperature.loop].
    specialize (H flags (Temperature.turn c t0)
                  (temperature_turn_in_range c t0)).
    now destruct (Temperature.loop flags (Temperature.turn c t0)).
  - revert t0. induction flags as [| c flags IH]; intros t0; [reflexivity |].
    cbn [Temperature.loop]. specialize (IH (Temperature.turn c t0)).
    destruct (Temperature.loop flags (Temperature.turn c t0)).
    cbn [fst length] in *. now rewrite IH.
Qed.

Lemma temperature_stays_in_range_witness :
  [true; false] <> [] /\
  Temperature.in_range
    (snd (Temperature.loop [true; false] Temperature.initial)) = true.
Proof.
  assert (H : [true; false] <> []) by discriminate.
  split; [exact H |].
  exact (proj1 (proj2 (temperature_stays_in_range [true; false]
                         Temperature.initial)) H).
Defined.

End TemperatureProperties.
